(* ===== verification/_CoqProject ===== *)
-Q . S2P
Prelude.v
Messages.v
Lifecycle.v
KnowledgeBase.v
World.v
Strategy.v
ServiceAI.v
ActionlibAI.v
FSMAI.v
Interfaces.v
Registry.v
Manager.v
Transport.v
Concurrency.v
Scenarios.v
