(* ===== verification/Prelude.v ===== *)
(** * A verification development of ROSPlan's Python action interface manager

    The program.  [src/rosplan_action_interface/src/ActionInterfaceManager.py]
    is a ROS node, class [ActionInterfaceManager], that
    - loads the list of action configurations from the parameter [actions]
      ([__init__], lines 21-46); without it, it logs an error, requests
      shutdown and returns;
    - creates the feedback publisher and subscribes [dispatch_callback] to
      the dispatch topic (lines 37-42), and only then builds one action
      interface per configuration entry ([parse_config] and the three
      [parse_*] methods, lines 74-97), storing it under the interface's
      action name in [_action_interfaces], a class attribute (line 19)
      shared by every instance of the class;
    - for every dispatched action it owns ([dispatch_callback], lines
      49-67) publishes ACTION_DISPATCHED_TO_GOAL_STATE, asks the knowledge
      base to apply the start effects (effect index 0, result ignored) and
      calls the interface's [run].
    The interface classes, the knowledge-base link and the message types
    belong to the repository but are not under [src/]: they are modelled
    from the specification (spec_modelled in the manifest).

    Files, in dependency order.
    - [Prelude] (this file): the state monad [St], the exception monad on
      [sum], the exception sequencing [;;?] and the step notation in
      [aim_scope], the [aim] hint and rewrite databases and the monad's
      rewriting lemmas.  The tactics live beside what they automate:
      [solve_emits] in [World], [simpl_obs] in [Strategy].
    - [Messages]: [ActionDispatch], [ActionFeedback] and its [Status]
      constants, the observable [Event]s (publication, knowledge-base call,
      remote request, log), [feedback_for] (the field copies of lines
      56-59).
    - [Lifecycle]: the abstract specification of one action's life
      (specification 3, 4.3, 5, 8) as an executable automaton [lc_run] and
      as a list shape [lifecycle_shape]; [lc_run_Idle_Done] shows they
      agree and [lifecycle_shape_terminal] that a complete life has exactly
      one terminal status, last.
    - [KnowledgeBase]: the link as the typeclass [KnowledgeBase] (apply
      effects, success flag), the law [KnowledgeBaseAtomic] (a failed
      application changes nothing) and the fact-set implementation
      [FactKB], which satisfies it; [fact_delta] and [touched] describe
      what one application changes, and applications whose changes are
      disjoint commute ([fact_apply_commute]).
    - [World]: knowledge base plus event trace, the primitive effects
      ([emit], [publish], [remote], [apply_effects]) and the calculus
      [emits m w new] ("running [m] from [w] appends [new]"), and
      [logs cmd m w new], which adds that the knowledge base changed only by
      replaying the effect applications of [cmd] that [new] records.
    - [Strategy]: the interface typeclass [ExecutionStrategy]
      ([get_action_name], [feedback_topic], [run]) whose law
      [run_contract] is the specification's contract: a run appends events
      about its own command only, publishes on its own topic, changes the
      knowledge base only by the effect applications it records
      ([logs], [kb_replay] in [World]), and takes the lifecycle from
      "start effects applied" to a terminal status.
    - [ServiceAI], [ActionlibAI], [FSMAI]: the three interface variants,
      each discharging the contract.  The actionlib interface reads one
      server status per tick for at most [al_timeout] ticks (that fuel is
      the time-out itself, then the goal is cancelled); a cancellation
      requested from outside is one of those ticks ([RCancelRequest]): the
      cancel is sent once and the acknowledgement ends the run with
      FAILED; [actionlib_result] is the run's outcome.  The state machine
      takes at most [fsm_timeout] transitions (cycles are legal retries, so
      the time-out is the only bound); [fsm_step] is the machine as a step
      relation and [fsm_result] its outcome.
    - [Interfaces]: the closed union [ActionInterface] of the variants (what
      the dictionary stores), [ActionConfig] (a YAML entry with optional
      keys) and the constructors, which raise [KeyError] on a missing key.
    - [Registry]: [register], [parse_actionlib], [parse_service],
      [parse_state_machine], [if_interface_type], [parse_entry],
      [parse_config] over the dictionary; [build] is one loop iteration as
      a single case analysis (a proof device, with the code's skipping of
      unknown types), and [spec_entry]/[spec_build] the fail-fast registry
      of specification 4.1 with its ConfigurationFaults.
    - [Manager]: the process state [Proc] (the shared class dictionary and
      the world), an instance's attributes [AIM], [dispatch_callback]
      (against any [ExecutionStrategy]), [aim_init] ([__init__]), and the
      node as the step relation [node_step]: initialisation steps
      ([PInit], [PParsing rest], [PReady], [PShutdown], [PCrashed])
      interleaved with whole callbacks, which rospy runs one at a time per
      publisher connection.  [node_step] is [init_step] (the steps of [__init__])
      or one delivery.
    - [Transport]: the dispatch subscription of line 42 with
      [queue_size=10]: the node [QNode] with the messages waiting on the
      connection, the batch of rospy's receive thread, and history lists
      (arrived, handled, dropped); [qstep] interleaves [init_step] with
      arrivals, reads ([read_messages] keeps the newest [queue_size]
      messages, as rospy's deserialisation does) and callbacks on the
      batch in order.  [blocks] describes a trace made of whole callbacks.
    - [Concurrency]: several publisher connections of the dispatch topic,
      each with its own rospy receive thread ([Transport] models one).  A
      callback is cut at its atomic effects ([Act]: a publication, a
      remote request, a knowledge-base request, a log line):
      [callback_thread] lists those of [dispatch_callback], [ai_steps]
      those of an interface's [run] ([service_steps], [actionlib_steps],
      [fsm_steps]); the interfaces' control flow depends only on the remote
      parties' replies ([Env]), never on the knowledge base, so the lists
      are fixed in advance and running them ([run_acts]) is running the
      code.  [receive_loop] is one thread's loop over its messages,
      [connection_thread] its effects, and [interleave] runs any schedule
      (a list of thread indices) of the threads [conn_threads];
      [callback_outcome] is what a callback ends with (not dispatched,
      SUCCEEDED or FAILED, by the interfaces' outcome functions).
    - [Scenarios]: concrete configurations, the specification's "pickup"
      scenario evaluated, and one witness per theorem with hypotheses.

    Theorems (claims C1-C32 of the manifest).
    - Dispatch (C1-C3, C13, C25, C26): the callback refines the lifecycle
      specification for every registered command and every interface that
      honours the contract; an unregistered command changes nothing;
      exactly one terminal status, last; the start-effects result is
      ignored (C13); the knowledge base after the callback is the start
      effects applied, then the end effects exactly when the command
      succeeded (C25); with an atomic knowledge base
      ([KnowledgeBaseAtomic]), a failed start leaves the end effects alone
      on success (C26).
    - Node (C4, C5, C10, C11, C28): the shared class dictionary makes one
      instance dispatch another's actions (feedback split across topics);
      a command arriving between subscription and [parse_config] is lost;
      a node without configuration stays silent (C10); the dictionary only
      ever holds interfaces built from the configuration (C11, rule
      induction on [node_step]); a missing dispatch topic is not fatal,
      the node subscribes to a default one (C28).
    - Registry (C6-C9, C12): on configurations whose types are all
      recognised, [parse_config] refines the fail-fast registry of
      specification 4.1 ([spec_build]): it raises exactly when that
      registry reports a ConfigurationFault, and otherwise builds the same
      dictionary (C6); last entry wins (C7); an unrecognised type is
      skipped silently, where the specification faults (C8); a missing
      [interface_type] raises [KeyError] keeping earlier entries (C9);
      registry invariant (C12).
    - Variants through the callback (C14-C19, C24): service end effects
      strictly before SUCCEEDED; actionlib time-out gives cancel then
      FAILED, and statuses after the time-out are never read; a missing FSM
      transition fails at once; an FSM command succeeds iff the step
      relation reaches success within the time-out; with a decreasing
      ranking, the time-out beyond the rank is irrelevant; an actionlib
      goal cancelled from outside ends with FAILED and no end effects
      (C24).
    - Receive queue (C20-C23, C27): the batch never exceeds 10 commands
      (C20); on the whole trace, with distinct command keys, each handled
      command gets nothing or one complete lifecycle, and the knowledge
      base is the commands' effects applied one command after another in
      handling order, each as its lifecycle ended (C21, sequential
      consistency, [apply_outcomes]); callbacks of the connection never
      interleave, since [run] is called inline (C22); 11 commands read at
      once lose the oldest for good, which then never gets any status
      (C23); every event naming a command is about a handled command
      (C27).  Supporting lemmas, not claims: the queued node is a
      stuttering simulation of [node_step] ([qstep_refines_node_step]),
      handling is first in, first out ([queue_fifo]), the receive thread
      can handle everything pending ([queue_drains]), and [init_step]
      agrees with [aim_init] ([node_init_refines]).
    - Several connections (C29-C32): under any complete schedule of the
      connections' receive threads, with distinct command keys, each
      command observes on the shared trace exactly what its callback alone
      produces (C29), so each registered command still has one complete
      lifecycle and an unregistered one nothing (C30); the commands of one
      connection stay serialised (C31); and when the store's applications
      for commands of different connections commute (the store's contract
      of specification 5, a hypothesis), the knowledge base after any
      interleaving is each command's outcome (start effects, then end
      effects exactly on success) applied one command after another (C32).
      Without that contract an interleaving can leave a knowledge base
      that no serial order gives ([Scenarios.interleaving_not_serialisable],
      an evaluated example).  The specification's "pickup" scenario is
      evaluated in [Scenarios.pickup_scenario].

    Not modelled: of rospy's threads, the interleaving of whole callbacks
    with the initialisation steps, the receive queue of one connection
    and the interleaving of the receive threads of several connections
    after [__init__] are modelled; the queue of each of several
    connections together with their interleaving, callbacks of a second
    connection during [__init__], the byte buffer [buff_size], and the
    feedback publisher's own [queue_size=10] and send thread are not; a
    thread switch inside one effect (an effect is one request, atomic
    for the receiving party) is not; log text;
    the PDDL semantics of effects and the services behind the knowledge-base
    link (the link is abstract, [FactKB] is one instance); the message
    fields the manager never reads (duration, dispatch_time); a
    configuration entry that is not a dictionary (a Python TypeError).

    Further work: [FactKB] laws (effects applied on success, unchanged on
    failure) and a refinement of the abstract [KnowledgeBase] by it; a
    well-formedness condition on state machines (specification 3) and its
    consequence for FSM runs. *)

From stdpp Require Export base list gmap strings.

(** ** The state monad *)

(** [St S A] threads a state [S] through a computation returning [A]; every
    stateful operation of the development is written in it. *)
Definition St (S A : Type) : Type := S → A * S.

#[export] Instance St_ret {S} : MRet (St S) := λ A x s, (x, s).
#[export] Instance St_bind {S} : MBind (St S) :=
  λ A B f m s, let '(a, s') := m s in f a s'.

(** Raising code: [inl e] is an exception [e] propagating, [inr x] a
    normal return. *)
#[export] Instance Sum_ret {E} : MRet (sum E) := λ A x, inr x.
#[export] Instance Sum_bind {E} : MBind (sum E) :=
  λ A B f m, match m with inl e => inl e | inr x => f x end.

Definition st_get {S} : St S S := λ s, (s, s).
Definition st_modify {S} (f : S → S) : St S unit := λ s, (tt, f s).

(** Sequence two raising computations: [k] runs only when [m] returned
    without an exception ([None]); an exception of [m] propagates. *)
Definition st_try {S E} (m k : St S (option E)) : St S (option E) :=
  r ← m; match r with Some e => mret (Some e) | None => k end.

(** Run a computation and keep its final state. *)
Definition exec {S A} (m : St S A) (s : S) : S := snd (m s).

Declare Scope aim_scope.
Delimit Scope aim_scope with aim.
Notation "s ⟶[ m ] s'" := (exec m s = s') (at level 70, format "s  ⟶[ m ]  s'") : aim_scope.
Notation "'do!' m" := (st_modify m) (at level 10) : aim_scope.
Notation "m ;;? k" := (st_try m k) (at level 100, k at level 200, right associativity) : aim_scope.
Open Scope aim_scope.

Create HintDb aim discriminated.
Create Rewrite HintDb aim.

Lemma exec_bind {S A B} (m : St S A) (f : A → St S B) s :
  exec (m ≫= f) s = exec (f (fst (m s))) (exec m s).
Proof. unfold exec, mbind, St_bind. by destruct (m s). Qed.

Lemma exec_ret {S A} (x : A) (s : S) : exec (mret x) s = s.
Proof. done. Qed.

Lemma exec_get_bind {S B} (f : S → St S B) s : exec (st_get ≫= f) s = exec (f s) s.
Proof. done. Qed.

Lemma exec_modify {S} (f : S → S) s : exec (st_modify f) s = f s.
Proof. done. Qed.

#[export] Hint Rewrite @exec_get_bind @exec_bind @exec_ret @exec_modify : aim.

#[export] Hint Rewrite @omap_app : aim.

(** ** Generic list lemmas *)

Section Lists.
Context {A B : Type}.

(** A sublist as long as the list is the list itself. *)
Lemma sublist_length_eq (l1 l2 : list A) :
  l1 `sublist_of` l2 → length l2 ≤ length l1 → l1 = l2.
Proof.
  induction 1 as [|x l1 l2 _ IH|x l1 l2 Hs _]; simpl; intros Hlen.
  - done.
  - f_equal. apply IH. lia.
  - apply sublist_length in Hs. lia.
Qed.

(** Distinct images identify the elements of the list. *)
Lemma NoDup_fmap_inj_on (f : A → B) (l : list A) x y :
  NoDup (f <$> l) → x ∈ l → y ∈ l → f x = f y → x = y.
Proof.
  induction l as [|z l IH]; simpl; rewrite ?NoDup_cons; [set_solver|].
  intros [Hz Hnd] Hx Hy Hf. apply elem_of_cons in Hx, Hy.
  destruct Hx as [->|Hx], Hy as [->|Hy]; try done.
  - destruct Hz. rewrite Hf. by apply list_elem_of_fmap_2.
  - destruct Hz. rewrite <- Hf. by apply list_elem_of_fmap_2.
  - by apply IH.
Qed.

End Lists.
