(* ===== verification/Messages.v ===== *)
(** * Messages: the ROS messages the manager consumes and produces, and the
    observable events of the node.

    [ActionDispatch] and [ActionFeedback] are the messages of
    [rosplan_dispatch_msgs] (not under [src/]; modelled from the
    specification, section 3).  Integers are kept as [Z]: the manager only
    copies them from one message to another, it never computes with them.
    [Event] is what an observer of the node sees, in order: publications on
    a topic, calls to the knowledge-base link, requests to remote actors and
    error logs. *)

From S2P Require Import Prelude.
From Stdlib Require Import ZArith.

Record KeyValue := mkKeyValue { kv_key : string; kv_value : string }.

(** rosplan_dispatch_msgs/ActionDispatch *)
Record ActionDispatch := mkActionDispatch {
  action_id : Z;
  plan_id : Z;
  name : string;
  parameters : list KeyValue
}.

(** The status constants of rosplan_dispatch_msgs/ActionFeedback, with the
    strategy-specific intermediate statuses as [ACTION_PROGRESS]. *)
Inductive Status :=
  | ACTION_ENABLED
  | ACTION_DISPATCHED_TO_GOAL_STATE
  | ACTION_SUCCEEDED_TO_GOAL_STATE
  | ACTION_FAILED
  | ACTION_PROGRESS (label : string).

(** rosplan_dispatch_msgs/ActionFeedback *)
Record ActionFeedback := mkActionFeedback {
  fb_action_id : Z;
  fb_plan_id : Z;
  fb_status : Status
}.

(** Requests a strategy sends to a remote actor. *)
Inductive RemoteRequest :=
  | ReqGoal (server : string)
  | ReqCancel (server : string)
  | ReqCall (service : string).

Inductive Event :=
  | EvPublish (topic : string) (fb : ActionFeedback)
  | EvApplyEffects (aid pid : Z) (op : string) (effect_index : Z) (ok : bool)
  | EvRemote (aid pid : Z) (req : RemoteRequest)
  | EvLogErr (msg : string)
  | EvShutdown (reason : string).

#[export] Instance KeyValue_eq_dec : EqDecision KeyValue.
Proof. solve_decision. Defined.
#[export] Instance ActionDispatch_eq_dec : EqDecision ActionDispatch.
Proof. solve_decision. Defined.
#[export] Instance Status_eq_dec : EqDecision Status.
Proof. solve_decision. Defined.
#[export] Instance ActionFeedback_eq_dec : EqDecision ActionFeedback.
Proof. solve_decision. Defined.
#[export] Instance RemoteRequest_eq_dec : EqDecision RemoteRequest.
Proof. solve_decision. Defined.
#[export] Instance Event_eq_dec : EqDecision Event.
Proof. solve_decision. Defined.

(** The identity of a dispatched action instance: (action_id, plan_id). *)
Definition cmd_key (cmd : ActionDispatch) : Z * Z := (action_id cmd, plan_id cmd).

(** The action instance an event is about, if any. *)
Definition event_key (ev : Event) : option (Z * Z) :=
  match ev with
  | EvPublish _ fb => Some (fb_action_id fb, fb_plan_id fb)
  | EvApplyEffects aid pid _ _ _ | EvRemote aid pid _ => Some (aid, pid)
  | EvLogErr _ | EvShutdown _ => None
  end.

(** The feedback message for [cmd] with status [s]: the field copies of
    [dispatch_callback] (lines 56-59) and of the interfaces. *)
Definition feedback_for (cmd : ActionDispatch) (s : Status) : ActionFeedback :=
  mkActionFeedback (action_id cmd) (plan_id cmd) s.

Definition is_terminal (s : Status) : bool :=
  match s with
  | ACTION_SUCCEEDED_TO_GOAL_STATE | ACTION_FAILED => true
  | _ => false
  end.
