(* ===== verification/Lifecycle.v ===== *)
(** * Lifecycle: the abstract specification of one action instance's life

    Specification sections 3, 4.3, 5 and 8 constrain what an observer sees
    about one dispatched action instance: ACTION_DISPATCHED_TO_GOAL_STATE
    first, then the start effects (index 0), any number of intermediate
    statuses, and exactly one terminal status, SUCCEEDED only after the end
    effects (index 1), FAILED without them.  [lc_step] is that automaton,
    executable; [lifecycle_shape] is the same language written as a list
    pattern, and [lc_run_Idle_Done] shows the two agree. *)

From S2P Require Import Prelude Messages.
From Stdlib Require Import ZArith.

(** What the lifecycle observes of an event about its action instance. *)
Inductive Obs :=
  | ObStatus (s : Status)
  | ObEffects (effect_index : Z).

#[export] Instance Obs_eq_dec : EqDecision Obs.
Proof. solve_decision. Defined.

Definition observe (k : Z * Z) (ev : Event) : option Obs :=
  match ev with
  | EvPublish _ fb =>
      if decide ((fb_action_id fb, fb_plan_id fb) = k) then Some (ObStatus (fb_status fb)) else None
  | EvApplyEffects aid pid _ i _ =>
      if decide ((aid, pid) = k) then Some (ObEffects i) else None
  | _ => None
  end.

Definition observations (k : Z * Z) (tr : list Event) : list Obs := omap (observe k) tr.

Inductive Phase :=
  | Idle | Dispatched | Started | Ending
  | Done (succeeded : bool).

#[export] Instance Phase_eq_dec : EqDecision Phase.
Proof. solve_decision. Defined.

Definition is_intermediate (s : Status) : bool :=
  match s with ACTION_ENABLED | ACTION_PROGRESS _ => true | _ => false end.

Definition lc_step (p : Phase) (o : Obs) : option Phase :=
  match p, o with
  | Idle, ObStatus ACTION_DISPATCHED_TO_GOAL_STATE => Some Dispatched
  | Dispatched, ObEffects 0%Z => Some Started
  | Started, ObStatus s =>
      if is_intermediate s then Some Started
      else if decide (s = ACTION_FAILED) then Some (Done false) else None
  | Started, ObEffects 1%Z => Some Ending
  | Ending, ObStatus ACTION_SUCCEEDED_TO_GOAL_STATE => Some (Done true)
  | _, _ => None
  end.

Fixpoint lc_run (p : Phase) (l : list Obs) : option Phase :=
  match l with
  | [] => Some p
  | o :: l' => lc_step p o ≫= λ q, lc_run q l'
  end.

(** The terminal part of a run started by a strategy. *)
Definition ending (succeeded : bool) : list Obs :=
  if succeeded then [ObEffects 1; ObStatus ACTION_SUCCEEDED_TO_GOAL_STATE]
  else [ObStatus ACTION_FAILED].

(** The declarative form of the specification. *)
Definition lifecycle_shape (l : list Obs) (succeeded : bool) : Prop :=
  ∃ mids, Forall (λ s, is_intermediate s = true) mids ∧
    l = [ObStatus ACTION_DISPATCHED_TO_GOAL_STATE; ObEffects 0]
        ++ map ObStatus mids ++ ending succeeded.

Definition obs_terminal (o : Obs) : bool :=
  match o with ObStatus s => is_terminal s | ObEffects _ => false end.

Definition terminal_count (l : list Obs) : nat :=
  length (filter (λ o, obs_terminal o = true) l).

(** ** Lemmas *)

Lemma lc_run_app p l1 l2 : lc_run p (l1 ++ l2) = lc_run p l1 ≫= λ q, lc_run q l2.
Proof.
  revert p. induction l1 as [|o l1 IH]; intros p; [done|]. simpl.
  destruct (lc_step p o); simpl; [apply IH|done].
Qed.

Lemma lc_step_Done b o : lc_step (Done b) o = None.
Proof. by destruct o. Qed.

Lemma lc_run_Done b l q : lc_run (Done b) l = Some q → l = [] ∧ q = Done b.
Proof. destruct l as [|o l]; [by intros [= <-]|]. cbn [lc_run]. by rewrite lc_step_Done. Qed.

Lemma ending_run b : lc_run Started (ending b) = Some (Done b).
Proof. by destruct b. Qed.

Lemma mids_run mids :
  Forall (λ s, is_intermediate s = true) mids → lc_run Started (map ObStatus mids) = Some Started.
Proof. induction 1 as [|s mids Hs _ IH]; [done|]. simpl. by rewrite Hs. Qed.

(** From [Started], the automaton reads intermediates then an ending. *)
Lemma lc_run_Started_Done l b :
  lc_run Started l = Some (Done b) ↔
  ∃ mids, Forall (λ s, is_intermediate s = true) mids ∧ l = map ObStatus mids ++ ending b.
Proof.
  split.
  - induction l as [|o l IH]; simpl; [done|].
    destruct o as [s|[|[]|]]; simpl; try done.
    + destruct (is_intermediate s) eqn:Hs; simpl.
      * intros (mids & ? & ->)%IH. exists (s :: mids). auto.
      * case_decide; simpl; [|done].
        intros [-> [= ->]]%lc_run_Done. subst. by exists [].
    + destruct l as [|[[]|] [|? ?]]; simpl; try done;
        rewrite ?lc_step_Done; try done. intros [= <-]. by exists [].
  - intros (mids & Hm & ->). rewrite lc_run_app, mids_run by done.
    apply ending_run.
Qed.

Lemma lc_run_Idle_Done l b : lc_run Idle l = Some (Done b) ↔ lifecycle_shape l b.
Proof.
  unfold lifecycle_shape. split.
  - destruct l as [|[[]|] [|[|[|[]|]] l]]; simpl; try done.
    intros (mids & ? & ->)%lc_run_Started_Done. eauto.
  - intros (mids & Hm & ->). simpl. apply lc_run_Started_Done. eauto.
Qed.

Lemma terminal_count_app l1 l2 : terminal_count (l1 ++ l2) = terminal_count l1 + terminal_count l2.
Proof. unfold terminal_count. by rewrite filter_app, length_app. Qed.

Lemma terminal_count_mids mids :
  Forall (λ s, is_intermediate s = true) mids → terminal_count (map ObStatus mids) = 0.
Proof.
  induction 1 as [|s mids Hs _ IH]; [done|]. unfold terminal_count in *. simpl.
  rewrite filter_cons_False; [done|]. by destruct s.
Qed.

#[export] Hint Resolve ending_run mids_run : aim.
#[export] Hint Rewrite lc_run_app terminal_count_app : aim.

(** A complete lifecycle has exactly one terminal status, and it is the
    last observation. *)
Lemma lifecycle_shape_terminal l b :
  lifecycle_shape l b →
  terminal_count l = 1 ∧
  last l = Some (ObStatus (if b then ACTION_SUCCEEDED_TO_GOAL_STATE else ACTION_FAILED)).
Proof.
  intros (mids & Hm & ->). split.
  - rewrite !terminal_count_app, terminal_count_mids by done. by destruct b.
  - rewrite !app_assoc, last_app. by destruct b.
Qed.
