(* ===== verification/KnowledgeBase.v ===== *)
(** * KnowledgeBase: the link to the knowledge base (RPKnowledgeBaseLink)

    The manager and the interfaces call one operation of the link,
    [kb_apply_action_effects(msg, effect_time)] with [effect_time] 0 for the
    start effects and 1 for the end effects (specification section 6).  Its
    implementation is not under [src/]; it is modelled from the
    specification as a black box with a success outcome: the typeclass
    [KnowledgeBase].  [FactKB] is one implementation, a set of ground facts
    updated by the add and delete lists of the action's operator, which
    fails when the operator or a parameter is unknown; [fact_delta] is
    what one application adds and deletes, [touched] every fact the
    effects of a command may touch, and applications with disjoint deltas
    commute. *)

From S2P Require Import Prelude Messages.
From Stdlib Require Import ZArith.

Class KnowledgeBase (K : Type) :=
  kb_apply_action_effects : ActionDispatch → Z → K → bool * K.

(** A link whose update is atomic: an application that fails changes
    nothing (the specification leaves this to the store, section 5). *)
Class KnowledgeBaseAtomic (K : Type) `{!KnowledgeBase K} :=
  kb_apply_fail_unchanged : ∀ cmd i kb,
    (kb_apply_action_effects cmd i kb).1 = false → (kb_apply_action_effects cmd i kb).2 = kb.

(** ** A fact store *)

(** A predicate applied to the keys of the action's parameters. *)
Record Atom := mkAtom { atom_pred : string; atom_args : list string }.

Record Operator := mkOperator {
  op_start_add : list Atom; op_start_del : list Atom;
  op_end_add : list Atom; op_end_del : list Atom
}.

Definition Fact := (string * list string)%type.

Record FactKB := mkFactKB {
  kb_facts : gset Fact;
  kb_domain : gmap string Operator
}.

(** The value bound to a parameter key in a dispatch message (first match). *)
Definition param_value (ps : list KeyValue) (k : string) : option string :=
  (λ ikv : nat * KeyValue, kv_value ikv.2) <$> list_find (λ kv, kv_key kv = k) ps.

Definition ground (ps : list KeyValue) (a : Atom) : option Fact :=
  args ← mapM (param_value ps) (atom_args a); Some (atom_pred a, args).

Definition ground_all (ps : list KeyValue) (atoms : list Atom) : option (gset Fact) :=
  facts ← mapM (ground ps) atoms; Some (list_to_set facts).

Definition effect_lists (op : Operator) (effect_time : Z) : option (list Atom * list Atom) :=
  if decide (effect_time = 0%Z) then Some (op_start_add op, op_start_del op)
  else if decide (effect_time = 1%Z) then Some (op_end_add op, op_end_del op)
  else None.

Definition fact_apply (msg : ActionDispatch) (effect_time : Z) (kb : FactKB) : bool * FactKB :=
  match kb_domain kb !! name msg ≫= λ op, effect_lists op effect_time with
  | None => (false, kb)
  | Some (adds, dels) =>
      match ground_all (parameters msg) adds, ground_all (parameters msg) dels with
      | Some a, Some d => (true, mkFactKB ((kb_facts kb ∖ d) ∪ a) (kb_domain kb))
      | _, _ => (false, kb)
      end
  end.

#[export] Instance FactKB_KnowledgeBase : KnowledgeBase FactKB := fact_apply.

Lemma fact_apply_domain msg i kb : kb_domain (fact_apply msg i kb).2 = kb_domain kb.
Proof. unfold fact_apply. by repeat case_match. Qed.

Lemma fact_apply_fail_unchanged msg i kb : (fact_apply msg i kb).1 = false → (fact_apply msg i kb).2 = kb.
Proof. unfold fact_apply. by repeat case_match. Qed.

#[export] Instance FactKB_atomic : KnowledgeBaseAtomic FactKB := fact_apply_fail_unchanged.

(** ** What one application adds and deletes *)

(** The facts an application adds and deletes, if it succeeds: they depend
    on the domain and the message only, not on the facts. *)
Definition fact_delta (dom : gmap string Operator) (msg : ActionDispatch) (effect_time : Z) :
    option (gset Fact * gset Fact) :=
  '(adds, dels) ← dom !! name msg ≫= λ op, effect_lists op effect_time;
  a ← ground_all (parameters msg) adds;
  d ← ground_all (parameters msg) dels;
  Some (a, d).

(** Every fact an application of the effects of [msg] may touch. *)
Definition touched (dom : gmap string Operator) (msg : ActionDispatch) : gset Fact :=
  match dom !! name msg with
  | None => ∅
  | Some op =>
      let g l := from_option id ∅ (ground_all (parameters msg) l) in
      g (op_start_add op) ∪ g (op_start_del op) ∪ g (op_end_add op) ∪ g (op_end_del op)
  end.

Lemma fact_apply_delta msg i kb :
  fact_apply msg i kb =
    match fact_delta (kb_domain kb) msg i with
    | None => (false, kb)
    | Some (a, d) => (true, mkFactKB ((kb_facts kb ∖ d) ∪ a) (kb_domain kb))
    end.
Proof.
  unfold fact_apply, fact_delta.
  destruct (kb_domain kb !! name msg ≫= _) as [[adds dels]|]; simpl; [|done].
  by destruct (ground_all _ adds), (ground_all _ dels).
Qed.

Lemma fact_delta_touched dom msg i a d : fact_delta dom msg i = Some (a, d) → a ∪ d ⊆ touched dom msg.
Proof.
  unfold fact_delta, touched. destruct (dom !! name msg) as [op|]; simpl; [|done].
  unfold effect_lists. case_decide; [|case_decide]; simpl; [| |done].
  - destruct (ground_all _ (op_start_add op)) as [ga|] eqn:Ha; simpl; [|done].
    destruct (ground_all _ (op_start_del op)) as [gd|] eqn:Hd; simpl; [|done].
    intros [= <- <-]. simpl. set_solver.
  - destruct (ground_all _ (op_end_add op)) as [ga|] eqn:Ha; simpl; [|done].
    destruct (ground_all _ (op_end_del op)) as [gd|] eqn:Hd; simpl; [|done].
    intros [= <- <-]. simpl. set_solver.
Qed.

(** Applications whose deltas are disjoint commute. *)
Lemma fact_apply_commute c1 i1 c2 i2 kb :
  (∀ a1 d1 a2 d2, fact_delta (kb_domain kb) c1 i1 = Some (a1, d1) →
     fact_delta (kb_domain kb) c2 i2 = Some (a2, d2) → (a1 ∪ d1) ## (a2 ∪ d2)) →
  (fact_apply c1 i1 (fact_apply c2 i2 kb).2).2 = (fact_apply c2 i2 (fact_apply c1 i1 kb).2).2.
Proof.
  intros Hdis. rewrite !(fact_apply_delta _ _ kb).
  destruct (fact_delta (kb_domain kb) c2 i2) as [[a2 d2]|] eqn:H2,
           (fact_delta (kb_domain kb) c1 i1) as [[a1 d1]|] eqn:H1;
    simpl; rewrite !fact_apply_delta; simpl; rewrite ?H1, ?H2; try done.
  specialize (Hdis _ _ _ _ eq_refl eq_refl). simpl. f_equal. apply leibniz_equiv. set_solver.
Qed.
