(* ===== verification/World.v ===== *)
(** * World: what the manager and the interfaces act on

    [World K] is the knowledge base (of a type [K] with a [KnowledgeBase]
    instance) and the trace of observable events, in order.  The primitive
    effects are [emit] (one event), [publish] (rospy [Publisher.publish]),
    [apply_effects] (the knowledge-base link's [kb_apply_action_effects],
    whose result the caller may ignore) and [remote] (a request to a remote
    actor).  [emits m w new] says that running [m] from [w] appends exactly
    [new] to the trace; [logs cmd m w new] adds that the knowledge base
    changed only as replaying the effect applications of [cmd] recorded in
    [new] ([kb_replay]) changes it.  The lemmas compute both
    compositionally. *)

From S2P Require Import Prelude Messages Lifecycle KnowledgeBase.
From Stdlib Require Import ZArith.

Record World (K : Type) := mkWorld { w_kb : K; w_trace : list Event }.
Arguments mkWorld {K} _ _.
Arguments w_kb {K} _.
Arguments w_trace {K} _.

Section World.
Context {K : Type} `{!KnowledgeBase K}.

Definition emit (ev : Event) : St (World K) unit :=
  do! (λ w, mkWorld (w_kb w) (w_trace w ++ [ev])).

Definition publish (topic : string) (fb : ActionFeedback) : St (World K) unit :=
  emit (EvPublish topic fb).

Definition remote (cmd : ActionDispatch) (req : RemoteRequest) : St (World K) unit :=
  emit (EvRemote (action_id cmd) (plan_id cmd) req).

Definition apply_effects (cmd : ActionDispatch) (effect_time : Z) : St (World K) bool :=
  λ w, let '(ok, kb') := kb_apply_action_effects cmd effect_time (w_kb w) in
       (ok, mkWorld kb' (w_trace w ++ [EvApplyEffects (action_id cmd) (plan_id cmd) (name cmd) effect_time ok])).

(** The result flag of an effect application from [w]. *)
Definition apply_ok (cmd : ActionDispatch) (effect_time : Z) (w : World K) : bool :=
  (kb_apply_action_effects cmd effect_time (w_kb w)).1.

Definition emits {A} (m : St (World K) A) (w : World K) (new : list Event) : Prop :=
  w_trace (exec m w) = w_trace w ++ new.

Lemma emits_ret {A} (x : A) w : emits (mret x) w [].
Proof. unfold emits. by rewrite exec_ret, app_nil_r. Qed.

Lemma emits_emit ev w : emits (emit ev) w [ev].
Proof. done. Qed.

Lemma emits_publish t fb w : emits (publish t fb) w [EvPublish t fb].
Proof. done. Qed.

Lemma emits_remote cmd r w : emits (remote cmd r) w [EvRemote (action_id cmd) (plan_id cmd) r].
Proof. done. Qed.

Lemma emits_apply cmd i w :
  emits (apply_effects cmd i) w [EvApplyEffects (action_id cmd) (plan_id cmd) (name cmd) i (apply_ok cmd i w)].
Proof. unfold emits, exec, apply_effects, apply_ok. by destruct (kb_apply_action_effects _ _ _). Qed.

Lemma emits_bind {A B} (m : St (World K) A) (f : A → St (World K) B) w l1 l2 :
  emits m w l1 → emits (f (fst (m w))) (exec m w) l2 → emits (m ≫= f) w (l1 ++ l2).
Proof. unfold emits. intros H1 H2. by rewrite exec_bind, H2, H1, app_assoc. Qed.

Lemma emits_bind_cons {A B} (m : St (World K) A) (f : A → St (World K) B) w ev l :
  emits m w [ev] → emits (f (fst (m w))) (exec m w) l → emits (m ≫= f) w (ev :: l).
Proof. apply (emits_bind _ _ _ [ev] l). Qed.

Lemma emits_fun {A} (m : St (World K) A) w l1 l2 : emits m w l1 → emits m w l2 → l1 = l2.
Proof. unfold emits. intros -> ?. by eapply app_inv_head. Qed.

(** ** The knowledge base follows the logged effect applications *)

(** The knowledge base obtained by applying, in order, the effects of
    [cmd] that the events [l] record. *)
Fixpoint kb_replay (cmd : ActionDispatch) (l : list Event) (kb : K) : K :=
  match l with
  | [] => kb
  | EvApplyEffects _ _ _ i _ :: l' => kb_replay cmd l' (kb_apply_action_effects cmd i kb).2
  | _ :: l' => kb_replay cmd l' kb
  end.

Lemma kb_replay_app cmd l1 l2 kb : kb_replay cmd (l1 ++ l2) kb = kb_replay cmd l2 (kb_replay cmd l1 kb).
Proof. revert kb. induction l1 as [|[] l1 IH]; intros kb; simpl; auto. Qed.

(** The knowledge base obtained by applying the effects the lifecycle
    observations [l] record, in order. *)
Fixpoint obs_replay (cmd : ActionDispatch) (l : list Obs) (kb : K) : K :=
  match l with
  | [] => kb
  | ObEffects i :: l' => obs_replay cmd l' (kb_apply_action_effects cmd i kb).2
  | ObStatus _ :: l' => obs_replay cmd l' kb
  end.

Lemma obs_replay_app cmd l1 l2 kb : obs_replay cmd (l1 ++ l2) kb = obs_replay cmd l2 (obs_replay cmd l1 kb).
Proof. revert kb. induction l1 as [|[] l1 IH]; intros kb; simpl; auto. Qed.

(** Running [m] for [cmd] from [w] appends [new], and changes the knowledge
    base only by the effect applications [new] records. *)
Definition logs (cmd : ActionDispatch) {A} (m : St (World K) A) (w : World K) (new : list Event) : Prop :=
  emits m w new ∧ w_kb (exec m w) = kb_replay cmd new (w_kb w).

Lemma logs_ret cmd {A} (x : A) w : logs cmd (mret x) w [].
Proof. split; [apply emits_ret|done]. Qed.

Lemma logs_publish cmd t fb w : logs cmd (publish t fb) w [EvPublish t fb].
Proof. done. Qed.

Lemma logs_remote cmd c r w : logs cmd (remote c r) w [EvRemote (action_id c) (plan_id c) r].
Proof. done. Qed.

Lemma logs_apply cmd i w :
  logs cmd (apply_effects cmd i) w [EvApplyEffects (action_id cmd) (plan_id cmd) (name cmd) i (apply_ok cmd i w)].
Proof.
  split; [apply emits_apply|]. unfold exec, apply_effects. simpl.
  by destruct (kb_apply_action_effects cmd i (w_kb w)).
Qed.

Lemma logs_bind_cons cmd {A B} (m : St (World K) A) (f : A → St (World K) B) w ev l :
  logs cmd m w [ev] → logs cmd (f (fst (m w))) (exec m w) l → logs cmd (m ≫= f) w (ev :: l).
Proof.
  intros [H1 K1] [H2 K2]. split; [by apply emits_bind_cons|].
  by rewrite exec_bind, K2, K1, <- kb_replay_app.
Qed.

End World.

(** An event is about the action instance [k]. *)
Definition about (k : Z * Z) (ev : Event) : Prop := event_key ev = Some k.

(** On events about [cmd], replaying the trace is replaying what the
    lifecycle observes of it. *)
Lemma kb_replay_observations {K} `{!KnowledgeBase K} cmd l (kb : K) :
  Forall (about (cmd_key cmd)) l → kb_replay cmd l kb = obs_replay cmd (observations (cmd_key cmd) l) kb.
Proof.
  intros Hab. revert kb. induction Hab as [|e l He _ IH]; intros kb; [done|].
  unfold about in He. destruct e; simpl in *; simplify_eq; unfold observations; simpl.
  - rewrite decide_True by done. apply IH.
  - rewrite decide_True by done. apply IH.
  - apply IH.
Qed.

Lemma observations_app k l1 l2 : observations k (l1 ++ l2) = observations k l1 ++ observations k l2.
Proof. apply omap_app. Qed.

Lemma observations_feedback cmd t s l :
  observations (cmd_key cmd) (EvPublish t (feedback_for cmd s) :: l) =
  ObStatus s :: observations (cmd_key cmd) l.
Proof. unfold observations. simpl. by rewrite decide_True. Qed.

Lemma observations_apply cmd i ok l :
  observations (cmd_key cmd) (EvApplyEffects (action_id cmd) (plan_id cmd) (name cmd) i ok :: l) =
  ObEffects i :: observations (cmd_key cmd) l.
Proof. unfold observations. simpl. by rewrite decide_True. Qed.

Lemma observations_remote k aid pid r l :
  observations k (EvRemote aid pid r :: l) = observations k l.
Proof. done. Qed.

Lemma observations_nil k : observations k [] = [].
Proof. done. Qed.

#[export] Hint Resolve emits_ret emits_emit emits_publish emits_remote emits_apply : aim.
#[export] Hint Rewrite observations_app observations_feedback observations_apply
  observations_remote observations_nil : aim.

(** Close an [emits] goal for a straight-line composition. *)
Ltac solve_emits :=
  cbn beta iota;
  repeat (eapply emits_bind_cons; [solve [eauto with aim]|]; cbn beta iota);
  solve [eauto with aim].

#[export] Hint Resolve logs_ret logs_publish logs_remote logs_apply : aim.

(** Close a [logs] goal for a straight-line composition. *)
Ltac solve_logs :=
  cbn beta iota;
  repeat (eapply logs_bind_cons; [solve [eauto with aim]|]; cbn beta iota);
  solve [eauto with aim].
