(* ===== verification/Strategy.v ===== *)
(** * Strategy: the contract of an action interface (ExecutionStrategy)

    Every interface class ([BaseActionInterface] and its subclasses, not
    under [src/]) offers [get_action_name()] and [run(msg)] and publishes on
    the feedback publisher it was built with.  The typeclass
    [ExecutionStrategy] states this interface and the contract of
    specification section 4.3 as a law, [run_contract]: [run] only appends
    events about its own action instance, publishes only on its own topic,
    changes the knowledge base only by the effect applications of its
    command that it records in the trace, and the statuses and effect
    applications it appends take the lifecycle automaton from [Started]
    (start effects applied by the manager) to a terminal phase.  The manager's theorems are proved against this class;
    each variant discharges it.

    [Env] is the part of the outside world the interfaces consult and the
    model does not control: the answer of a service, the status stream of an
    action server (one status per clock tick), the outcome of a state
    machine state's action. *)

From S2P Require Import Prelude Messages Lifecycle KnowledgeBase World.
From Stdlib Require Import ZArith.

(** What an actionlib interface learns at one tick: the status its server
    reports ([RPending] for a tick without news), or [RCancelRequest], a
    request to cancel the goal from outside the manager (specification
    4.3 and 5: cancellation is delivered out of band, per command). *)
Inductive RemoteStatus :=
  | RPending | RActive | RFeedback (label : string)
  | RSucceeded | RAborted | RRejected | RPreempted
  | RCancelRequest.

Record Env := mkEnv {
  env_service : string → ActionDispatch → option bool;
  env_actionlib : string → ActionDispatch → list RemoteStatus;
  env_fsm : string → ActionDispatch → string
}.

(** Publications of [ev], if any, go to [topic]. *)
Definition on_topic (topic : string) (ev : Event) : Prop :=
  match ev with EvPublish t _ => t = topic | _ => True end.

(** What one run of an interface may append to the trace. *)
Definition run_spec (k : Z * Z) (topic : string) (new : list Event) (succeeded : bool) : Prop :=
  Forall (about k) new ∧ Forall (on_topic topic) new ∧
  lc_run Started (observations k new) = Some (Done succeeded).

(** Running [m] from [w] appends events that satisfy [run_spec], and
    changes the knowledge base only by the effect applications of [cmd]
    they record. *)
Definition strategy_ok {K} `{!KnowledgeBase K} (cmd : ActionDispatch) (topic : string)
    {A} (m : St (World K) A) (w : World K) : Prop :=
  ∃ new b, logs cmd m w new ∧ run_spec (cmd_key cmd) topic new b.

Class ExecutionStrategy (S : Type) := {
  get_action_name : S → string;
  feedback_topic : S → string;
  run : ∀ {K} `{!KnowledgeBase K}, Env → S → ActionDispatch → St (World K) unit;
  run_contract : ∀ K `{!KnowledgeBase K} env s cmd (w : World K),
    strategy_ok cmd (feedback_topic s) (run env s cmd) w
}.

(** ** Lemmas to discharge [run_spec] *)

Lemma run_spec_intro k topic new b :
  Forall (about k) new → Forall (on_topic topic) new →
  lc_run Started (observations k new) = Some (Done b) → run_spec k topic new b.
Proof. by repeat split. Qed.

Lemma about_feedback cmd t s : about (cmd_key cmd) (EvPublish t (feedback_for cmd s)).
Proof. done. Qed.
Lemma about_apply cmd i ok : about (cmd_key cmd) (EvApplyEffects (action_id cmd) (plan_id cmd) (name cmd) i ok).
Proof. done. Qed.
Lemma about_remote cmd r : about (cmd_key cmd) (EvRemote (action_id cmd) (plan_id cmd) r).
Proof. done. Qed.
Lemma on_topic_feedback t fb : on_topic t (EvPublish t fb).
Proof. done. Qed.
Lemma on_topic_apply t aid pid op i ok : on_topic t (EvApplyEffects aid pid op i ok).
Proof. done. Qed.
Lemma on_topic_remote t aid pid r : on_topic t (EvRemote aid pid r).
Proof. done. Qed.

#[export] Hint Resolve about_feedback about_apply about_remote
  on_topic_feedback on_topic_apply on_topic_remote : aim.
#[export] Hint Constructors Forall : aim.

(** Compute the observations of a concrete list of own events. *)
Ltac simpl_obs := autorewrite with aim; simpl.

(** A run that satisfies the contract publishes a terminal status for its
    action on its topic. *)
Lemma run_spec_terminal_published k t new b :
  run_spec k t new b →
  ∃ fb, EvPublish t fb ∈ new ∧ is_terminal (fb_status fb) = true ∧ (fb_action_id fb, fb_plan_id fb) = k.
Proof.
  intros (_ & Htop & Hlc). apply lc_run_Started_Done in Hlc as (mids & _ & Hobs).
  set (s := if b then ACTION_SUCCEEDED_TO_GOAL_STATE else ACTION_FAILED).
  assert (ObStatus s ∈ observations k new) as Hin.
  { rewrite Hobs. apply elem_of_app. right. unfold s. destruct b; set_solver. }
  apply list_elem_of_omap in Hin as (ev & Hev & Hob).
  destruct ev as [t' fb| | | |]; simpl in Hob; try case_decide as Hk; simplify_eq.
  rewrite Forall_forall in Htop. specialize (Htop _ Hev). simpl in Htop. subst t'.
  exists fb. split_and!; [done| |done].
  destruct fb as [? ? st]; simpl in *. simplify_eq. by destruct b.
Qed.

(** A run that fails ends with ACTION_FAILED and never applies the end
    effects. *)
Lemma run_spec_failed_shape k t new :
  run_spec k t new false →
  last (observations k new) = Some (ObStatus ACTION_FAILED) ∧ ObEffects 1 ∉ observations k new.
Proof.
  intros (_ & _ & Hlc). apply lc_run_Started_Done in Hlc as (mids & _ & ->). simpl.
  split; [by rewrite last_snoc|]. rewrite elem_of_app, list_elem_of_fmap, list_elem_of_singleton.
  intros [(s & ? & _)|?]; discriminate.
Qed.

(** A run satisfying the contract applies the end effects of its command
    exactly when it succeeds, and no other effects. *)
Lemma run_spec_kb {K} `{!KnowledgeBase K} cmd t new b (kb : K) :
  run_spec (cmd_key cmd) t new b →
  kb_replay cmd new kb = if b then (kb_apply_action_effects cmd 1 kb).2 else kb.
Proof.
  intros (Hab & _ & Hlc). rewrite kb_replay_observations by done.
  apply lc_run_Started_Done in Hlc as (mids & _ & ->). rewrite obs_replay_app.
  assert (Hm : ∀ kb', obs_replay cmd (map ObStatus mids) kb' = kb') by (induction mids; simpl; auto).
  rewrite Hm. by destruct b.
Qed.

Section RunSpec.
Context (cmd : ActionDispatch) (t : string).

Lemma run_spec_remote r new b :
  run_spec (cmd_key cmd) t new b →
  run_spec (cmd_key cmd) t (EvRemote (action_id cmd) (plan_id cmd) r :: new) b.
Proof. intros (? & ? & ?). repeat split; auto with aim. Qed.

Lemma run_spec_progress s new b :
  is_intermediate s = true → run_spec (cmd_key cmd) t new b →
  run_spec (cmd_key cmd) t (EvPublish t (feedback_for cmd s) :: new) b.
Proof.
  intros Hs (? & ? & Hrun). repeat split; auto with aim.
  rewrite observations_feedback. simpl. by rewrite Hs.
Qed.

Lemma run_spec_failed : run_spec (cmd_key cmd) t [EvPublish t (feedback_for cmd ACTION_FAILED)] false.
Proof. apply run_spec_intro; auto with aim. by simpl_obs. Qed.

Lemma run_spec_succeeded ok :
  run_spec (cmd_key cmd) t
    [EvApplyEffects (action_id cmd) (plan_id cmd) (name cmd) 1 ok;
     EvPublish t (feedback_for cmd ACTION_SUCCEEDED_TO_GOAL_STATE)] true.
Proof. apply run_spec_intro; auto with aim. by simpl_obs. Qed.

End RunSpec.

#[export] Hint Resolve run_spec_remote run_spec_progress run_spec_failed run_spec_succeeded : aim.

Section StrategyOk.
Context {K : Type} `{!KnowledgeBase K} (cmd : ActionDispatch) (t : string).

Lemma strategy_ok_progress s (m : St (World K) unit) w :
  is_intermediate s = true →
  strategy_ok cmd t m (exec (publish t (feedback_for cmd s)) w) →
  strategy_ok cmd t (publish t (feedback_for cmd s) ;; m) w.
Proof.
  intros Hs (new & b & Hem & Hspec). exists (EvPublish t (feedback_for cmd s) :: new), b.
  split; [eapply logs_bind_cons; [apply logs_publish|exact Hem]|auto with aim].
Qed.

Lemma strategy_ok_remote r {A} (m : St (World K) A) w :
  strategy_ok cmd t m (exec (remote cmd r) w) →
  strategy_ok cmd t (remote cmd r ;; m) w.
Proof.
  intros (new & b & Hem & Hspec). exists (EvRemote (action_id cmd) (plan_id cmd) r :: new), b.
  split; [eapply logs_bind_cons; [apply logs_remote|exact Hem]|auto with aim].
Qed.

Lemma strategy_ok_failed w : strategy_ok cmd t (publish t (feedback_for cmd ACTION_FAILED)) w.
Proof. eexists _, _. split; [apply logs_publish|apply run_spec_failed]. Qed.

Lemma strategy_ok_succeeded w :
  strategy_ok cmd t
    (_ ← apply_effects cmd 1; publish t (feedback_for cmd ACTION_SUCCEEDED_TO_GOAL_STATE)) w.
Proof. eexists _, _. split; [solve_logs|apply run_spec_succeeded]. Qed.

End StrategyOk.

#[export] Hint Resolve strategy_ok_failed strategy_ok_succeeded : aim.
