(* ===== verification/ServiceAI.v ===== *)
(** * ServiceAI: the service action interface (ServiceActionInterface)

    Specification section 4.3, SynchronousCallStrategy (the class is not
    under [src/]): one blocking service call; on success the end effects
    (index 1) are applied and ACTION_SUCCEEDED_TO_GOAL_STATE is published,
    on a failed call (transport error, time-out, or a response reporting
    failure) ACTION_FAILED is published and no end effects are applied.
    No intermediate feedback. *)

From S2P Require Import Prelude Messages Lifecycle KnowledgeBase World Strategy.
From Stdlib Require Import ZArith.

Record ServiceAI := mkServiceAI {
  srv_action_name : string;
  srv_service : string;
  srv_topic : string
}.

Section Run.
Context {K : Type} `{!KnowledgeBase K}.

Definition service_run (env : Env) (ai : ServiceAI) (cmd : ActionDispatch) : St (World K) unit :=
  remote cmd (ReqCall (srv_service ai)) ;;
  match env_service env (srv_service ai) cmd with
  | Some true =>
      _ ← apply_effects cmd 1;
      publish (srv_topic ai) (feedback_for cmd ACTION_SUCCEEDED_TO_GOAL_STATE)
  | _ => publish (srv_topic ai) (feedback_for cmd ACTION_FAILED)
  end.

(** The events one call appends: the request, then either the end effects
    and SUCCEEDED, or FAILED. *)
Definition service_events (env : Env) (ai : ServiceAI) (cmd : ActionDispatch) (w : World K) : list Event :=
  EvRemote (action_id cmd) (plan_id cmd) (ReqCall (srv_service ai)) ::
  match env_service env (srv_service ai) cmd with
  | Some true =>
      [EvApplyEffects (action_id cmd) (plan_id cmd) (name cmd) 1
         (apply_ok cmd 1 (exec (remote cmd (ReqCall (srv_service ai))) w));
       EvPublish (srv_topic ai) (feedback_for cmd ACTION_SUCCEEDED_TO_GOAL_STATE)]
  | _ => [EvPublish (srv_topic ai) (feedback_for cmd ACTION_FAILED)]
  end.

Lemma service_run_emits env ai cmd w : emits (service_run env ai cmd) w (service_events env ai cmd w).
Proof.
  unfold service_run, service_events. destruct (env_service env _ cmd) as [[]|]; solve_emits.
Qed.

(** One service call: on a successful response the end effects are
    applied strictly before ACTION_SUCCEEDED_TO_GOAL_STATE is published;
    on any other outcome (transport failure, time-out, failure response)
    ACTION_FAILED is published and no end effects are applied. *)
Theorem service_run_outcome env ai cmd (w : World K) new :
  emits (service_run env ai cmd) w new →
  ∃ ok, new = EvRemote (action_id cmd) (plan_id cmd) (ReqCall (srv_service ai)) ::
    if bool_decide (env_service env (srv_service ai) cmd = Some true)
    then [EvApplyEffects (action_id cmd) (plan_id cmd) (name cmd) 1 ok;
          EvPublish (srv_topic ai) (feedback_for cmd ACTION_SUCCEEDED_TO_GOAL_STATE)]
    else [EvPublish (srv_topic ai) (feedback_for cmd ACTION_FAILED)].
Proof.
  intros Hem. rewrite (emits_fun _ _ _ _ Hem (service_run_emits env ai cmd w)).
  unfold service_events. eexists.
  destruct (env_service env _ cmd) as [[]|]; simpl; done.
Qed.

End Run.

Lemma service_run_contract K `{!KnowledgeBase K} env ai cmd (w : World K) :
  strategy_ok cmd (srv_topic ai) (service_run env ai cmd) w.
Proof.
  apply strategy_ok_remote. by destruct (env_service env (srv_service ai) cmd) as [[]|]; auto with aim.
Qed.

#[export] Instance ServiceAI_strategy : ExecutionStrategy ServiceAI := {|
  get_action_name := srv_action_name;
  feedback_topic := srv_topic;
  run := λ K _, service_run;
  run_contract := service_run_contract
|}.
