(* ===== verification/ActionlibAI.v ===== *)
(** * ActionlibAI: the actionlib action interface (ActionlibActionInterface)

    Specification section 4.3, RemoteProcedureStrategy (the class is not
    under [src/]): the dispatched action is sent as a goal to an action
    server; what happens to the goal is read one tick at a time for at most
    [al_timeout] ticks.  ACTIVE is reported as ACTION_ENABLED and feedback
    as an intermediate status; SUCCEEDED applies the end effects and
    publishes ACTION_SUCCEEDED_TO_GOAL_STATE; ABORTED, REJECTED and
    PREEMPTED publish ACTION_FAILED; when the time-out elapses the goal is
    cancelled and ACTION_FAILED is published.  A cancellation requested
    from outside ([RCancelRequest]) sends a cancel request to the server
    once, and the run goes on waiting for the server's acknowledgement (its
    final status), on which it publishes ACTION_FAILED, whatever that
    status is.  The fuel of [actionlib_wait] is the time-out itself;
    [actionlib_result] is the outcome of a run. *)

From S2P Require Import Prelude Messages Lifecycle KnowledgeBase World Strategy.
From Stdlib Require Import ZArith.

Record ActionlibAI := mkActionlibAI {
  al_action_name : string;
  al_server : string;
  al_timeout : nat;
  al_topic : string
}.

(** Statuses after which the server sends nothing more for the goal. *)
Definition remote_terminal (r : RemoteStatus) : bool :=
  match r with RSucceeded | RAborted | RRejected | RPreempted => true | _ => false end.

(** Ticks that neither end the goal nor ask to cancel it. *)
Definition remote_quiet (r : RemoteStatus) : bool :=
  match r with RPending | RActive | RFeedback _ => true | _ => false end.

(** An intermediate status published by the interface. *)
Definition progress_event (topic : string) (cmd : ActionDispatch) (ev : Event) : Prop :=
  ∃ s, ev = EvPublish topic (feedback_for cmd s) ∧ is_intermediate s = true.

(** Whether a run waiting [ticks] more ticks on [rs], the goal already
    cancelled or not, ends in success. *)
Fixpoint actionlib_result (ticks : nat) (cancelled : bool) (rs : list RemoteStatus) : bool :=
  match ticks with
  | 0 => false
  | S ticks' =>
      match rs with
      | [] => actionlib_result ticks' cancelled []
      | r :: rs' =>
          match r with
          | RPending | RActive | RFeedback _ => actionlib_result ticks' cancelled rs'
          | RCancelRequest => actionlib_result ticks' true rs'
          | RSucceeded => negb cancelled
          | RAborted | RRejected | RPreempted => false
          end
      end
  end.

Section Run.
Context {K : Type} `{!KnowledgeBase K}.
Context (ai : ActionlibAI) (cmd : ActionDispatch).

Definition fail_feedback : St (World K) unit :=
  publish (al_topic ai) (feedback_for cmd ACTION_FAILED).

Fixpoint actionlib_wait (ticks : nat) (cancelled : bool) (rs : list RemoteStatus) : St (World K) unit :=
  match ticks with
  | 0 => remote cmd (ReqCancel (al_server ai)) ;; fail_feedback
  | S ticks' =>
      match rs with
      | [] => actionlib_wait ticks' cancelled []
      | r :: rs' =>
          match r with
          | RPending => actionlib_wait ticks' cancelled rs'
          | RActive =>
              publish (al_topic ai) (feedback_for cmd ACTION_ENABLED) ;; actionlib_wait ticks' cancelled rs'
          | RFeedback l =>
              publish (al_topic ai) (feedback_for cmd (ACTION_PROGRESS l)) ;;
              actionlib_wait ticks' cancelled rs'
          | RCancelRequest =>
              if cancelled then actionlib_wait ticks' true rs'
              else remote cmd (ReqCancel (al_server ai)) ;; actionlib_wait ticks' true rs'
          | RSucceeded =>
              if cancelled then fail_feedback
              else
                _ ← apply_effects cmd 1;
                publish (al_topic ai) (feedback_for cmd ACTION_SUCCEEDED_TO_GOAL_STATE)
          | RAborted | RRejected | RPreempted => fail_feedback
          end
      end
  end.

Definition actionlib_run (env : Env) : St (World K) unit :=
  remote cmd (ReqGoal (al_server ai)) ;;
  actionlib_wait (al_timeout ai) false (env_actionlib env (al_server ai) cmd).

(** The run satisfies the interface contract and ends as [actionlib_result]
    says. *)
Lemma actionlib_wait_spec ticks c rs (w : World K) :
  ∃ new, logs cmd (actionlib_wait ticks c rs) w new ∧
    run_spec (cmd_key cmd) (al_topic ai) new (actionlib_result ticks c rs).
Proof.
  revert c rs w. induction ticks as [|ticks IH]; intros c rs w; simpl.
  { eexists. split; [solve_logs|auto with aim]. }
  destruct rs as [|r rs]; [apply IH|].
  destruct r; try destruct c; simpl; try (eexists; split; [solve_logs|auto with aim]); try apply IH;
    match goal with
    | |- ∃ _, logs _ (?m ;; actionlib_wait ?t ?c' ?rs') ?w _ ∧ _ =>
        destruct (IH c' rs' (exec m w)) as (new & Hem & Hspec);
        eexists; split; [eapply logs_bind_cons; [eauto with aim|exact Hem]|auto with aim]
    end.
Qed.

(** Statuses arriving after the time-out are never read: the run
    depends only on the first [ticks] statuses of the server. *)
Lemma actionlib_wait_take ticks c rs : actionlib_wait ticks c rs = actionlib_wait ticks c (take ticks rs).
Proof.
  revert c rs. induction ticks as [|ticks IH]; intros c rs; [done|].
  destruct rs as [|[] rs]; simpl; rewrite ?(IH _ rs); try done.
Qed.

Lemma actionlib_wait_timeout_events ticks c rs (w : World K) :
  Forall (λ r, remote_quiet r = true) (take ticks rs) →
  ∃ mids, Forall (progress_event (al_topic ai) cmd) mids ∧
    emits (actionlib_wait ticks c rs) w
      (mids ++ [EvRemote (action_id cmd) (plan_id cmd) (ReqCancel (al_server ai));
                EvPublish (al_topic ai) (feedback_for cmd ACTION_FAILED)]).
Proof.
  revert rs w. induction ticks as [|ticks IH]; intros rs w Hnt.
  { exists []. split; [done|]. simpl. solve_emits. }
  destruct rs as [|r rs]; simpl in Hnt |- *.
  { apply (IH [] w). by rewrite take_nil. }
  apply Forall_cons in Hnt as [Hr Hnt].
  destruct r; try discriminate; simpl.
  - apply IH, Hnt.
  - destruct (IH rs (exec (publish (al_topic ai) (feedback_for cmd ACTION_ENABLED)) w) Hnt)
      as (mids & Hm & Hem).
    exists (EvPublish (al_topic ai) (feedback_for cmd ACTION_ENABLED) :: mids). split.
    + constructor; [by eexists; split|done].
    + eapply emits_bind_cons; [apply emits_publish|exact Hem].
  - destruct (IH rs (exec (publish (al_topic ai) (feedback_for cmd (ACTION_PROGRESS label))) w) Hnt)
      as (mids & Hm & Hem).
    exists (EvPublish (al_topic ai) (feedback_for cmd (ACTION_PROGRESS label)) :: mids). split.
    + constructor; [by eexists; split|done].
    + eapply emits_bind_cons; [apply emits_publish|exact Hem].
Qed.

End Run.

(** Once the goal is cancelled the run cannot succeed. *)
Lemma actionlib_result_cancelled ticks rs : actionlib_result ticks true rs = false.
Proof. revert rs. induction ticks as [|ticks IH]; intros [|[] rs]; simpl; auto. Qed.

(** A cancel request that arrives within the time-out, after ticks that
    neither end nor cancel the goal, makes the run fail. *)
Lemma actionlib_result_cancel_request ticks pre post :
  Forall (λ r, remote_quiet r = true) pre → length pre < ticks →
  actionlib_result ticks false (pre ++ RCancelRequest :: post) = false.
Proof.
  revert ticks. induction pre as [|r pre IH]; intros [|ticks] Hq Hlen; simpl in *; try lia.
  - apply actionlib_result_cancelled.
  - apply Forall_cons in Hq as [Hr Hq]. destruct r; try discriminate; apply IH; auto with lia.
Qed.

Section Cancel.
Context {K : Type} `{!KnowledgeBase K} (ai : ActionlibAI) (cmd : ActionDispatch).

(** Such a request is passed on to the server. *)
Lemma actionlib_wait_cancel_sent ticks pre post (w : World K) :
  Forall (λ r, remote_quiet r = true) pre → length pre < ticks →
  ∃ new, emits (actionlib_wait ai cmd ticks false (pre ++ RCancelRequest :: post)) w new ∧
    EvRemote (action_id cmd) (plan_id cmd) (ReqCancel (al_server ai)) ∈ new.
Proof.
  revert ticks w. induction pre as [|r pre IH]; intros [|ticks] w Hq Hlen; simpl in *; try lia.
  - destruct (actionlib_wait_spec ai cmd ticks true post (exec (remote cmd (ReqCancel (al_server ai))) w))
      as (new & [Hem _] & _).
    eexists. split; [eapply emits_bind_cons; [apply emits_remote|exact Hem]|left].
  - apply Forall_cons in Hq as [Hr Hq]. destruct r; try discriminate.
    + apply IH; [done|lia].
    + destruct (IH ticks (exec (publish (al_topic ai) (feedback_for cmd ACTION_ENABLED)) w) Hq ltac:(lia))
        as (new & Hem & Hin).
      eexists. split; [eapply emits_bind_cons; [apply emits_publish|exact Hem]|by right].
    + destruct (IH ticks (exec (publish (al_topic ai) (feedback_for cmd (ACTION_PROGRESS label))) w) Hq
                  ltac:(lia)) as (new & Hem & Hin).
      eexists. split; [eapply emits_bind_cons; [apply emits_publish|exact Hem]|by right].
Qed.

End Cancel.

Lemma actionlib_run_contract K `{!KnowledgeBase K} env ai cmd (w : World K) :
  strategy_ok cmd (al_topic ai) (actionlib_run ai cmd env) w.
Proof.
  apply strategy_ok_remote.
  destruct (actionlib_wait_spec ai cmd (al_timeout ai) false (env_actionlib env (al_server ai) cmd)
              (exec (remote cmd (ReqGoal (al_server ai))) w)) as (new & Hem & Hspec).
  eexists new, _. split; [exact Hem|exact Hspec].
Qed.

#[export] Instance ActionlibAI_strategy : ExecutionStrategy ActionlibAI := {|
  get_action_name := al_action_name;
  feedback_topic := al_topic;
  run := λ K _ env ai cmd, actionlib_run ai cmd env;
  run_contract := λ K _ env ai cmd w, actionlib_run_contract K env ai cmd w
|}.
