(* ===== verification/FSMAI.v ===== *)
(** * FSMAI: the state-machine action interface (FSMActionInterface)

    Specification section 4.3, StateMachineStrategy (the class is not under
    [src/]): a configured state machine.  Each non-terminal state performs
    one action (a call to an external actor), whose outcome label selects
    the next state in the state's transition table; every transition is
    reported as an intermediate status naming the next state.  Reaching the
    success state applies the end effects and publishes SUCCEEDED; reaching
    the failure state, an undefined state, or an outcome with no transition
    publishes FAILED.  Cycles are allowed (retry loops); the interface's
    time-out [fsm_timeout] bounds the number of transitions, after which the
    run fails.  [fsm_step] is the machine as a step relation; the theorems
    relate the fuelled executor to it. *)

From S2P Require Import Prelude Messages Lifecycle KnowledgeBase World Strategy.
From Stdlib Require Import ZArith.

Record FSMState := mkFSMState {
  fs_action : string;
  fs_transitions : gmap string string
}.

Record FSMAI := mkFSMAI {
  fsm_action_name : string;
  fsm_states : gmap string FSMState;
  fsm_initial : string;
  fsm_success : string;
  fsm_fail : string;
  fsm_timeout : nat;
  fsm_topic : string
}.

Section Machine.
Context (ai : FSMAI) (env : Env) (cmd : ActionDispatch).

Definition fsm_terminal (s : string) : bool :=
  bool_decide (s = fsm_success ai) || bool_decide (s = fsm_fail ai).

(** The next state from [s], if [s] is a defined non-terminal state whose
    action's outcome has a transition. *)
Definition fsm_next (s : string) : option string :=
  if fsm_terminal s then None
  else st ← fsm_states ai !! s; fs_transitions st !! env_fsm env (fs_action st) cmd.

Inductive fsm_step : string → string → Prop :=
  | fsm_step_intro s s' : fsm_next s = Some s' → fsm_step s s'.

(** Whether the machine, run from [s] with [fuel] transitions left, ends
    in the success state. *)
Fixpoint fsm_result (fuel : nat) (s : string) : bool :=
  if decide (s = fsm_success ai) then true
  else if decide (s = fsm_fail ai) then false
  else match fuel with
       | 0 => false
       | S fuel' => match fsm_next s with Some s' => fsm_result fuel' s' | None => false end
       end.

Section Exec.
Context {K : Type} `{!KnowledgeBase K}.

Definition fsm_publish (s : Status) : St (World K) unit :=
  publish (fsm_topic ai) (feedback_for cmd s).

Fixpoint fsm_exec (fuel : nat) (s : string) : St (World K) unit :=
  if decide (s = fsm_success ai) then
    _ ← apply_effects cmd 1; fsm_publish ACTION_SUCCEEDED_TO_GOAL_STATE
  else if decide (s = fsm_fail ai) then fsm_publish ACTION_FAILED
  else
    match fuel with
    | 0 => fsm_publish ACTION_FAILED
    | S fuel' =>
        match fsm_states ai !! s with
        | None => fsm_publish ACTION_FAILED
        | Some st =>
            remote cmd (ReqCall (fs_action st)) ;;
            match fs_transitions st !! env_fsm env (fs_action st) cmd with
            | None => fsm_publish ACTION_FAILED
            | Some s' => fsm_publish (ACTION_PROGRESS s') ;; fsm_exec fuel' s'
            end
        end
    end.

Definition fsm_run : St (World K) unit := fsm_exec (fsm_timeout ai) (fsm_initial ai).

Lemma fsm_next_nonterminal s st :
  s ≠ fsm_success ai → s ≠ fsm_fail ai → fsm_states ai !! s = Some st →
  fsm_next s = fs_transitions st !! env_fsm env (fs_action st) cmd.
Proof.
  intros Hs Hf Hst. unfold fsm_next, fsm_terminal.
  rewrite !bool_decide_eq_false_2 by done. simpl. by rewrite Hst.
Qed.

Lemma fsm_next_undefined s :
  s ≠ fsm_success ai → s ≠ fsm_fail ai → fsm_states ai !! s = None → fsm_next s = None.
Proof.
  intros Hs Hf Hst. unfold fsm_next, fsm_terminal.
  rewrite !bool_decide_eq_false_2 by done. simpl. by rewrite Hst.
Qed.

(** The executor satisfies the interface contract and ends in success
    exactly when [fsm_result] says so. *)
Lemma fsm_exec_spec fuel s (w : World K) :
  ∃ new, logs cmd (fsm_exec fuel s) w new ∧
    run_spec (cmd_key cmd) (fsm_topic ai) new (fsm_result fuel s).
Proof.
  revert s w. induction fuel as [|fuel IH]; intros s w; cbn [fsm_exec fsm_result];
    repeat case_decide; try (eexists; split; [solve_logs|auto with aim]).
  destruct (fsm_states ai !! s) as [st|] eqn:Hst.
  2:{ rewrite fsm_next_undefined by done. eexists; split; [solve_logs|auto with aim]. }
  rewrite (fsm_next_nonterminal s st) by done.
  destruct (fs_transitions st !! _) as [s'|].
  2:{ eexists; split; [solve_logs|auto with aim]. }
  destruct (IH s' (exec (fsm_publish (ACTION_PROGRESS s'))
                      (exec (remote cmd (ReqCall (fs_action st))) w))) as (new & Hem & Hspec).
  eexists. split.
  - eapply logs_bind_cons; [apply logs_remote|]. eapply logs_bind_cons; [apply logs_publish|exact Hem].
  - by apply run_spec_remote, run_spec_progress.
Qed.

Lemma fsm_exec_ok fuel s (w : World K) : strategy_ok cmd (fsm_topic ai) (fsm_exec fuel s) w.
Proof. destruct (fsm_exec_spec fuel s w) as (new & ? & ?). by exists new, (fsm_result fuel s). Qed.

Lemma fsm_step_nonterminal s s' : fsm_step s s' → s ≠ fsm_success ai ∧ s ≠ fsm_fail ai.
Proof.
  intros Hst. inversion Hst as [x y Hn]; subst. unfold fsm_next, fsm_terminal in Hn.
  split; intros ->.
  - by rewrite bool_decide_eq_true_2 in Hn.
  - by rewrite (bool_decide_eq_true_2 (fsm_fail ai = fsm_fail ai)), orb_true_r in Hn.
Qed.

Lemma fsm_result_steps n fuel s :
  nsteps fsm_step n s (fsm_success ai) → n ≤ fuel → fsm_result fuel s = true.
Proof.
  revert fuel s. induction n as [|n IH]; intros fuel s Hs Hn.
  - inversion Hs; subst. destruct fuel; simpl; by rewrite decide_True.
  - inversion Hs as [|? ? s1 ? Hstep Hrest]; subst.
    destruct (fsm_step_nonterminal _ _ Hstep) as [H1 H2]. destruct Hstep as [? ? Hn1].
    destruct fuel as [|fuel]; [lia|]. simpl. rewrite !decide_False by done. rewrite Hn1.
    apply IH; [done|lia].
Qed.

Lemma fsm_result_sound fuel s :
  fsm_result fuel s = true → ∃ n, n ≤ fuel ∧ nsteps fsm_step n s (fsm_success ai).
Proof.
  revert s. induction fuel as [|fuel IH]; intros s; simpl; case_decide as Hs; subst.
  - intros _. exists 0. split; [lia|constructor].
  - case_decide; done.
  - intros _. exists 0. split; [lia|constructor].
  - case_decide; [done|]. destruct (fsm_next s) as [s1|] eqn:Hn; [|done].
    intros (n & ? & ?)%IH. exists (S n). split; [lia|]. econstructor; [by constructor|done].
Qed.

(** A non-terminal state whose action's outcome has no transition
    makes the run call the action once and publish ACTION_FAILED, and
    nothing else (no end effects, no further transition). *)
Theorem fsm_missing_transition_fails fuel s st (w : World K) :
  s ≠ fsm_success ai → s ≠ fsm_fail ai → fsm_states ai !! s = Some st →
  fs_transitions st !! env_fsm env (fs_action st) cmd = None →
  emits (fsm_exec (S fuel) s) w
    [EvRemote (action_id cmd) (plan_id cmd) (ReqCall (fs_action st));
     EvPublish (fsm_topic ai) (feedback_for cmd ACTION_FAILED)].
Proof.
  intros Hs Hf Hst Ht. simpl. rewrite !decide_False by done. rewrite Hst, Ht. solve_emits.
Qed.

(** Termination: when a ranking of the states decreases along every
    transition, a time-out larger than the start state's rank is never
    reached: any two such time-outs give the same run. *)
Theorem fsm_exec_fuel_irrelevant (rank : string → nat) fuel fuel' s :
  (∀ x y, fsm_step x y → rank y < rank x) →
  rank s < fuel → rank s < fuel' →
  fsm_exec fuel s = fsm_exec fuel' s.
Proof.
  intros Hrank. revert fuel' s. induction fuel as [|fuel IH]; intros fuel' s H1 H2; [lia|].
  destruct fuel' as [|fuel']; [lia|]. simpl.
  case_decide; [done|]. case_decide; [done|].
  destruct (fsm_states ai !! s) as [st|] eqn:Hst; [|done].
  destruct (fs_transitions st !! _) as [s1|] eqn:Ht; [|done].
  assert (Hstep : fsm_step s s1) by (constructor; by rewrite (fsm_next_nonterminal s st)).
  specialize (Hrank _ _ Hstep). by rewrite (IH fuel' s1) by lia.
Qed.

End Exec.
End Machine.

Lemma fsm_run_contract K `{!KnowledgeBase K} env ai cmd (w : World K) :
  strategy_ok cmd (fsm_topic ai) (fsm_run ai env cmd) w.
Proof. apply fsm_exec_ok. Qed.

#[export] Instance FSMAI_strategy : ExecutionStrategy FSMAI := {|
  get_action_name := fsm_action_name;
  feedback_topic := fsm_topic;
  run := λ K _ env ai cmd, fsm_run ai env cmd;
  run_contract := λ K _ env ai cmd w, fsm_run_contract K env ai cmd w
|}.
