(* ===== verification/Interfaces.v ===== *)
(** * Interfaces: what the manager's dictionary stores

    [ActionInterface] is the closed set of interface classes the manager
    instantiates (specification section 9: a tagged union behind one [run]
    entry point), with its [ExecutionStrategy] instance obtained from the
    three variants'.  [ActionConfig] is one entry of the YAML list under the
    parameter [actions]: a dictionary whose keys may be missing, so every
    field is an [option].  The constructors of the interface classes (not
    under [src/]) read their keys and raise [KeyError] when one is missing
    (specification 4.1: a structurally invalid entry is a construction
    error); they also keep the feedback publisher the manager hands them. *)

From S2P Require Import Prelude Messages Lifecycle KnowledgeBase World Strategy ServiceAI ActionlibAI FSMAI.
From Stdlib Require Import ZArith.

Inductive PyError :=
  | KeyError (key : string)
  | AttributeError (attr : string).

#[export] Instance PyError_eq_dec : EqDecision PyError.
Proof. solve_decision. Defined.

Record FSMConfig := mkFSMConfig {
  fc_states : gmap string FSMState;
  fc_initial : option string;
  fc_success : string;
  fc_fail : string
}.

Record ActionConfig := mkActionConfig {
  cfg_name : option string;
  cfg_interface_type : option string;
  cfg_server : option string;
  cfg_service : option string;
  cfg_timeout : option nat;
  cfg_fsm : option FSMConfig
}.

Inductive ActionInterface :=
  | AIActionlib (ai : ActionlibAI)
  | AIService (ai : ServiceAI)
  | AIFSM (ai : FSMAI).

Definition ai_name (ai : ActionInterface) : string :=
  match ai with
  | AIActionlib a => get_action_name a
  | AIService a => get_action_name a
  | AIFSM a => get_action_name a
  end.

Definition ai_topic (ai : ActionInterface) : string :=
  match ai with
  | AIActionlib a => feedback_topic a
  | AIService a => feedback_topic a
  | AIFSM a => feedback_topic a
  end.

Definition ai_run {K} `{!KnowledgeBase K} (env : Env) (ai : ActionInterface)
    (cmd : ActionDispatch) : St (World K) unit :=
  match ai with
  | AIActionlib a => run env a cmd
  | AIService a => run env a cmd
  | AIFSM a => run env a cmd
  end.

Lemma ai_run_contract K `{!KnowledgeBase K} env ai cmd (w : World K) :
  strategy_ok cmd (ai_topic ai) (ai_run env ai cmd) w.
Proof. destruct ai; apply run_contract. Qed.

#[export] Instance ActionInterface_strategy : ExecutionStrategy ActionInterface := {|
  get_action_name := ai_name;
  feedback_topic := ai_topic;
  run := λ K _, ai_run;
  run_contract := ai_run_contract
|}.

(** ** Construction from a configuration entry *)

Definition require {A} (key : string) (v : option A) : PyError + A :=
  match v with Some x => inr x | None => inl (KeyError key) end.

Definition make_actionlib (cfg : ActionConfig) (pub : string) : PyError + ActionInterface :=
  n ← require "name" (cfg_name cfg);
  srv ← require "action_server" (cfg_server cfg);
  t ← require "timeout" (cfg_timeout cfg);
  inr (AIActionlib (mkActionlibAI n srv t pub)).

Definition make_service (cfg : ActionConfig) (pub : string) : PyError + ActionInterface :=
  n ← require "name" (cfg_name cfg);
  srv ← require "service" (cfg_service cfg);
  inr (AIService (mkServiceAI n srv pub)).

Definition make_fsm (cfg : ActionConfig) (pub : string) : PyError + ActionInterface :=
  n ← require "name" (cfg_name cfg);
  fc ← require "states" (cfg_fsm cfg);
  init ← require "initial_state" (fc_initial fc);
  t ← require "timeout" (cfg_timeout cfg);
  inr (AIFSM (mkFSMAI n (fc_states fc) init (fc_success fc) (fc_fail fc) t pub)).

Lemma make_name_topic (mk : ActionConfig → string → PyError + ActionInterface) cfg pub ai :
  mk = make_actionlib ∨ mk = make_service ∨ mk = make_fsm →
  mk cfg pub = inr ai → cfg_name cfg = Some (ai_name ai) ∧ ai_topic ai = pub.
Proof.
  intros [->|[->| ->]]; unfold make_actionlib, make_service, make_fsm, require, mbind, Sum_bind;
    repeat case_match; intros; simplify_eq; done.
Qed.
