(* ===== verification/Registry.v ===== *)
(** * Registry: building the dictionary of action interfaces

    [parse_config], [parse_actionlib], [parse_service] and
    [parse_state_machine] of ActionInterfaceManager.py (lines 74-97).  The
    dictionary [_action_interfaces] is the state ([Dict]); the instance
    attributes they read ([cfg_actions], [_action_feedback_pub]) are
    arguments.  Python exceptions are results [Some e] that propagate
    through [;;?]; what was inserted before the exception stays in the
    dictionary, as it does in Python.  [parse_config] tests the
    ["interface_type"] key three times with independent [if]s, reading the
    key each time ([KeyError] when it is missing), and silently skips an
    entry whose type is none of "actionlib", "service", "fsm". *)

From S2P Require Import Prelude Messages Lifecycle KnowledgeBase World Strategy ServiceAI ActionlibAI FSMAI Interfaces.
From Stdlib Require Import ZArith.

Abbreviation Dict := (gmap string ActionInterface).

(** [self._action_interfaces[ai.get_action_name()] = ai] *)
Definition register (ai : ActionInterface) : St Dict unit :=
  do! (λ d, <[get_action_name ai := ai]> d).

Definition parse_actionlib (pub : string) (action_config : ActionConfig) : St Dict (option PyError) :=
  match make_actionlib action_config pub with
  | inl e => mret (Some e)
  | inr ai => register ai ;; mret None
  end.

Definition parse_service (pub : string) (action_config : ActionConfig) : St Dict (option PyError) :=
  match make_service action_config pub with
  | inl e => mret (Some e)
  | inr ai => register ai ;; mret None
  end.

Definition parse_state_machine (pub : string) (action_config : ActionConfig) : St Dict (option PyError) :=
  match make_fsm action_config pub with
  | inl e => mret (Some e)
  | inr ai => register ai ;; mret None
  end.

(** [if action["interface_type"] == ty: body] *)
Definition if_interface_type (ty : string) (action : ActionConfig)
    (body : St Dict (option PyError)) : St Dict (option PyError) :=
  match require "interface_type" (cfg_interface_type action) with
  | inl e => mret (Some e)
  | inr t => if decide (t = ty) then body else mret None
  end.

(** The body of the loop of [parse_config] (lines 76-81). *)
Definition parse_entry (pub : string) (action : ActionConfig) : St Dict (option PyError) :=
  if_interface_type "actionlib" action (parse_actionlib pub action) ;;?
  if_interface_type "service" action (parse_service pub action) ;;?
  if_interface_type "fsm" action (parse_state_machine pub action).

Fixpoint parse_config (pub : string) (cfg_actions : list ActionConfig) : St Dict (option PyError) :=
  match cfg_actions with
  | [] => mret None
  | action :: rest => parse_entry pub action ;;? parse_config pub rest
  end.

(** ** The loop body as one case analysis

    [build] is what one iteration of the loop does, as a single case
    analysis on the entry: [None] for an entry the loop skips (a type that
    is none of the three), an exception, or the interface it registers.
    It is the code's behaviour, not the specification's: the
    specification's registry is [spec_build] below. *)

Definition build (pub : string) (action : ActionConfig) : option (PyError + ActionInterface) :=
  match cfg_interface_type action with
  | None => Some (inl (KeyError "interface_type"))
  | Some t =>
      if decide (t = "actionlib") then Some (make_actionlib action pub)
      else if decide (t = "service") then Some (make_service action pub)
      else if decide (t = "fsm") then Some (make_fsm action pub)
      else None
  end.

Fixpoint build_all (pub : string) (cfgs : list ActionConfig) (d : Dict) : option PyError * Dict :=
  match cfgs with
  | [] => (None, d)
  | a :: rest =>
      match build pub a with
      | None => build_all pub rest d
      | Some (inl e) => (Some e, d)
      | Some (inr ai) => build_all pub rest (<[ai_name ai := ai]> d)
      end
  end.

(** The interface an entry builds under the name [n], if any. *)
Definition named (pub n : string) (action : ActionConfig) : option ActionInterface :=
  match build pub action with
  | Some (inr ai) => if decide (ai_name ai = n) then Some ai else None
  | _ => None
  end.

(** ** The registry as the specification describes it

    Specification 4.1, 7 and 3: [build(configs)] constructs the variant
    named by each entry's type and inserts it under its action name (a
    later duplicate replacing an earlier one); it fails fast with a
    ConfigurationFault when an entry has no type, an unrecognised type, or
    type-specific parameters that are structurally invalid. *)

Inductive ConfigFault :=
  | CFMissingType
  | CFUnknownType (t : string)
  | CFInvalid (e : PyError).

Definition spec_entry (pub : string) (action : ActionConfig) : ConfigFault + ActionInterface :=
  let invalid (r : PyError + ActionInterface) :=
    match r with inl e => inl (CFInvalid e) | inr ai => inr ai end in
  match cfg_interface_type action with
  | None => inl CFMissingType
  | Some t =>
      if decide (t = "actionlib") then invalid (make_actionlib action pub)
      else if decide (t = "service") then invalid (make_service action pub)
      else if decide (t = "fsm") then invalid (make_fsm action pub)
      else inl (CFUnknownType t)
  end.

(** The registry built from [d]: the first fault stops the construction. *)
Fixpoint spec_build (pub : string) (cfgs : list ActionConfig) (d : Dict) : ConfigFault + Dict :=
  match cfgs with
  | [] => inr d
  | a :: rest =>
      match spec_entry pub a with
      | inl f => inl f
      | inr ai => spec_build pub rest (<[ai_name ai := ai]> d)
      end
  end.

(** The entry's type, when present, is one of the three the code tests. *)
Definition recognised_type (action : ActionConfig) : bool :=
  match cfg_interface_type action with
  | None => true
  | Some t => bool_decide (t ∈ ["actionlib"; "service"; "fsm"])
  end.

(** ** Lemmas *)

Lemma st_try_apply {S E} (m k : St S (option E)) s :
  st_try m k s = match m s with (Some e, s') => (Some e, s') | (None, s') => k s' end.
Proof. unfold st_try, mbind, St_bind. by destruct (m s) as [[] ?]. Qed.

Lemma parse_config_cons pub a cfgs d :
  parse_config pub (a :: cfgs) d =
    match parse_entry pub a d with
    | (Some e, d') => (Some e, d')
    | (None, d') => parse_config pub cfgs d'
    end.
Proof. apply st_try_apply. Qed.

(** One entry of the loop is one case of the switch. *)
Lemma parse_entry_build pub a d :
  parse_entry pub a d =
    match build pub a with
    | None => (None, d)
    | Some (inl e) => (Some e, d)
    | Some (inr ai) => (None, <[ai_name ai := ai]> d)
    end.
Proof.
  unfold parse_entry, build, if_interface_type, require, parse_actionlib, parse_service,
    parse_state_machine, register, st_try, st_modify, mbind, St_bind, mret, St_ret.
  destruct (cfg_interface_type a) as [t|]; [|done].
  repeat case_decide; subst; try done; by repeat case_match.
Qed.

(** The loop is the case analysis [build] applied entry after entry. *)
Lemma parse_config_build_all pub cfgs d : parse_config pub cfgs d = build_all pub cfgs d.
Proof.
  revert d. induction cfgs as [|a cfgs IH]; intros d; [done|].
  rewrite parse_config_cons, parse_entry_build. simpl. destruct (build pub a) as [[]|]; auto.
Qed.

(** On an entry of recognised type, one iteration of the loop faults
    exactly when the specification's construction faults, and otherwise
    registers the same interface. *)
Lemma build_spec_entry pub a :
  recognised_type a = true →
  match spec_entry pub a with
  | inl _ => ∃ e, build pub a = Some (inl e)
  | inr ai => build pub a = Some (inr ai)
  end.
Proof.
  unfold recognised_type, spec_entry, build. destruct (cfg_interface_type a) as [t|]; [|by eexists].
  intros Ht. apply bool_decide_eq_true in Ht.
  repeat case_decide; try set_solver; [destruct (make_actionlib a pub)|destruct (make_service a pub)
    |destruct (make_fsm a pub)]; by eauto.
Qed.

(** [C6] Refinement of the specification's registry (4.1) on the
    configurations it accepts the types of: when every entry's type is
    absent or one of "actionlib", "service", "fsm", [parse_config] raises an
    exception exactly when the specification's construction reports a
    ConfigurationFault, and otherwise leaves the dictionary the
    specification builds (same interfaces, same names, last duplicate
    winning), from any starting dictionary. *)
Theorem parse_config_spec_build pub cfgs d :
  Forall (λ a, recognised_type a = true) cfgs →
  match spec_build pub cfgs d with
  | inl _ => is_Some (fst (parse_config pub cfgs d))
  | inr d' => parse_config pub cfgs d = (None, d')
  end.
Proof.
  intros Hrec. rewrite parse_config_build_all. revert d.
  induction Hrec as [|a cfgs Ha _ IH]; intros d; [done|]. simpl.
  pose proof (build_spec_entry pub a Ha) as Hb.
  destruct (spec_entry pub a) as [f|ai].
  - destruct Hb as [e ->]. by eexists.
  - rewrite Hb. apply IH.
Qed.

Lemma named_cons pub n a cfgs :
  omap (named pub n) (a :: cfgs) =
    match named pub n a with Some y => y :: omap (named pub n) cfgs | None => omap (named pub n) cfgs end.
Proof. done. Qed.

(** Last entry wins, for any list: the interface stored under a name is the
    one built from the last entry with that name and a recognised type. *)
Lemma parse_config_lookup pub cfgs d n :
  fst (parse_config pub cfgs d) = None →
  snd (parse_config pub cfgs d) !! n =
    match last (omap (named pub n) cfgs) with Some ai => Some ai | None => d !! n end.
Proof.
  revert d. induction cfgs as [|a cfgs IH]; intros d; [done|].
  rewrite parse_config_cons, parse_entry_build, named_cons. unfold named at 1.
  destruct (build pub a) as [[e|ai]|]; simpl; [done| |auto].
  intros Hok. rewrite (IH _ Hok). case_decide as Hne.
  - rewrite last_cons. subst. destruct (last _); [done|]. apply lookup_insert_eq.
  - destruct (last _); [done|]. by apply lookup_insert_ne.
Qed.

(** [C7] Two configuration entries with the same action name and
    recognised types: registration completes without an exception and the
    second one is the interface stored under the name. *)
Theorem parse_config_last_wins pub a1 a2 ai1 ai2 d :
  build pub a1 = Some (inr ai1) → build pub a2 = Some (inr ai2) → ai_name ai1 = ai_name ai2 →
  parse_config pub [a1; a2] d = (None, <[ai_name ai2 := ai2]> d).
Proof.
  intros H1 H2 Hn. rewrite parse_config_cons, parse_entry_build, H1.
  rewrite parse_config_cons, parse_entry_build, H2. simpl.
  by rewrite Hn, insert_insert_eq.
Qed.

(** [C8] An entry whose ["interface_type"] is present but is none of
    "actionlib", "service", "fsm" is skipped without an error: the
    dictionary is unchanged and no exception is raised (the specification,
    4.1, requires a construction error for an unrecognised type). *)
Theorem parse_entry_unknown_type pub a d t :
  cfg_interface_type a = Some t → t ≠ "actionlib" → t ≠ "service" → t ≠ "fsm" →
  parse_entry pub a d = (None, d).
Proof.
  intros Ht ???. rewrite parse_entry_build. unfold build. rewrite Ht.
  by rewrite !decide_False.
Qed.

Lemma parse_config_app pub pre post d :
  parse_config pub (pre ++ post) d =
    match parse_config pub pre d with
    | (Some e, d') => (Some e, d')
    | (None, d') => parse_config pub post d'
    end.
Proof.
  revert d. induction pre as [|a pre IH]; intros d; [done|]. simpl.
  rewrite !st_try_apply. destruct (parse_entry pub a d) as [[] d']; [done|]. apply IH.
Qed.

(** [C9] An entry without the ["interface_type"] key raises [KeyError]
    and stops the loop, and the interfaces registered by the entries before
    it stay in the dictionary. *)
Theorem parse_config_key_error pub pre a post d :
  fst (parse_config pub pre d) = None → cfg_interface_type a = None →
  parse_config pub (pre ++ a :: post) d =
    (Some (KeyError "interface_type"), snd (parse_config pub pre d)).
Proof.
  intros Hpre Ha. rewrite parse_config_app.
  destruct (parse_config pub pre d) as [[] d']; simplify_eq/=.
  rewrite st_try_apply, parse_entry_build. unfold build. by rewrite Ha.
Qed.

(** Every interface in the dictionary after [parse_config] was there
    before, or was built from an entry of the configuration, is stored
    under its own name and publishes on the manager's feedback topic. *)
Definition registry_inv (pub : string) (cfgs : list ActionConfig) (d0 d : Dict) : Prop :=
  ∀ k ai, d !! k = Some ai →
    d0 !! k = Some ai ∨
    (k = ai_name ai ∧ ai_topic ai = pub ∧ ∃ a, a ∈ cfgs ∧ build pub a = Some (inr ai)).

Lemma build_inr pub a ai :
  build pub a = Some (inr ai) → cfg_name a = Some (ai_name ai) ∧ ai_topic ai = pub.
Proof.
  unfold build. intros H. repeat case_match; simplify_eq;
    (eapply make_name_topic; [|eassumption]); first [by left | by right; left | by right; right].
Qed.

Lemma registry_inv_refl pub cfgs d : registry_inv pub cfgs d d.
Proof. intros k ai ?. by left. Qed.

(** Parsing one configured entry preserves the invariant. *)
Lemma registry_inv_parse_entry pub cfgs d0 d a :
  a ∈ cfgs → registry_inv pub cfgs d0 d → registry_inv pub cfgs d0 (snd (parse_entry pub a d)).
Proof.
  intros Ha Hinv k ai. rewrite parse_entry_build.
  destruct (build pub a) as [[e|ai']|] eqn:Hb; simpl; [by apply Hinv| |by apply Hinv].
  destruct (decide (ai_name ai' = k)) as [<-|Hne].
  - rewrite lookup_insert_eq. intros [= <-]. right.
    split_and!; [done|by apply (build_inr pub a)|eauto].
  - rewrite lookup_insert_ne by done. apply Hinv.
Qed.

(** [C12] Invariant of registry construction (any outcome, exception or
    not): the dictionary's new entries come from the configuration, are
    keyed by their action name and publish on the manager's topic. *)
Theorem parse_config_inv pub cfgs d : registry_inv pub cfgs d (snd (parse_config pub cfgs d)).
Proof.
  assert (Hgen : ∀ pre d', registry_inv pub (pre ++ cfgs) d d' →
            registry_inv pub (pre ++ cfgs) d (snd (parse_config pub cfgs d'))).
  { induction cfgs as [|a cfgs IH]; intros pre d' Hinv; [done|].
    rewrite parse_config_cons.
    pose proof (registry_inv_parse_entry pub (pre ++ a :: cfgs) d d' a ltac:(set_solver) Hinv) as Hstep.
    destruct (parse_entry pub a d') as [[e|] d'']; [done|].
    specialize (IH (pre ++ [a]) d''). rewrite <- app_assoc in IH. by apply IH. }
  apply (Hgen [] d), registry_inv_refl.
Qed.
