(* ===== verification/Manager.v ===== *)
(** * Manager: the ActionInterfaceManager node

    ActionInterfaceManager.py, lines 16-103.  The process state [Proc] holds
    the class attribute [_action_interfaces] (line 19), shared by every
    instance of the class, and the world (knowledge base and trace).  An
    instance ([AIM]) holds its own attributes: [cfg_actions], the topic of
    [_action_feedback_pub] and the topic it subscribed to.
    [dispatch_callback] is written against any dictionary value type with an
    [ExecutionStrategy] instance, so its theorems hold for every interface
    that honours the contract; [aim_init] ([__init__]) and the node step
    relation use the concrete [ActionInterface]s built by [Registry]. *)

From S2P Require Import Prelude Messages Lifecycle KnowledgeBase World Strategy ServiceAI ActionlibAI FSMAI Interfaces Registry.
From Stdlib Require Import ZArith.

(** The ROS parameters the constructor reads. *)
Record Params := mkParams {
  prm_actions : option (list ActionConfig);
  prm_action_feedback_topic : option string;
  prm_action_dispatch_topic : option string
}.

(** [rospy.get_param(name, default)] *)
Definition get_param (v : option string) (default : string) : string := from_option id default v.

(** The attributes of one instance. *)
Record AIM := mkAIM {
  aim_cfg_actions : option (list ActionConfig);
  aim_feedback_pub : option string;
  aim_subscription : option string
}.

Definition aim_fresh : AIM := mkAIM None None None.

Record Proc (S K : Type) := mkProc {
  p_action_interfaces : gmap string S;
  p_world : World K
}.
Arguments mkProc {S K} _ _.
Arguments p_action_interfaces {S K} _.
Arguments p_world {S K} _.

Section Lens.
Context {S K : Type}.

Definition on_world {A} (m : St (World K) A) : St (Proc S K) A :=
  λ p, let '(a, w') := m (p_world p) in (a, mkProc (p_action_interfaces p) w').

Definition on_dict {A} (m : St (gmap string S) A) : St (Proc S K) A :=
  λ p, let '(a, d') := m (p_action_interfaces p) in (a, mkProc d' (p_world p)).

Lemma exec_on_world {A} (m : St (World K) A) p :
  exec (on_world m) p = mkProc (p_action_interfaces p) (exec m (p_world p)).
Proof. unfold exec, on_world. by destruct (m _). Qed.

Lemma exec_on_dict {A} (m : St (gmap string S) A) p :
  exec (on_dict m) p = mkProc (exec m (p_action_interfaces p)) (p_world p).
Proof. unfold exec, on_dict. by destruct (m _). Qed.

Lemma exec_on_world_bind {A B} (m : St (World K) A) (f : A → St (Proc S K) B) p :
  exec (on_world m ≫= f) p =
    exec (f (fst (m (p_world p)))) (mkProc (p_action_interfaces p) (exec m (p_world p))).
Proof. unfold exec, on_world, mbind, St_bind. by destruct (m _). Qed.

End Lens.

#[export] Hint Rewrite @exec_on_world_bind @exec_on_world @exec_on_dict : aim.

(** ** The dispatch callback (lines 49-67) *)

Section Dispatch.
Context {S : Type} `{!ExecutionStrategy S} {K : Type} `{!KnowledgeBase K}.
Context (env : Env).

Definition dispatch_callback (self : AIM) (pddl_action_msg : ActionDispatch) : St (Proc S K) unit :=
  p ← st_get;
  match p_action_interfaces p !! name pddl_action_msg with
  | None => mret tt
  | Some _ =>
      match aim_feedback_pub self with
      | None => on_world (emit (EvLogErr "AttributeError: _action_feedback_pub"))
      | Some pub =>
          on_world (publish pub (feedback_for pddl_action_msg ACTION_DISPATCHED_TO_GOAL_STATE)) ;;
          _ ← on_world (apply_effects pddl_action_msg 0);
          p' ← st_get;
          match p_action_interfaces p' !! name pddl_action_msg with
          | None => on_world (emit (EvLogErr "KeyError"))
          | Some current_interface => on_world (run env current_interface pddl_action_msg)
          end
      end
  end.

(** The world after the DISPATCHED feedback and the start effects. *)
Definition dispatched_world (pub : string) (msg : ActionDispatch) (w : World K) : World K :=
  exec (apply_effects msg 0) (exec (publish pub (feedback_for msg ACTION_DISPATCHED_TO_GOAL_STATE)) w).

Lemma dispatch_callback_registered self msg p ai pub :
  p_action_interfaces p !! name msg = Some ai → aim_feedback_pub self = Some pub →
  exec (dispatch_callback self msg) p =
    mkProc (p_action_interfaces p) (exec (run env ai msg) (dispatched_world pub msg (p_world p))).
Proof.
  intros Hai Hpub. unfold dispatch_callback, dispatched_world.
  rewrite exec_get_bind, Hai, Hpub, !exec_on_world_bind, exec_get_bind. simpl.
  by rewrite Hai, exec_on_world.
Qed.

End Dispatch.

Section DispatchTheorems.
Context {S : Type} `{!ExecutionStrategy S} {K : Type} `{!KnowledgeBase K}.
Context (env : Env).

Lemma dispatched_world_trace pub msg (w : World K) :
  w_trace (dispatched_world pub msg w) =
    w_trace w ++ [EvPublish pub (feedback_for msg ACTION_DISPATCHED_TO_GOAL_STATE);
                  EvApplyEffects (action_id msg) (plan_id msg) (name msg) 0
                    (apply_ok msg 0 (exec (publish pub (feedback_for msg ACTION_DISPATCHED_TO_GOAL_STATE)) w))].
Proof.
  unfold dispatched_world. rewrite (emits_apply msg 0), (emits_publish pub _ w).
  by rewrite <- app_assoc.
Qed.

Lemma dispatched_world_kb pub msg (w : World K) :
  w_kb (dispatched_world pub msg w) = (kb_apply_action_effects msg 0 (w_kb w)).2.
Proof. unfold dispatched_world, exec, apply_effects. simpl. by destruct (kb_apply_action_effects msg 0 _). Qed.

(** A command whose name is not a key of the dictionary is ignored: the
    callback returns at once and leaves the process state as it was. *)
Lemma dispatch_callback_unregistered self msg (p : Proc S K) :
  p_action_interfaces p !! name msg = None →
  dispatch_callback env self msg p = (tt, p).
Proof. intros Hnone. unfold dispatch_callback, mbind, St_bind, st_get. simpl. by rewrite Hnone. Qed.

(** The events a callback appends for a registered command. *)
Lemma dispatch_callback_events self msg (p : Proc S K) ai pub :
  p_action_interfaces p !! name msg = Some ai → aim_feedback_pub self = Some pub →
  ∃ rest b,
    w_trace (p_world (exec (dispatch_callback env self msg) p)) =
      w_trace (p_world p) ++
        [EvPublish pub (feedback_for msg ACTION_DISPATCHED_TO_GOAL_STATE);
         EvApplyEffects (action_id msg) (plan_id msg) (name msg) 0
           (apply_ok msg 0 (exec (publish pub (feedback_for msg ACTION_DISPATCHED_TO_GOAL_STATE)) (p_world p)))]
        ++ rest ∧
    run_spec (cmd_key msg) (feedback_topic ai) rest b ∧
    p_action_interfaces (exec (dispatch_callback env self msg) p) = p_action_interfaces p.
Proof.
  intros Hai Hpub. rewrite (dispatch_callback_registered env self msg p ai pub Hai Hpub). simpl.
  destruct (run_contract K env ai msg (dispatched_world pub msg (p_world p))) as (rest & b & [Hem _] & Hspec).
  exists rest, b. split_and!; [|done|done].
  rewrite Hem, dispatched_world_trace. by rewrite <- app_assoc.
Qed.

(** The dispatch prefix followed by a run satisfying the contract is a
    complete lifecycle about the command. *)
Lemma dispatch_lifecycle pub msg ok rest t b :
  run_spec (cmd_key msg) t rest b →
  Forall (about (cmd_key msg))
    ([EvPublish pub (feedback_for msg ACTION_DISPATCHED_TO_GOAL_STATE);
      EvApplyEffects (action_id msg) (plan_id msg) (name msg) 0 ok] ++ rest) ∧
  lifecycle_shape (observations (cmd_key msg)
    ([EvPublish pub (feedback_for msg ACTION_DISPATCHED_TO_GOAL_STATE);
      EvApplyEffects (action_id msg) (plan_id msg) (name msg) 0 ok] ++ rest)) b.
Proof.
  intros (Hab & _ & Hlc). split.
  - apply Forall_app. split; [by repeat constructor|exact Hab].
  - apply lc_run_Idle_Done. autorewrite with aim. exact Hlc.
Qed.

(** [C1] Refinement of the lifecycle specification: what one callback
    appends about a registered command, read as statuses and effect
    applications, is a complete lifecycle (ACTION_DISPATCHED_TO_GOAL_STATE,
    start effects, intermediate statuses, then ACTION_FAILED, or end
    effects and ACTION_SUCCEEDED_TO_GOAL_STATE), every event it appends is
    about that command, and the dictionary is unchanged. *)
Theorem dispatch_callback_refines self msg (p : Proc S K) ai pub :
  p_action_interfaces p !! name msg = Some ai → aim_feedback_pub self = Some pub →
  ∃ new b,
    w_trace (p_world (exec (dispatch_callback env self msg) p)) = w_trace (p_world p) ++ new ∧
    Forall (about (cmd_key msg)) new ∧
    lifecycle_shape (observations (cmd_key msg) new) b ∧
    p_action_interfaces (exec (dispatch_callback env self msg) p) = p_action_interfaces p.
Proof.
  intros Hai Hpub.
  destruct (dispatch_callback_events self msg p ai pub Hai Hpub) as (rest & b & Htr & Hspec & Hd).
  destruct (dispatch_lifecycle pub msg
    (apply_ok msg 0 (exec (publish pub (feedback_for msg ACTION_DISPATCHED_TO_GOAL_STATE)) (p_world p)))
    rest _ b Hspec) as [Hab Hshape].
  eexists _, b. split_and!; [exact Htr|exact Hab|exact Hshape|exact Hd].
Qed.

(** [C3] Exactly one terminal status is published for a registered
    command, and it is the last status published for it. *)
Theorem dispatch_callback_one_terminal self msg (p : Proc S K) ai pub :
  p_action_interfaces p !! name msg = Some ai → aim_feedback_pub self = Some pub →
  ∃ new s,
    w_trace (p_world (exec (dispatch_callback env self msg) p)) = w_trace (p_world p) ++ new ∧
    terminal_count (observations (cmd_key msg) new) = 1 ∧
    is_terminal s = true ∧ last (observations (cmd_key msg) new) = Some (ObStatus s).
Proof.
  intros Hai Hpub.
  destruct (dispatch_callback_events self msg p ai pub Hai Hpub) as (rest & b & Htr & Hspec & _).
  destruct (dispatch_lifecycle pub msg
    (apply_ok msg 0 (exec (publish pub (feedback_for msg ACTION_DISPATCHED_TO_GOAL_STATE)) (p_world p)))
    rest _ b Hspec) as [_ Hshape].
  destruct (lifecycle_shape_terminal _ _ Hshape) as [Hc Hl].
  eexists _, (if b then ACTION_SUCCEEDED_TO_GOAL_STATE else ACTION_FAILED).
  split_and!; [exact Htr|exact Hc|by destruct b|exact Hl].
Qed.

(** The knowledge base after the callback on a registered command: the one
    after the start effects, with the end effects applied exactly when the
    command's lifecycle ends with SUCCEEDED. *)
Lemma dispatch_callback_kb self msg (p : Proc S K) ai pub :
  p_action_interfaces p !! name msg = Some ai → aim_feedback_pub self = Some pub →
  ∃ new b,
    w_trace (p_world (exec (dispatch_callback env self msg) p)) = w_trace (p_world p) ++ new ∧
    Forall (about (cmd_key msg)) new ∧ lifecycle_shape (observations (cmd_key msg) new) b ∧
    w_kb (p_world (exec (dispatch_callback env self msg) p)) =
      (if b then λ kb, (kb_apply_action_effects msg 1 kb).2 else id) (w_kb (dispatched_world pub msg (p_world p))).
Proof.
  intros Hai Hpub. rewrite (dispatch_callback_registered env self msg p ai pub Hai Hpub). simpl.
  destruct (run_contract K env ai msg (dispatched_world pub msg (p_world p))) as (rest & b & [Hem Hkb] & Hspec).
  destruct (dispatch_lifecycle pub msg
    (apply_ok msg 0 (exec (publish pub (feedback_for msg ACTION_DISPATCHED_TO_GOAL_STATE)) (p_world p)))
    rest _ b Hspec) as [Hab Hshape].
  eexists _, b. split_and!; [|exact Hab|exact Hshape|].
  - rewrite Hem, dispatched_world_trace. by rewrite <- app_assoc.
  - rewrite Hkb, (run_spec_kb msg _ rest b _ Hspec). by destruct b.
Qed.

(** [C25] Consistent effect application, whatever the interface: after
    the callback on a registered command, the knowledge base is the one
    before with the command's start effects applied, then its end effects
    applied exactly when the command's lifecycle ends with SUCCEEDED; no
    other change is made to it. *)
Theorem dispatch_callback_effects self msg (p : Proc S K) ai pub :
  p_action_interfaces p !! name msg = Some ai → aim_feedback_pub self = Some pub →
  ∃ new b,
    w_trace (p_world (exec (dispatch_callback env self msg) p)) = w_trace (p_world p) ++ new ∧
    lifecycle_shape (observations (cmd_key msg) new) b ∧
    w_kb (p_world (exec (dispatch_callback env self msg) p)) =
      (if b then λ kb, (kb_apply_action_effects msg 1 kb).2 else id)
        (kb_apply_action_effects msg 0 (w_kb (p_world p))).2.
Proof.
  intros Hai Hpub. destruct (dispatch_callback_kb self msg p ai pub Hai Hpub) as (new & b & ? & _ & ? & Hkb).
  exists new, b. split_and!; [done|done|]. by rewrite Hkb, dispatched_world_kb.
Qed.

(** [C26] Consequence of the unchecked start effects (line 63), for a
    knowledge base whose failed updates change nothing: when the start
    effects fail to apply, the knowledge base after the callback holds the
    end effects alone if the command succeeds, and nothing of the command
    if it fails, although the trace shows a complete lifecycle. *)
Theorem dispatch_end_effects_without_start `{!KnowledgeBaseAtomic K} self msg (p : Proc S K) ai pub :
  p_action_interfaces p !! name msg = Some ai → aim_feedback_pub self = Some pub →
  apply_ok msg 0 (exec (publish pub (feedback_for msg ACTION_DISPATCHED_TO_GOAL_STATE)) (p_world p)) = false →
  ∃ new b,
    w_trace (p_world (exec (dispatch_callback env self msg) p)) = w_trace (p_world p) ++ new ∧
    lifecycle_shape (observations (cmd_key msg) new) b ∧
    w_kb (p_world (exec (dispatch_callback env self msg) p)) =
      if b then (kb_apply_action_effects msg 1 (w_kb (p_world p))).2 else w_kb (p_world p).
Proof.
  intros Hai Hpub Hfail. destruct (dispatch_callback_kb self msg p ai pub Hai Hpub) as (new & b & ? & _ & ? & Hkb).
  exists new, b. split_and!; [done|done|]. rewrite Hkb, dispatched_world_kb, kb_apply_fail_unchanged by exact Hfail.
  by destruct b.
Qed.

(** [C13] The result of the start-effects request is not checked (line
    63): when the knowledge base fails to apply them, the callback still
    runs the interface, which publishes its statuses and a terminal one. *)
Theorem dispatch_callback_ignores_start_failure self msg (p : Proc S K) ai pub :
  p_action_interfaces p !! name msg = Some ai → aim_feedback_pub self = Some pub →
  apply_ok msg 0 (exec (publish pub (feedback_for msg ACTION_DISPATCHED_TO_GOAL_STATE)) (p_world p)) = false →
  ∃ rest fb,
    w_trace (p_world (exec (dispatch_callback env self msg) p)) =
      w_trace (p_world p) ++
        [EvPublish pub (feedback_for msg ACTION_DISPATCHED_TO_GOAL_STATE);
         EvApplyEffects (action_id msg) (plan_id msg) (name msg) 0 false] ++ rest ∧
    EvPublish (feedback_topic ai) fb ∈ rest ∧ is_terminal (fb_status fb) = true.
Proof.
  intros Hai Hpub Hfail.
  destruct (dispatch_callback_events self msg p ai pub Hai Hpub) as (rest & b & Htr & Hspec & _).
  destruct (run_spec_terminal_published _ _ _ _ Hspec) as (fb & Hin & Hterm & _).
  rewrite Hfail in Htr. eexists rest, fb. split_and!; [exact Htr|exact Hin|exact Hterm].
Qed.

End DispatchTheorems.

(** ** The constructor (lines 21-46) *)

Section Init.
Context {K : Type} `{!KnowledgeBase K}.

Abbreviation AIProc := (Proc ActionInterface K).

(** Lines 31-34: no [actions] parameter. *)
Definition config_not_found : St (World K) unit :=
  emit (EvLogErr "KCL: Error: configuration file was not laoded.") ;;
  emit (EvShutdown "Config not found").

(** Lines 29 and 37-42: the attributes set before [parse_config]; the
    subscription to the dispatch topic is live from line 42 on. *)
Definition init_attributes (params : Params) (cfgs : list ActionConfig) : AIM :=
  mkAIM (Some cfgs)
    (Some (get_param (prm_action_feedback_topic params) "default_feedback_topic"))
    (Some (get_param (prm_action_dispatch_topic params) "default_dispatch_topic")).

Definition feedback_topic_of (params : Params) : string :=
  get_param (prm_action_feedback_topic params) "default_feedback_topic".

(** [__init__] run to completion: the new instance's attributes and the
    exception [parse_config] raised, if any. *)
Definition aim_init (params : Params) : St AIProc (AIM * option PyError) :=
  match prm_actions params with
  | None => on_world config_not_found ;; mret (aim_fresh, None)
  | Some cfgs =>
      r ← on_dict (parse_config (feedback_topic_of params) cfgs);
      mret (init_attributes params cfgs, r)
  end.

Lemma aim_init_config params cfgs (p : AIProc) :
  prm_actions params = Some cfgs →
  aim_init params p =
    ((init_attributes params cfgs,
      fst (parse_config (feedback_topic_of params) cfgs (p_action_interfaces p))),
     mkProc (snd (parse_config (feedback_topic_of params) cfgs (p_action_interfaces p))) (p_world p)).
Proof.
  intros H. unfold aim_init. rewrite H. unfold mbind, St_bind, on_dict. simpl.
  by destruct (parse_config _ _ _).
Qed.

End Init.

(** ** The node: initialisation interleaved with callbacks

    [rospy.Subscriber] (line 42) makes [dispatch_callback] callable from
    rospy's receive thread while [__init__] goes on with [parse_config]
    (line 44); rospy runs the callbacks of one subscription one at a time.
    The phases are: before line 28 ([PInit]); subscribed, with the entries
    [rest] still to parse ([PParsing rest]); [__init__] finished and
    [rospy.spin()] running ([PReady]); shut down for lack of configuration
    ([PShutdown]); [__init__] raised ([PCrashed]). *)

Inductive Phase :=
  | PInit
  | PParsing (rest : list ActionConfig)
  | PReady
  | PShutdown
  | PCrashed (e : PyError).

Definition callbacks_enabled (ph : Phase) : bool :=
  match ph with PParsing _ | PReady => true | _ => false end.

Record Node (K : Type) := mkNode {
  n_proc : Proc ActionInterface K;
  n_self : AIM;
  n_phase : Phase
}.
Arguments mkNode {K} _ _ _.
Arguments n_proc {K} _.
Arguments n_self {K} _.
Arguments n_phase {K} _.

Definition after_parse (r : option PyError) (rest : list ActionConfig) : Phase :=
  match r with None => PParsing rest | Some e => PCrashed e end.

Section Node.
Context {K : Type} `{!KnowledgeBase K}.
Context (env : Env) (params : Params).

(** The steps of [__init__] (lines 27-46). *)
Inductive init_step : Node K → Node K → Prop :=
  | step_no_config p self :
      prm_actions params = None →
      init_step (mkNode p self PInit) (mkNode (exec (on_world config_not_found) p) self PShutdown)
  | step_subscribe p self cfgs :
      prm_actions params = Some cfgs →
      init_step (mkNode p self PInit) (mkNode p (init_attributes params cfgs) (PParsing cfgs))
  | step_parse p self pub a rest :
      aim_feedback_pub self = Some pub →
      init_step (mkNode p self (PParsing (a :: rest)))
        (mkNode (exec (on_dict (parse_entry pub a)) p) self
           (after_parse (fst (parse_entry pub a (p_action_interfaces p))) rest))
  | step_ready p self :
      init_step (mkNode p self (PParsing [])) (mkNode p self PReady).

(** A step of the node: one of [__init__], or one callback run by rospy's
    receive thread on a command it delivers. *)
Inductive node_step : Node K → Node K → Prop :=
  | step_init s s' : init_step s s' → node_step s s'
  | step_deliver p self ph msg :
      callbacks_enabled ph = true → is_Some (aim_subscription self) →
      node_step (mkNode p self ph) (mkNode (exec (dispatch_callback env self msg) p) self ph).

Definition node_init (p0 : Proc ActionInterface K) : Node K := mkNode p0 aim_fresh PInit.

Definition init_phase (r : option PyError) : Phase :=
  match r with None => PReady | Some e => PCrashed e end.

Lemma parsing_steps self pub cfgs p :
  aim_feedback_pub self = Some pub →
  rtc node_step (mkNode p self (PParsing cfgs))
    (mkNode (exec (on_dict (parse_config pub cfgs)) p) self
       (init_phase (fst (parse_config pub cfgs (p_action_interfaces p))))).
Proof.
  intros Hpub. revert p. induction cfgs as [|a cfgs IH]; intros p.
  { apply rtc_once. rewrite exec_on_dict. destruct p. by apply step_init, step_ready. }
  eapply rtc_l; [by apply step_init, step_parse|].
  rewrite !exec_on_dict. unfold exec. rewrite parse_config_cons.
  destruct (parse_entry pub a (p_action_interfaces p)) as [[e|] d'] eqn:He; simpl.
  - apply rtc_refl.
  - specialize (IH (mkProc d' (p_world p))). rewrite exec_on_dict in IH. exact IH.
Qed.

End Node.

Lemma dispatch_callback_dict {S} `{!ExecutionStrategy S} {K} `{!KnowledgeBase K} env self msg
    (p : Proc S K) :
  p_action_interfaces (exec (dispatch_callback env self msg) p) = p_action_interfaces p.
Proof.
  destruct (p_action_interfaces p !! name msg) as [ai|] eqn:Hai.
  - destruct (aim_feedback_pub self) as [pub|] eqn:Hpub.
    + by rewrite (dispatch_callback_registered env self msg p ai pub).
    + unfold dispatch_callback. rewrite exec_get_bind, Hai, Hpub, exec_on_world. done.
  - unfold exec. by rewrite dispatch_callback_unregistered.
Qed.

Section NodeTheorems.
Context {K : Type} `{!KnowledgeBase K}.
Context (env : Env) (params : Params).

(** The phase [__init__] ends in, given its result. *)
Definition init_result_phase (r : option PyError) : Phase :=
  match prm_actions params with None => PShutdown | Some _ => init_phase r end.

(** Without callbacks, the node's initialisation steps reproduce the
    constructor run to completion: the same process state (dictionary and
    trace), the same instance attributes, and the phase its result
    determines (shut down, ready, or crashed with the exception raised). *)
Theorem node_init_refines (p0 : Proc ActionInterface K) :
  rtc (node_step env params) (node_init p0)
    (mkNode (exec (aim_init params) p0) (fst (fst (aim_init params p0)))
       (init_result_phase (snd (fst (aim_init params p0))))).
Proof.
  unfold aim_init, init_result_phase. destruct (prm_actions params) as [cfgs|] eqn:Hcfg.
  - eapply rtc_l; [by apply step_init, step_subscribe|].
    unfold mbind, St_bind, on_dict, exec at 1. simpl.
    destruct (parse_config (feedback_topic_of params) cfgs (p_action_interfaces p0)) as [r d'] eqn:Hp.
    simpl.
    pose proof (parsing_steps env params (init_attributes params cfgs) (feedback_topic_of params) cfgs p0
                  eq_refl) as Hsteps.
    rewrite exec_on_dict in Hsteps. unfold exec in Hsteps. rewrite Hp in Hsteps. exact Hsteps.
  - apply rtc_once. rewrite exec_bind, exec_ret. unfold node_init. simpl.
    apply step_init, (step_no_config params p0 aim_fresh Hcfg).
Qed.

(** What holds in every state the node reaches from [node_init p0]. *)
Definition node_inv (p0 : Proc ActionInterface K) (s : Node K) : Prop :=
  match n_phase s with
  | PInit => s = node_init p0
  | PShutdown => prm_actions params = None ∧ n_self s = aim_fresh ∧
                 n_proc s = exec (on_world config_not_found) p0
  | ph => ∃ cfgs, prm_actions params = Some cfgs ∧ n_self s = init_attributes params cfgs ∧
          registry_inv (feedback_topic_of params) cfgs (p_action_interfaces p0)
            (p_action_interfaces (n_proc s)) ∧
          (∀ rest, ph = PParsing rest → ∃ pre, cfgs = pre ++ rest)
  end.

Lemma node_inv_step p0 s s' : node_step env params s s' → node_inv p0 s → node_inv p0 s'.
Proof.
  destruct 1 as [s s' [p self Hc|p self cfgs Hc|p self pub a rest Hpub|p self]|p self ph msg Hen Hsub];
    unfold node_inv; simpl.
  - intros [= -> ->]. done.
  - intros [= -> ->]. exists cfgs. split_and!; [done|done|apply registry_inv_refl|].
    intros ? [= <-]. by exists [].
  - intros (cfgs & Hc & -> & Hinv & Hpre). destruct (Hpre (a :: rest) eq_refl) as [pre ->].
    simpl in Hpub. simplify_eq.
    assert (Hinv' : registry_inv (feedback_topic_of params) (pre ++ a :: rest) (p_action_interfaces p0)
              (p_action_interfaces (exec (on_dict (parse_entry (feedback_topic_of params) a)) p))).
    { rewrite exec_on_dict. apply registry_inv_parse_entry; [set_solver|done]. }
    destruct (fst (parse_entry _ a _)); simpl; exists (pre ++ a :: rest); split_and!; try done.
    intros ? [= <-]. exists (pre ++ [a]). by rewrite <- app_assoc.
  - intros (cfgs & ? & ? & ? & _). by exists cfgs.
  - destruct ph; try done; intros (cfgs & ? & ? & Hinv & Hpre); exists cfgs;
      by rewrite dispatch_callback_dict.
Qed.

Lemma node_inv_reachable p0 s : rtc (node_step env params) (node_init p0) s → node_inv p0 s.
Proof.
  revert s. apply rtc_ind_r; [done|]. intros y z _ Hst Hy. by eapply node_inv_step.
Qed.

(** [C10] A node started without the [actions] parameter logs the error,
    requests shutdown, and then can do nothing more: its trace is the
    initial one plus these two events (no feedback published, no
    knowledge-base call), its dictionary is unchanged, and no step leaves
    this state. *)
Theorem node_shutdown_silent (p0 : Proc ActionInterface K) s :
  rtc (node_step env params) (node_init p0) s → n_phase s = PShutdown →
  w_trace (p_world (n_proc s)) =
    w_trace (p_world p0) ++ [EvLogErr "KCL: Error: configuration file was not laoded.";
                              EvShutdown "Config not found"] ∧
  p_action_interfaces (n_proc s) = p_action_interfaces p0 ∧
  ∀ s', ¬ node_step env params s s'.
Proof.
  intros Hr Hph. pose proof (node_inv_reachable p0 s Hr) as Hinv.
  unfold node_inv in Hinv. rewrite Hph in Hinv. destruct Hinv as (_ & _ & ->).
  rewrite exec_on_world. simpl. split_and!; [by rewrite <- app_assoc|done|].
  intros s' Hstep. destruct s as [ps ss phs]; simpl in Hph; subst phs.
  inversion Hstep as [? ? Hi|]; [inversion Hi|]; simpl in *; discriminate.
Qed.

(** [C11] In every reachable state, each interface in the shared dictionary
    was there at start-up or was built from an entry of the node's
    configuration: it is stored under its own action name and publishes on
    the node's feedback topic. *)
Theorem node_registry_from_config (p0 : Proc ActionInterface K) s k ai :
  rtc (node_step env params) (node_init p0) s →
  p_action_interfaces (n_proc s) !! k = Some ai →
  p_action_interfaces p0 !! k = Some ai ∨
  (k = ai_name ai ∧ ai_topic ai = feedback_topic_of params ∧
   ∃ cfgs a, prm_actions params = Some cfgs ∧ a ∈ cfgs ∧ build (feedback_topic_of params) a = Some (inr ai)).
Proof.
  intros Hr Hk. pose proof (node_inv_reachable p0 s Hr) as Hinv. unfold node_inv in Hinv.
  destruct (n_phase s) eqn:Hph.
  - subst s. by left.
  - destruct Hinv as (cfgs & Hc & _ & Hreg & _).
    destruct (Hreg k ai Hk) as [|(? & ? & a & ? & ?)]; [by left|right; eauto 10].
  - destruct Hinv as (cfgs & Hc & _ & Hreg & _).
    destruct (Hreg k ai Hk) as [|(? & ? & a & ? & ?)]; [by left|right; eauto 10].
  - destruct Hinv as (_ & _ & Hp). rewrite Hp, exec_on_world in Hk. by left.
  - destruct Hinv as (cfgs & Hc & _ & Hreg & _).
    destruct (Hreg k ai Hk) as [|(? & ? & a & ? & ?)]; [by left|right; eauto 10].
Qed.

(** [C2] Delivering a command whose action is not in the dictionary is a
    step of the node that changes nothing: no feedback is published, the
    knowledge base is not called, the dictionary and the phase stay. *)
Theorem node_unregistered_ignored s msg :
  callbacks_enabled (n_phase s) = true → is_Some (aim_subscription (n_self s)) →
  p_action_interfaces (n_proc s) !! name msg = None →
  node_step env params s (mkNode (exec (dispatch_callback env (n_self s) msg) (n_proc s)) (n_self s) (n_phase s)) ∧
  exec (dispatch_callback env (n_self s) msg) (n_proc s) = n_proc s.
Proof.
  intros Hen Hsub Hnone. split.
  - destruct s. by apply step_deliver.
  - unfold exec. by rewrite dispatch_callback_unregistered.
Qed.

End NodeTheorems.

Section Interleaving.
Context {K : Type} `{!KnowledgeBase K}.
Context (env : Env) (params : Params).

(** [C5] The subscription is made (line 42) before [parse_config] runs
    (line 44), so a command for a configured action that arrives in
    between is dropped: the node reaches a state where callbacks run but
    the command publishes nothing and calls nothing, while once parsing
    finishes (no command in between needed) the same action is registered. *)
Theorem early_command_dropped (p0 : Proc ActionInterface K) cfgs msg ai :
  prm_actions params = Some cfgs →
  p_action_interfaces p0 !! name msg = None →
  fst (parse_config (feedback_topic_of params) cfgs (p_action_interfaces p0)) = None →
  last (omap (named (feedback_topic_of params) (name msg)) cfgs) = Some ai →
  ∃ s1 s2,
    node_step env params (node_init p0) s1 ∧ callbacks_enabled (n_phase s1) = true ∧
    dispatch_callback env (n_self s1) msg (n_proc s1) = (tt, n_proc s1) ∧
    rtc (node_step env params) s1 s2 ∧ n_phase s2 = PReady ∧
    p_action_interfaces (n_proc s2) !! name msg = Some ai.
Proof.
  intros Hc Hnone Hok Hlast.
  set (s1 := mkNode p0 (init_attributes params cfgs) (PParsing cfgs)).
  pose proof (parsing_steps env params (init_attributes params cfgs) (feedback_topic_of params)
                cfgs p0 eq_refl) as Hsteps.
  eexists s1, _. split_and!.
  - by apply step_init, step_subscribe.
  - done.
  - by apply dispatch_callback_unregistered.
  - exact Hsteps.
  - simpl. by rewrite Hok.
  - simpl. rewrite exec_on_dict. unfold exec. simpl.
    rewrite (parse_config_lookup _ _ _ _ Hok). by rewrite Hlast.
Qed.

(** [C28] The dispatch topic is not required: when the parameter
    [~action_dispatch_topic] is missing, [__init__] does not fail but
    subscribes to ["default_dispatch_topic"] (line 41) and, once the
    configuration is parsed, the node is ready and handles commands there;
    specification section 6 makes the absence of the inbound command
    channel a fatal start-up condition. *)
Theorem node_dispatch_topic_defaults (p0 : Proc ActionInterface K) cfgs :
  prm_actions params = Some cfgs → prm_action_dispatch_topic params = None →
  fst (parse_config (feedback_topic_of params) cfgs (p_action_interfaces p0)) = None →
  ∃ s, rtc (node_step env params) (node_init p0) s ∧ n_phase s = PReady ∧
    aim_subscription (n_self s) = Some "default_dispatch_topic" ∧ callbacks_enabled (n_phase s) = true.
Proof.
  intros Hc Hnone Hok.
  pose proof (parsing_steps env params (init_attributes params cfgs) (feedback_topic_of params)
                cfgs p0 eq_refl) as Hsteps.
  eexists. split_and!.
  - eapply rtc_l; [by apply step_init, step_subscribe|]. exact Hsteps.
  - simpl. by rewrite Hok.
  - simpl. by rewrite Hnone.
  - simpl. by rewrite Hok.
Qed.

End Interleaving.

Section Aliasing.
Context {K : Type} `{!KnowledgeBase K}.
Context (env : Env).

(** [C4] The dictionary is a class attribute (line 19): when a second
    instance B is constructed in the same process after an instance A, the
    interfaces B parses are visible to A.  A then handles a command of an
    action only B's configuration names: A publishes
    ACTION_DISPATCHED_TO_GOAL_STATE on A's feedback topic, while the
    interface (built by B) publishes the command's terminal status on B's
    feedback topic. *)
Theorem shared_registry_aliasing paramsA paramsB (p0 : Proc ActionInterface K) cfgsA cfgsB msg ai :
  prm_actions paramsA = Some cfgsA → prm_actions paramsB = Some cfgsB →
  snd (fst (aim_init paramsB (exec (aim_init paramsA) p0))) = None →
  last (omap (named (feedback_topic_of paramsB) (name msg)) cfgsB) = Some ai →
  ∃ new fb,
    w_trace (p_world (exec (dispatch_callback env (fst (fst (aim_init paramsA p0))) msg)
                        (exec (aim_init paramsB) (exec (aim_init paramsA) p0)))) =
      w_trace (p_world (exec (aim_init paramsB) (exec (aim_init paramsA) p0))) ++ new ∧
    EvPublish (feedback_topic_of paramsA) (feedback_for msg ACTION_DISPATCHED_TO_GOAL_STATE) ∈ new ∧
    EvPublish (feedback_topic_of paramsB) fb ∈ new ∧ is_terminal (fb_status fb) = true.
Proof.
  intros HA HB Hok Hlast. unfold exec in *.
  rewrite (aim_init_config paramsA cfgsA p0 HA) in *. simpl in *.
  rewrite (aim_init_config paramsB cfgsB _ HB) in *. simpl in *.
  set (d2 := snd (parse_config (feedback_topic_of paramsB) cfgsB
                    (snd (parse_config (feedback_topic_of paramsA) cfgsA (p_action_interfaces p0))))).
  assert (Hp2 : d2 !! name msg = Some ai).
  { unfold d2. rewrite (parse_config_lookup _ _ _ _ Hok). by rewrite Hlast. }
  assert (Htopic : ai_topic ai = feedback_topic_of paramsB).
  { apply last_Some_elem_of in Hlast. apply list_elem_of_omap in Hlast as (a & _ & Hn).
    unfold named in Hn. destruct (build _ a) as [[|ai']|] eqn:Hb; try done.
    case_decide; simplify_eq. by apply build_inr in Hb as [_ ?]. }
  destruct (dispatch_callback_events env (init_attributes paramsA cfgsA) msg (mkProc d2 (p_world p0)) ai
              (feedback_topic_of paramsA) Hp2 eq_refl) as (rest & b & Htr & Hspec & _).
  destruct (run_spec_terminal_published _ _ _ _ Hspec) as (fb & Hin & Hterm & _).
  simpl in Hin. rewrite Htopic in Hin.
  eexists _, fb. split_and!; [exact Htr|set_solver|set_solver|done].
Qed.

End Aliasing.

(** ** Dispatching to each interface variant *)

Section Variants.
Context {K : Type} `{!KnowledgeBase K}.

Lemma dispatch_trace_registered env self msg (p : Proc ActionInterface K) ai pub :
  p_action_interfaces p !! name msg = Some ai → aim_feedback_pub self = Some pub →
  w_trace (p_world (exec (dispatch_callback env self msg) p)) =
    w_trace (exec (ai_run env ai msg) (dispatched_world pub msg (p_world p))).
Proof. intros Hai Hpub. by rewrite (dispatch_callback_registered env self msg p ai pub Hai Hpub). Qed.

(** The DISPATCHED feedback and the start effects, for [msg] from [w]. *)
Definition dispatch_prefix (pub : string) (msg : ActionDispatch) (w : World K) : list Event :=
  [EvPublish pub (feedback_for msg ACTION_DISPATCHED_TO_GOAL_STATE);
   EvApplyEffects (action_id msg) (plan_id msg) (name msg) 0
     (apply_ok msg 0 (exec (publish pub (feedback_for msg ACTION_DISPATCHED_TO_GOAL_STATE)) w))].

Lemma dispatch_emits env self msg (p : Proc ActionInterface K) ai pub new :
  p_action_interfaces p !! name msg = Some ai → aim_feedback_pub self = Some pub →
  emits (ai_run env ai msg) (dispatched_world pub msg (p_world p)) new →
  w_trace (p_world (exec (dispatch_callback env self msg) p)) =
    w_trace (p_world p) ++ dispatch_prefix pub msg (p_world p) ++ new.
Proof.
  intros Hai Hpub Hem. rewrite (dispatch_trace_registered env self msg p ai pub Hai Hpub), Hem.
  rewrite dispatched_world_trace. by rewrite <- app_assoc.
Qed.

(** [C14] A command for a service interface: after DISPATCHED and the
    start effects, the service is called once; on a successful response the
    end effects are applied strictly before SUCCEEDED is published on the
    interface's topic, otherwise FAILED is published and no end effects are
    applied. *)
Theorem dispatch_service_outcome env self msg (p : Proc ActionInterface K) sai pub :
  p_action_interfaces p !! name msg = Some (AIService sai) → aim_feedback_pub self = Some pub →
  ∃ ok,
    w_trace (p_world (exec (dispatch_callback env self msg) p)) =
      w_trace (p_world p) ++ dispatch_prefix pub msg (p_world p) ++
      EvRemote (action_id msg) (plan_id msg) (ReqCall (srv_service sai)) ::
      if bool_decide (env_service env (srv_service sai) msg = Some true)
      then [EvApplyEffects (action_id msg) (plan_id msg) (name msg) 1 ok;
            EvPublish (srv_topic sai) (feedback_for msg ACTION_SUCCEEDED_TO_GOAL_STATE)]
      else [EvPublish (srv_topic sai) (feedback_for msg ACTION_FAILED)].
Proof.
  intros Hai Hpub.
  destruct (service_run_outcome env sai msg (dispatched_world pub msg (p_world p)) _
              (service_run_emits env sai msg _)) as [ok Hnew].
  exists ok. rewrite <- Hnew.
  apply (dispatch_emits env self msg p (AIService sai) pub); [done|done|]. apply service_run_emits.
Qed.

(** [C15] A command for an actionlib interface whose server sends no final
    status and which receives no cancel request within the time-out: after DISPATCHED, the start effects and the
    goal, only intermediate statuses are published, then the goal is
    cancelled and FAILED is published; no end effects are applied. *)
Theorem dispatch_actionlib_timeout env self msg (p : Proc ActionInterface K) al pub :
  p_action_interfaces p !! name msg = Some (AIActionlib al) → aim_feedback_pub self = Some pub →
  Forall (λ r, remote_quiet r = true) (take (al_timeout al) (env_actionlib env (al_server al) msg)) →
  ∃ mids, Forall (progress_event (al_topic al) msg) mids ∧
    w_trace (p_world (exec (dispatch_callback env self msg) p)) =
      w_trace (p_world p) ++ dispatch_prefix pub msg (p_world p) ++
      EvRemote (action_id msg) (plan_id msg) (ReqGoal (al_server al)) ::
      mids ++ [EvRemote (action_id msg) (plan_id msg) (ReqCancel (al_server al));
               EvPublish (al_topic al) (feedback_for msg ACTION_FAILED)].
Proof.
  intros Hai Hpub Hnt.
  set (w1 := dispatched_world pub msg (p_world p)).
  destruct (actionlib_wait_timeout_events al msg (al_timeout al) false (env_actionlib env (al_server al) msg)
              (exec (remote msg (ReqGoal (al_server al))) w1) Hnt) as (mids & Hm & Hem).
  exists mids. split; [done|].
  apply (dispatch_emits env self msg p (AIActionlib al) pub); [done|done|].
  eapply emits_bind_cons; [apply emits_remote|exact Hem].
Qed.

(** [C16] Bounded waiting: the effect of dispatching a command to an
    actionlib interface depends on the server's statuses only up to the
    interface's time-out; two servers that agree on the first [al_timeout]
    statuses give the same process state. *)
Theorem dispatch_actionlib_bounded env env' self msg (p : Proc ActionInterface K) al :
  p_action_interfaces p !! name msg = Some (AIActionlib al) →
  take (al_timeout al) (env_actionlib env (al_server al) msg) =
    take (al_timeout al) (env_actionlib env' (al_server al) msg) →
  exec (dispatch_callback env self msg) p = exec (dispatch_callback env' self msg) p.
Proof.
  intros Hai Htake. destruct (aim_feedback_pub self) as [pub|] eqn:Hpub.
  - rewrite !(dispatch_callback_registered _ self msg p (AIActionlib al) pub Hai Hpub). simpl.
    unfold actionlib_run. rewrite (actionlib_wait_take _ _ _ _ (env_actionlib env _ _)), Htake.
    by rewrite <- actionlib_wait_take.
  - unfold dispatch_callback. by rewrite !exec_get_bind, Hai, Hpub.
Qed.

(** [C24] Cancellation from outside: when a cancel request arrives within
    the time-out, before any final status of the server, the interface
    passes it on to the server and the command ends with FAILED: the last
    status observed about it is ACTION_FAILED and its end effects are never
    applied, even when the server's acknowledgement is SUCCEEDED. *)
Theorem dispatch_actionlib_cancelled env self msg (p : Proc ActionInterface K) al pub pre post :
  p_action_interfaces p !! name msg = Some (AIActionlib al) → aim_feedback_pub self = Some pub →
  env_actionlib env (al_server al) msg = pre ++ RCancelRequest :: post →
  Forall (λ r, remote_quiet r = true) pre → length pre < al_timeout al →
  ∃ new,
    w_trace (p_world (exec (dispatch_callback env self msg) p)) =
      w_trace (p_world p) ++ dispatch_prefix pub msg (p_world p) ++
      EvRemote (action_id msg) (plan_id msg) (ReqGoal (al_server al)) :: new ∧
    EvRemote (action_id msg) (plan_id msg) (ReqCancel (al_server al)) ∈ new ∧
    last (observations (cmd_key msg) new) = Some (ObStatus ACTION_FAILED) ∧
    ObEffects 1 ∉ observations (cmd_key msg) new.
Proof.
  intros Hai Hpub Henv Hq Hlen.
  set (w1 := exec (remote msg (ReqGoal (al_server al))) (dispatched_world pub msg (p_world p))).
  destruct (actionlib_wait_spec al msg (al_timeout al) false (env_actionlib env (al_server al) msg) w1)
    as (new & [Hem _] & Hspec).
  rewrite Henv, actionlib_result_cancel_request in Hspec by done.
  destruct (actionlib_wait_cancel_sent al msg (al_timeout al) pre post w1 Hq Hlen) as (new' & Hem' & Hin).
  rewrite Henv in Hem. rewrite (emits_fun _ _ _ _ Hem Hem') in Hspec.
  exists new'. split; [|split; [done|by apply run_spec_failed_shape in Hspec]].
  apply (dispatch_emits env self msg p (AIActionlib al) pub); [done|done|].
  eapply emits_bind_cons; [apply emits_remote|]. simpl. unfold actionlib_run. rewrite Henv. exact Hem'.
Qed.

(** [C17] A command for a state-machine interface whose initial state's
    action yields an outcome with no transition: after DISPATCHED and the
    start effects, the action is called once and FAILED is published; the
    run stops there. *)
Theorem dispatch_fsm_missing_transition env self msg (p : Proc ActionInterface K) f pub st t :
  p_action_interfaces p !! name msg = Some (AIFSM f) → aim_feedback_pub self = Some pub →
  fsm_initial f ≠ fsm_success f → fsm_initial f ≠ fsm_fail f →
  fsm_states f !! fsm_initial f = Some st →
  fs_transitions st !! env_fsm env (fs_action st) msg = None →
  fsm_timeout f = S t →
  w_trace (p_world (exec (dispatch_callback env self msg) p)) =
    w_trace (p_world p) ++ dispatch_prefix pub msg (p_world p) ++
    [EvRemote (action_id msg) (plan_id msg) (ReqCall (fs_action st));
     EvPublish (fsm_topic f) (feedback_for msg ACTION_FAILED)].
Proof.
  intros Hai Hpub Hs Hf Hst Ht Hto.
  apply (dispatch_emits env self msg p (AIFSM f) pub); [done|done|].
  simpl. unfold fsm_run. rewrite Hto. by apply fsm_missing_transition_fails.
Qed.

(** [C18] A command for a state-machine interface ends with SUCCEEDED as
    its last status exactly when the machine's step relation leads from the
    initial state to the success state within the time-out's number of
    transitions. *)
Theorem dispatch_fsm_succeeds_iff env self msg (p : Proc ActionInterface K) f pub :
  p_action_interfaces p !! name msg = Some (AIFSM f) → aim_feedback_pub self = Some pub →
  ∃ new,
    w_trace (p_world (exec (dispatch_callback env self msg) p)) = w_trace (p_world p) ++ new ∧
    (last (observations (cmd_key msg) new) = Some (ObStatus ACTION_SUCCEEDED_TO_GOAL_STATE) ↔
     ∃ n, n ≤ fsm_timeout f ∧ nsteps (fsm_step f env msg) n (fsm_initial f) (fsm_success f)).
Proof.
  intros Hai Hpub.
  destruct (fsm_exec_spec f env msg (fsm_timeout f) (fsm_initial f)
              (dispatched_world pub msg (p_world p))) as (rest & [Hem _] & Hspec).
  exists (dispatch_prefix pub msg (p_world p) ++ rest). split.
  { by apply (dispatch_emits env self msg p (AIFSM f) pub). }
  destruct (dispatch_lifecycle pub msg
    (apply_ok msg 0 (exec (publish pub (feedback_for msg ACTION_DISPATCHED_TO_GOAL_STATE)) (p_world p)))
    rest _ _ Hspec) as [_ Hshape].
  destruct (lifecycle_shape_terminal _ _ Hshape) as [_ Hlast]. unfold dispatch_prefix.
  rewrite Hlast. split.
  - intros Hs. apply fsm_result_sound.
    by destruct (fsm_result f env msg (fsm_timeout f) (fsm_initial f)).
  - intros (n & Hn & Hsteps). by rewrite (fsm_result_steps f env msg n _ _ Hsteps Hn).
Qed.

(** [C19] Termination of the state-machine interface: when a ranking of
    the states decreases along every transition, any two time-outs above
    the initial state's rank make the callback produce the same world
    (trace and knowledge base). *)
Theorem dispatch_fsm_timeout_irrelevant env self msg (p : Proc ActionInterface K) f t' (rank : string → nat) :
  p_action_interfaces p !! name msg = Some (AIFSM f) →
  (∀ x y, fsm_step f env msg x y → rank y < rank x) →
  rank (fsm_initial f) < fsm_timeout f → rank (fsm_initial f) < t' →
  p_world (exec (dispatch_callback env self msg) p) =
  p_world (exec (dispatch_callback env self msg)
             (mkProc (<[name msg := AIFSM (mkFSMAI (fsm_action_name f) (fsm_states f) (fsm_initial f)
                                         (fsm_success f) (fsm_fail f) t' (fsm_topic f))]>
                        (p_action_interfaces p)) (p_world p))).
Proof.
  intros Hai Hrank H1 H2. set (f' := mkFSMAI _ _ _ _ _ t' _).
  set (p' := mkProc (<[name msg := AIFSM f']> (p_action_interfaces p)) (p_world p)).
  assert (Hai' : p_action_interfaces p' !! name msg = Some (AIFSM f')) by apply lookup_insert_eq.
  destruct (aim_feedback_pub self) as [pub|] eqn:Hpub.
  - rewrite (dispatch_callback_registered _ self msg p _ pub Hai Hpub).
    rewrite (dispatch_callback_registered _ self msg p' _ pub Hai' Hpub). simpl.
    unfold fsm_run. by rewrite (fsm_exec_fuel_irrelevant f env msg rank (fsm_timeout f) t' _ Hrank H1 H2).
  - unfold dispatch_callback. rewrite !exec_get_bind, Hai, Hai', Hpub.
    by rewrite !exec_on_world.
Qed.

End Variants.
