(* ===== verification/Transport.v ===== *)
(** * Transport: the dispatch subscription's receive queue

    [rospy.Subscriber(adt, ActionDispatch, self.dispatch_callback,
    queue_size=10)] (line 42) gives the node one connection per publisher
    of the dispatch topic, served by a receive thread of rospy.  That
    thread reads the messages waiting on the connection, keeps the newest
    [queue_size] of them (rospy's [deserialize_messages] drops the oldest
    message of its queue when the queue is full), and then calls
    [dispatch_callback] on each message of the batch, in order, to
    completion: [dispatch_callback] runs the interface inline (line 67), so
    the next command is not looked at before the current one has finished.
    The model has one publisher connection (the plan dispatcher).

    [QNode] is the node of [Manager] with the messages that arrived and are
    not read yet ([q_unread]), the batch read and not yet handled
    ([q_batch]), and three history lists that no step reads: every
    message that arrived, every message handed to [dispatch_callback], and
    every message dropped at a read.  [qstep] interleaves the steps of
    [__init__] ([init_step]) with arrivals, reads and callbacks.

    The theorems: every run of [qstep] is a run of [node_step] (so all
    theorems of [Manager] apply); the batch never holds more than
    [queue_size] messages; without losses, commands are handled in the
    order they arrived, each once; on the whole trace, what is observed
    about a handled command is nothing or a complete lifecycle, and what is
    observed about a command handled earlier all precedes what is observed
    about a command handled later; and a burst of [queue_size + 1]
    commands read at once loses the oldest: it is never handled and no
    feedback about it is ever published. *)

From S2P Require Import Prelude Messages Lifecycle KnowledgeBase World Strategy ServiceAI ActionlibAI FSMAI Interfaces Registry Manager.
From Stdlib Require Import ZArith.

(** [queue_size=10] of the dispatch subscription (line 42). *)
Definition dispatch_queue_size : nat := 10.

(** One message deserialized into the batch of a read: the oldest message
    of the batch is dropped first when the batch holds [qs] messages. *)
Definition push_bounded {A} (qs : nat) (q : list A) (m : A) : list A :=
  (if decide (length q = qs) then tail q else q) ++ [m].

(** The batch a read makes of the messages [ms] waiting on the connection. *)
Definition read_messages {A} (qs : nat) (ms : list A) : list A :=
  foldl (push_bounded qs) [] ms.

(** The messages such a read drops (not code: the history of the model). *)
Definition dropped_at_read {A} (qs : nat) (ms : list A) : list A :=
  take (length ms - qs) ms.

(** ** Callback blocks of a trace *)

(** The outcome of one callback: [None] when the command was not
    dispatched (its action was not registered), [Some b] when its
    lifecycle ran to SUCCEEDED ([b = true]) or FAILED. *)
Abbreviation Outcome := (option bool).

(** What one callback appends for [m] with outcome [ob]: events about [m]
    or about no command, among which the lifecycle observes nothing, or a
    complete lifecycle ending as [ob] says. *)
Definition block_ok (m : ActionDispatch) (ob : Outcome) (new : list Event) : Prop :=
  Forall (λ e, event_key e = None ∨ event_key e = Some (cmd_key m)) new ∧
  match ob with
  | None => observations (cmd_key m) new = []
  | Some b => lifecycle_shape (observations (cmd_key m) new) b
  end.

(** A trace made of events about no command and of the blocks of the
    callbacks on the commands of [os], in the order of [os]. *)
Inductive blocks : list (ActionDispatch * Outcome) → list Event → Prop :=
  | blocks_nil : blocks [] []
  | blocks_keyless os tr l :
      blocks os tr → Forall (λ e, event_key e = None) l → blocks os (tr ++ l)
  | blocks_callback os tr m ob new :
      blocks os tr → block_ok m ob new → blocks (os ++ [(m, ob)]) (tr ++ new).

(** ** Lemmas on reads *)

Lemma push_bounded_length {A} qs (q : list A) m :
  0 < qs → length q ≤ qs → length (push_bounded qs q m) ≤ qs.
Proof.
  intros ? ?. unfold push_bounded. case_decide; rewrite length_app; simpl.
  - destruct q; simpl in *; lia.
  - lia.
Qed.

Lemma foldl_push_bounded {A} qs (q ms : list A) :
  0 < qs → length q ≤ qs →
  foldl (push_bounded qs) q ms = drop (length (q ++ ms) - qs) (q ++ ms).
Proof.
  revert q. induction ms as [|m ms IH]; intros q Hqs Hq; simpl.
  - rewrite app_nil_r. by replace (length q - qs) with 0 by lia.
  - rewrite IH by first [done | by apply push_bounded_length]. unfold push_bounded.
    rewrite !length_app. case_decide as Hfull; simpl.
    + destruct q as [|x q]; simpl in *; [lia|].
      rewrite <- app_assoc. simpl.
      replace (length q + 1 + length ms - qs) with (length ms) by lia.
      replace (S (length q + S (length ms)) - qs) with (S (length ms)) by lia. done.
    + rewrite <- app_assoc. simpl. f_equal. lia.
Qed.

(** A read keeps the newest [qs] messages, in order. *)
Lemma read_messages_drop {A} qs (ms : list A) :
  0 < qs → read_messages qs ms = drop (length ms - qs) ms.
Proof. intros Hqs. unfold read_messages. rewrite foldl_push_bounded by (simpl; lia). done. Qed.

Lemma read_messages_length {A} qs (ms : list A) :
  0 < qs → length (read_messages qs ms) ≤ qs.
Proof. intros Hqs. rewrite read_messages_drop, length_drop by done. lia. Qed.

(** ** Lemmas on callback blocks *)

Lemma observe_key k e o : observe k e = Some o → event_key e = Some k.
Proof. destruct e; simpl; try case_decide; naive_solver. Qed.

(** The lifecycle of [k] observes nothing of events that are not about [k]. *)
Lemma observations_foreign k l :
  Forall (λ e, event_key e ≠ Some k) l → observations k l = [].
Proof.
  induction 1 as [|e l He _ IH]; [done|]. unfold observations in *. simpl.
  destruct (observe k e) eqn:Ho; [|done]. by apply observe_key in Ho.
Qed.

Lemma block_ok_foreign m ob new k : block_ok m ob new → cmd_key m ≠ k → observations k new = [].
Proof.
  intros [Hf _] Hk. apply observations_foreign. eapply Forall_impl; [exact Hf|].
  intros e [-> | ->]; congruence.
Qed.

Lemma keyless_silent k l : Forall (λ e, event_key e = None) l → observations k l = [].
Proof. intros H. apply observations_foreign. eapply Forall_impl; [exact H|]. congruence. Qed.

(** Nothing is observed about a command that no callback handled. *)
Lemma blocks_silent os tr k :
  blocks os tr → (∀ x, x ∈ os → cmd_key x.1 ≠ k) → observations k tr = [].
Proof.
  induction 1 as [|os tr l _ IH Hl|os tr m ob new _ IH Hok]; intros Hk.
  - done.
  - rewrite observations_app, IH, keyless_silent by done. done.
  - rewrite observations_app, IH, (block_ok_foreign m ob new k)
      by first [done | intros ? ?; apply Hk; set_solver | apply (Hk (m, ob)); set_solver]. done.
Qed.

(** Every event of such a trace is about no command or about a handled one. *)
Lemma blocks_keys os tr :
  blocks os tr → Forall (λ e, event_key e = None ∨ ∃ x, x ∈ os ∧ event_key e = Some (cmd_key x.1)) tr.
Proof.
  induction 1 as [|os tr l _ IH Hl|os tr m ob new _ IH [Hok _]]; [constructor| |]; apply Forall_app; split.
  - exact IH.
  - eapply Forall_impl; [exact Hl|]. by left.
  - eapply Forall_impl; [exact IH|]. intros e [He|(x & Hx & He)]; [by left|right].
    exists x. split; [set_solver|done].
  - eapply Forall_impl; [exact Hok|]. intros e [He|He]; [by left|right]. exists (m, ob). split; [set_solver|done].
Qed.

(** Splitting the callbacks splits the trace: what follows the first part
    observes nothing about a command the second part does not handle. *)
Lemma blocks_split os tr o1 o2 :
  blocks os tr → os = o1 ++ o2 →
  ∃ t1 t2, tr = t1 ++ t2 ∧ blocks o1 t1 ∧
    ∀ k, (∀ x, x ∈ o2 → cmd_key x.1 ≠ k) → observations k t2 = [].
Proof.
  intros Hb. revert o1 o2. induction Hb as [|os tr l Hb IH Hl|os tr m ob new Hb IH Hok]; intros o1 o2 Heq.
  - symmetry in Heq. apply app_nil in Heq as [-> ->]. exists [], []. split_and!; [done|constructor|done].
  - destruct (IH o1 o2 Heq) as (t1 & t2 & -> & Hb1 & Hs). exists t1, (t2 ++ l).
    split_and!; [by rewrite app_assoc|done|].
    intros k Hk. by rewrite observations_app, Hs, keyless_silent.
  - destruct (decide (o2 = [])) as [->|Hne]; [|destruct (exists_last Hne) as (o2' & x & ->)].
    + rewrite app_nil_r in Heq. subst o1. exists (tr ++ new), []. split_and!; [by rewrite app_nil_r|by constructor|done].
    + rewrite app_assoc in Heq. apply app_inj_tail in Heq as [Heq <-].
      destruct (IH o1 o2' Heq) as (t1 & t2 & -> & Hb1 & Hs). exists t1, (t2 ++ new).
      split_and!; [by rewrite app_assoc|done|].
      intros k Hk. rewrite observations_app, Hs, (block_ok_foreign m ob new k); [done|done| |].
      * apply (Hk (m, ob)). set_solver.
      * intros x ?. apply Hk. set_solver.
Qed.

(** With distinct command keys, the lifecycle of a handled command sees
    only its own callback's block, which ends as its outcome says. *)
Lemma blocks_lifecycle os tr m ob :
  blocks os tr → NoDup ((λ x, cmd_key x.1) <$> os) → (m, ob) ∈ os →
  match ob with
  | None => observations (cmd_key m) tr = []
  | Some b => lifecycle_shape (observations (cmd_key m) tr) b
  end.
Proof.
  induction 1 as [|os tr l _ IH Hl|os tr m' ob' new Hb IH Hok]; intros Hnd Hm.
  - set_solver.
  - rewrite observations_app, (keyless_silent _ l), app_nil_r by done. by apply IH.
  - rewrite fmap_app, NoDup_app in Hnd. destruct Hnd as (Hnd & Hdisj & _).
    destruct (decide (cmd_key m' = cmd_key m)) as [Hk|Hk].
    + assert (Hnot : ∀ x, x ∈ os → cmd_key x.1 ≠ cmd_key m').
      { intros x Hx Heq. apply (Hdisj (cmd_key x.1)); [by apply (list_elem_of_fmap_2 (λ x, cmd_key x.1))|].
        rewrite Heq. simpl. by apply list_elem_of_singleton. }
      apply elem_of_app in Hm as [Hm|Hm%list_elem_of_singleton].
      * destruct (Hnot _ Hm). by rewrite Hk.
      * injection Hm as <- <-. rewrite observations_app, (blocks_silent os tr (cmd_key m)) by done.
        by destruct Hok as [_ Hok].
    + rewrite observations_app, (block_ok_foreign m' ob' new), app_nil_r by done.
      apply IH; [done|]. apply elem_of_app in Hm as [Hm|Hm%list_elem_of_singleton]; [done|simplify_eq].
Qed.

(** ** The node with its receive queue *)

Record QNode (K : Type) := mkQNode {
  q_node : Node K;
  q_unread : list ActionDispatch;
  q_batch : list ActionDispatch;
  q_arrived : list ActionDispatch;
  q_handled : list ActionDispatch;
  q_lost : list ActionDispatch
}.
Arguments mkQNode {K} _ _ _ _ _ _.
Arguments q_node {K} _.
Arguments q_unread {K} _.
Arguments q_batch {K} _.
Arguments q_arrived {K} _.
Arguments q_handled {K} _.
Arguments q_lost {K} _.

Section Receive.
Context {K : Type} `{!KnowledgeBase K}.
Context (env : Env) (params : Params).

(** The steps of [__init__], a command arriving on the subscription, a read
    of the receive thread, and one callback of the receive thread. *)
Inductive qstep : QNode K → QNode K → Prop :=
  | qstep_init n n' ub ba ar hd lo :
      init_step params n n' →
      qstep (mkQNode n ub ba ar hd lo) (mkQNode n' ub ba ar hd lo)
  | qstep_arrive n ub ba ar hd lo m :
      callbacks_enabled (n_phase n) = true → is_Some (aim_subscription (n_self n)) →
      qstep (mkQNode n ub ba ar hd lo) (mkQNode n (ub ++ [m]) ba (ar ++ [m]) hd lo)
  | qstep_read n pre rest ar hd lo :
      callbacks_enabled (n_phase n) = true → pre ≠ [] →
      qstep (mkQNode n (pre ++ rest) [] ar hd lo)
        (mkQNode n rest (read_messages dispatch_queue_size pre) ar hd
           (lo ++ dropped_at_read dispatch_queue_size pre))
  | qstep_callback p self ph m ub ba ar hd lo :
      callbacks_enabled ph = true → is_Some (aim_subscription self) →
      qstep (mkQNode (mkNode p self ph) ub (m :: ba) ar hd lo)
        (mkQNode (mkNode (exec (dispatch_callback env self m) p) self ph) ub ba ar (hd ++ [m]) lo).

Definition qnode_init (p0 : Proc ActionInterface K) : QNode K := mkQNode (node_init p0) [] [] [] [] [].

(** The messages not lost, in the order the receive thread takes them. *)
Definition q_pending (s : QNode K) : list ActionDispatch := q_handled s ++ q_batch s ++ q_unread s.

(** The knowledge base after one command with outcome [ob]: nothing for a
    command not dispatched; otherwise its start effects, then its end
    effects if it succeeded. *)
Definition apply_outcome (m : ActionDispatch) (ob : Outcome) (kb : K) : K :=
  match ob with
  | None => kb
  | Some b =>
      let kb0 := (kb_apply_action_effects m 0 kb).2 in
      if b then (kb_apply_action_effects m 1 kb0).2 else kb0
  end.

(** The commands one after another, in order. *)
Definition apply_outcomes (os : list (ActionDispatch * Outcome)) (kb : K) : K :=
  foldl (λ kb x, apply_outcome x.1 x.2 kb) kb os.

Definition q_inv (p0 : Proc ActionInterface K) (s : QNode K) : Prop :=
  length (q_batch s) ≤ dispatch_queue_size ∧
  q_pending s `sublist_of` q_arrived s ∧
  q_pending s ++ q_lost s ≡ₚ q_arrived s ∧
  ∃ tl os, w_trace (p_world (n_proc (q_node s))) = w_trace (p_world p0) ++ tl ∧
    fst <$> os = q_handled s ∧ blocks os tl ∧
    w_kb (p_world (n_proc (q_node s))) = apply_outcomes os (w_kb (p_world p0)).

End Receive.

(** ** What each step does to the trace *)

Section StepLemmas.
Context {K : Type} `{!KnowledgeBase K}.

(** The steps of [__init__] append only events about no command and leave
    the knowledge base as it is. *)
Lemma init_step_keyless params (s s' : Node K) :
  init_step params s s' →
  ∃ l, w_trace (p_world (n_proc s')) = w_trace (p_world (n_proc s)) ++ l ∧
       Forall (λ e, event_key e = None) l ∧ w_kb (p_world (n_proc s')) = w_kb (p_world (n_proc s)).
Proof.
  destruct 1 as [p self Hc|p self cfgs Hc|p self pub a rest Hpub|p self]; cbn [n_proc];
    try (exists []; split_and!; [by rewrite app_nil_r|constructor|done]).
  - rewrite exec_on_world. cbn [p_world]. eexists. split_and!.
    + assert (Hem : emits config_not_found (p_world p)
                      [EvLogErr "KCL: Error: configuration file was not laoded."; EvShutdown "Config not found"])
        by solve_emits.
      exact Hem.
    + by repeat constructor.
    + done.
  - rewrite exec_on_dict. exists []. split_and!; [by rewrite app_nil_r|constructor|done].
Qed.

(** One callback appends one block, and changes the knowledge base as its
    outcome says. *)
Lemma dispatch_callback_block {S} `{!ExecutionStrategy S} env self msg (p : Proc S K) :
  ∃ new ob, w_trace (p_world (exec (dispatch_callback env self msg) p)) = w_trace (p_world p) ++ new ∧
    block_ok msg ob new ∧
    w_kb (p_world (exec (dispatch_callback env self msg) p)) = apply_outcome msg ob (w_kb (p_world p)).
Proof.
  destruct (p_action_interfaces p !! name msg) as [ai|] eqn:Hai.
  - destruct (aim_feedback_pub self) as [pub|] eqn:Hpub.
    + destruct (dispatch_callback_kb env self msg p ai pub Hai Hpub) as (new & b & Htr & Hab & Hshape & Hkb).
      exists new, (Some b). split_and!; [exact Htr|split; [|exact Hshape]|].
      * eapply Forall_impl; [exact Hab|]. by right.
      * rewrite Hkb, dispatched_world_kb. by destruct b.
    + unfold dispatch_callback. rewrite exec_get_bind, Hai, Hpub, exec_on_world. simpl.
      eexists _, None. split_and!; [exact (emits_emit _ (p_world p))|split; [by repeat constructor|done]|done].
  - exists [], None. unfold exec. rewrite dispatch_callback_unregistered by done.
    split_and!; [by rewrite app_nil_r|split; [constructor|done]|done].
Qed.

End StepLemmas.

(** ** The receive queue refines the node and keeps its invariant *)

Section QueueLemmas.
Context {K : Type} `{!KnowledgeBase K}.
Context (env : Env) (params : Params).

Lemma qsteps_node (s s' : QNode K) :
  rtc (qstep env params) s s' → rtc (node_step env params) (q_node s) (q_node s').
Proof.
  induction 1 as [|x y z Hxy _ IH]; [done|]. etrans; [|exact IH].
  destruct Hxy; simpl; try done; apply rtc_once; [by apply step_init|by apply step_deliver].
Qed.

Lemma q_inv_init (p0 : Proc ActionInterface K) : q_inv p0 (qnode_init p0).
Proof.
  split_and!; simpl; [lia|done|done|]. exists [], []. split_and!; [by rewrite app_nil_r|done|constructor|done].
Qed.

Lemma q_inv_step p0 (s s' : QNode K) : qstep env params s s' → q_inv p0 s → q_inv p0 s'.
Proof.
  destruct 1 as [n n' ub ba ar hd lo Hi|n ub ba ar hd lo m Hen Hsub|n pre rest ar hd lo Hen Hne
                |p self ph m ub ba ar hd lo Hen Hsub];
    unfold q_inv, q_pending; simpl; intros (Hlen & Hsl & Hperm & tl & os & Htr & Hos & Hb & Hkb).
  - destruct (init_step_keyless _ _ _ Hi) as (l & Htr' & Hl & Hkb').
    split_and!; try done. exists (tl ++ l), os. rewrite Htr', Htr, Hkb', app_assoc.
    split_and!; [done|done|by constructor|done].
  - split_and!; [done| | |by exists tl, os].
    + rewrite !app_assoc in *. by apply sublist_app.
    + rewrite <- Hperm. solve_Permutation.
  - rewrite read_messages_drop by (unfold dispatch_queue_size; lia). unfold dropped_at_read.
    remember (length pre - dispatch_queue_size) as d eqn:Hd.
    split_and!; [rewrite length_drop; unfold dispatch_queue_size in *; lia| | |by exists tl, os].
    + etrans; [|exact Hsl]. apply sublist_app; [done|]. apply sublist_app; [apply sublist_drop|done].
    + rewrite <- (take_drop d pre) in Hperm. rewrite <- Hperm. solve_Permutation.
  - split_and!; [simpl in Hlen; lia|by rewrite <- (app_assoc hd [m])|by rewrite <- (app_assoc hd [m])|].
    destruct (dispatch_callback_block env self m p) as (new & ob & Hnew & Hok & Hkb').
    exists (tl ++ new), (os ++ [(m, ob)]). rewrite Hnew, Htr, Hkb', Hkb, app_assoc, fmap_app, Hos.
    split_and!; [done|done|by constructor|]. unfold apply_outcomes. by rewrite foldl_app.
Qed.

Lemma q_inv_reachable p0 (s : QNode K) : rtc (qstep env params) (qnode_init p0) s → q_inv p0 s.
Proof.
  revert s. apply rtc_ind_r; [apply q_inv_init|]. intros y z _ Hst Hy. by eapply q_inv_step.
Qed.

Lemma q_subscribed p0 (s : QNode K) :
  rtc (qstep env params) (qnode_init p0) s → callbacks_enabled (n_phase (q_node s)) = true →
  is_Some (aim_subscription (n_self (q_node s))).
Proof.
  intros Hr Hen. pose proof (node_inv_reachable env params p0 _ (qsteps_node _ _ Hr)) as Hinv.
  unfold node_inv in Hinv. destruct (n_phase (q_node s)); try done;
    destruct Hinv as (cfgs & _ & -> & _); by eexists.
Qed.

Lemma qsteps_lost (s s' : QNode K) : rtc (qstep env params) s s' → ∃ l, q_lost s' = q_lost s ++ l.
Proof.
  induction 1 as [|x y z Hxy _ (l & Hl)]; [exists []; by rewrite app_nil_r|].
  destruct Hxy; simpl in *; rewrite Hl; try (by eexists); rewrite <- app_assoc; by eexists.
Qed.

Lemma qsteps_arrive n ub ba ar hd lo ms :
  callbacks_enabled (n_phase n) = true → is_Some (aim_subscription (n_self n)) →
  rtc (qstep env params) (mkQNode n ub ba ar hd lo) (mkQNode n (ub ++ ms) ba (ar ++ ms) hd lo).
Proof.
  intros Hen Hsub. revert ub ar. induction ms as [|m ms IH]; intros ub ar.
  - by rewrite !app_nil_r.
  - eapply rtc_l; [by apply qstep_arrive|].
    specialize (IH (ub ++ [m]) (ar ++ [m])). by rewrite <- !app_assoc in IH.
Qed.

Lemma qsteps_batch p self ph ub ba ar hd lo :
  callbacks_enabled ph = true → is_Some (aim_subscription self) →
  ∃ p', rtc (qstep env params) (mkQNode (mkNode p self ph) ub ba ar hd lo)
          (mkQNode (mkNode p' self ph) ub [] ar (hd ++ ba) lo).
Proof.
  intros Hen Hsub. revert p hd. induction ba as [|m ba IH]; intros p hd.
  - exists p. by rewrite app_nil_r.
  - destruct (IH (exec (dispatch_callback env self m) p) (hd ++ [m])) as (p' & Hs).
    exists p'. eapply rtc_l; [by apply qstep_callback|]. by rewrite <- app_assoc in Hs.
Qed.

End QueueLemmas.

(** ** Theorems *)

Section QueueTheorems.
Context {K : Type} `{!KnowledgeBase K}.
Context (env : Env) (params : Params).

(** Refinement of the node model: each step of the node with its
    receive queue is a step of [node_step] (a step of [__init__], or the
    callback on the message at the head of the batch) or leaves the node
    as it is (an arrival, a read); so every state the queued node reaches
    is one [node_step] reaches, and the theorems on reachable nodes hold
    for it. *)
Theorem qstep_refines_node_step (s s' : QNode K) :
  qstep env params s s' → q_node s' = q_node s ∨ node_step env params (q_node s) (q_node s').
Proof. destruct 1; simpl; [right; by apply step_init|by left|by left|right; by apply step_deliver]. Qed.

(** [C20] The batch the receive thread works through never holds more than
    [queue_size] = 10 commands. *)
Theorem queue_batch_bound p0 (s : QNode K) :
  rtc (qstep env params) (qnode_init p0) s → length (q_batch s) ≤ dispatch_queue_size.
Proof. intros Hr. by destruct (q_inv_reachable env params p0 s Hr). Qed.

(** Without losses, the commands come out in the order they arrived,
    each once: those already handled, then the batch, then those not read
    yet, make up exactly the commands that arrived. *)
Theorem queue_fifo p0 (s : QNode K) :
  rtc (qstep env params) (qnode_init p0) s → q_lost s = [] →
  q_handled s ++ q_batch s ++ q_unread s = q_arrived s.
Proof.
  intros Hr Hlost. destruct (q_inv_reachable env params p0 s Hr) as (_ & Hsl & Hperm & _).
  rewrite Hlost, app_nil_r in Hperm. apply sublist_length_eq; [exact Hsl|].
  apply Permutation_length in Hperm. unfold q_pending in Hperm. lia.
Qed.

(** [C21] Sequential consistency of the whole run: with distinct
    (action_id, plan_id) among the handled commands, each handled command
    has an outcome (not dispatched, or a lifecycle ending in SUCCEEDED or
    FAILED) such that, on the node's whole trace, what is observed about
    the command is nothing or that complete lifecycle, and the knowledge
    base is the initial one with the commands' effects applied one command
    after another, in the order they were handled, each as its outcome
    says: start effects, then end effects exactly on success. *)
Theorem queue_sequential_consistency p0 (s : QNode K) :
  rtc (qstep env params) (qnode_init p0) s → w_trace (p_world p0) = [] →
  NoDup (cmd_key <$> q_handled s) →
  ∃ os, fst <$> os = q_handled s ∧
    w_kb (p_world (n_proc (q_node s))) = apply_outcomes os (w_kb (p_world p0)) ∧
    ∀ m ob, (m, ob) ∈ os →
      match ob with
      | None => observations (cmd_key m) (w_trace (p_world (n_proc (q_node s)))) = []
      | Some b => lifecycle_shape (observations (cmd_key m) (w_trace (p_world (n_proc (q_node s))))) b
      end.
Proof.
  intros Hr H0 Hnd. destruct (q_inv_reachable env params p0 s Hr) as (_ & _ & _ & tl & os & Htr & Hos & Hb & Hkb).
  exists os. split_and!; [done|done|]. intros m ob Hm. rewrite Htr, H0. simpl.
  apply (blocks_lifecycle os); [done| |done]. rewrite <- Hos, <- list_fmap_compose in Hnd. exact Hnd.
Qed.

(** [C22] The callbacks are not interleaved: for two commands with
    distinct keys, one handled before the other, the trace splits in two,
    the first part observing nothing about the later command and the
    second nothing about the earlier one; a later command's
    ACTION_DISPATCHED_TO_GOAL_STATE waits for the earlier one's terminal
    status, however long its interface runs. *)
Theorem queue_commands_serialised p0 (s : QNode K) h1 h2 m1 m2 :
  rtc (qstep env params) (qnode_init p0) s → w_trace (p_world p0) = [] →
  NoDup (cmd_key <$> q_handled s) → q_handled s = h1 ++ h2 → m1 ∈ h1 → m2 ∈ h2 →
  ∃ t1 t2, w_trace (p_world (n_proc (q_node s))) = t1 ++ t2 ∧
    observations (cmd_key m2) t1 = [] ∧ observations (cmd_key m1) t2 = [].
Proof.
  intros Hr H0 Hnd Hs Hm1 Hm2.
  destruct (q_inv_reachable env params p0 s Hr) as (_ & _ & _ & tl & os & Htr & Hos & Hb & _).
  rewrite Hs in Hos, Hnd. apply fmap_app_inv in Hos as (o1 & o2 & -> & -> & ->).
  destruct (blocks_split _ _ o1 o2 Hb eq_refl) as (t1 & t2 & -> & Hb1 & Hsilent).
  rewrite fmap_app, NoDup_app in Hnd. destruct Hnd as (_ & Hdisj & _).
  exists t1, t2. rewrite Htr, H0. split_and!; [done| |].
  - apply (blocks_silent o1); [done|]. intros x Hx Heq.
    apply (Hdisj (cmd_key x.1)); [by apply list_elem_of_fmap_2, list_elem_of_fmap_2|].
    rewrite Heq. by apply list_elem_of_fmap_2.
  - apply Hsilent. intros x Hx Heq.
    apply (Hdisj (cmd_key m1)); [by apply list_elem_of_fmap_2|].
    rewrite <- Heq. by apply list_elem_of_fmap_2, list_elem_of_fmap_2.
Qed.

(** [C27] Well-formedness of the node's trace: every event that names a
    command (a feedback message, an effect application, a request to a
    remote actor) carries the (action_id, plan_id) of a command that was
    handed to [dispatch_callback]; start-up only logs.  No feedback is ever
    published about a command the node did not receive and handle. *)
Theorem queue_trace_wellformed p0 (s : QNode K) e :
  rtc (qstep env params) (qnode_init p0) s → w_trace (p_world p0) = [] →
  e ∈ w_trace (p_world (n_proc (q_node s))) →
  event_key e = None ∨ ∃ m, m ∈ q_handled s ∧ event_key e = Some (cmd_key m).
Proof.
  intros Hr H0 He. destruct (q_inv_reachable env params p0 s Hr) as (_ & _ & _ & tl & os & Htr & Hos & Hb & _).
  rewrite Htr, H0 in He. simpl in He. pose proof (blocks_keys _ _ Hb) as Hk.
  rewrite Forall_forall in Hk. destruct (Hk e He) as [|(x & Hx & Hkey)]; [by left|right].
  exists x.1. split; [|done]. rewrite <- Hos. by apply list_elem_of_fmap_2.
Qed.

(** Progress of the receive thread: from any reachable state where
    callbacks run, the thread can handle everything pending without any
    new arrival: the batch first, then, after one read, the newest
    [queue_size] of the messages waiting on the connection, in order. *)
Theorem queue_drains p0 (s : QNode K) :
  rtc (qstep env params) (qnode_init p0) s → callbacks_enabled (n_phase (q_node s)) = true →
  ∃ s', rtc (qstep env params) s s' ∧ q_unread s' = [] ∧ q_batch s' = [] ∧
    q_arrived s' = q_arrived s ∧
    q_handled s' = q_handled s ++ q_batch s ++ read_messages dispatch_queue_size (q_unread s).
Proof.
  intros Hr Hen. pose proof (q_subscribed env params p0 s Hr Hen) as Hsub.
  destruct s as [[p self ph] ub ba ar hd lo]; simpl in *.
  destruct (qsteps_batch env params p self ph ub ba ar hd lo Hen Hsub) as (p1 & H1).
  destruct ub as [|u ub].
  - exists (mkQNode (mkNode p1 self ph) [] [] ar (hd ++ ba) lo). split_and!; try done.
    change (read_messages dispatch_queue_size []) with (@nil ActionDispatch). by rewrite app_nil_r.
  - destruct (qsteps_batch env params p1 self ph [] (read_messages dispatch_queue_size (u :: ub)) ar (hd ++ ba)
                (lo ++ dropped_at_read dispatch_queue_size (u :: ub)) Hen Hsub) as (p2 & H2).
    exists (mkQNode (mkNode p2 self ph) [] [] ar ((hd ++ ba) ++ read_messages dispatch_queue_size (u :: ub))
              (lo ++ dropped_at_read dispatch_queue_size (u :: ub))).
    split_and!; [|done|done|done|by rewrite app_assoc].
    etrans; [exact H1|]. eapply rtc_l; [|exact H2].
    rewrite <- (app_nil_r (u :: ub)) at 1. by apply qstep_read.
Qed.

(** [C23] The receive thread's read keeps only the newest [queue_size]
    commands: when [queue_size + 1] commands arrive while nothing is
    pending (for instance while one interface is still running, since the
    callback runs it inline), and the thread reads them at once, the oldest
    is dropped.  That command is never handed to [dispatch_callback] and,
    as long as command keys are distinct, no feedback about it is ever
    published: no terminal status, contrary to specification section 3. *)
Theorem queue_overflow_loses_command p0 (s : QNode K) ms m0 :
  rtc (qstep env params) (qnode_init p0) s → w_trace (p_world p0) = [] →
  callbacks_enabled (n_phase (q_node s)) = true → q_unread s = [] → q_batch s = [] →
  length ms = S dispatch_queue_size → head ms = Some m0 →
  ∃ s1, rtc (qstep env params) s s1 ∧ m0 ∈ q_lost s1 ∧
    ∀ s', rtc (qstep env params) s1 s' → NoDup (cmd_key <$> q_arrived s') →
      (m0 ∉ q_handled s') ∧ observations (cmd_key m0) (w_trace (p_world (n_proc (q_node s')))) = [].
Proof.
  intros Hr H0 Hen Hub Hba Hlen Hhd.
  pose proof (q_subscribed env params p0 s Hr Hen) as Hsub.
  destruct s as [n ub ba ar hd lo]; simpl in *; subst ub ba.
  assert (Hdrop : m0 ∈ dropped_at_read dispatch_queue_size ms).
  { destruct ms as [|x ms']; [done|]. simpl in Hhd. injection Hhd as ->. unfold dropped_at_read.
    rewrite Hlen, Nat.sub_succ_l, Nat.sub_diag by lia. simpl. set_solver. }
  set (s1 := mkQNode n [] (read_messages dispatch_queue_size ms) (ar ++ ms) hd
               (lo ++ dropped_at_read dispatch_queue_size ms)).
  assert (Hs1 : rtc (qstep env params) (mkQNode n [] [] ar hd lo) s1).
  { etrans; [apply (qsteps_arrive env params n [] [] ar hd lo ms Hen Hsub)|].
    apply rtc_once. simpl. rewrite <- (app_nil_r ms) at 1.
    apply qstep_read; [done|]. intros ->. done. }
  exists s1. split_and!; [exact Hs1|simpl; set_solver|].
  intros s' Hr' Hnd.
  assert (Hall : rtc (qstep env params) (qnode_init p0) s') by (by do 2 (etrans; [eassumption|])).
  destruct (q_inv_reachable env params p0 s' Hall) as (_ & Hsl & Hperm & tl & os & Htr & Hos & Hb & _).
  destruct (qsteps_lost env params _ _ Hr') as [l Hl]. simpl in Hl.
  assert (Hlost : m0 ∈ q_lost s') by (rewrite Hl; set_solver).
  pose proof (NoDup_fmap_1 _ _ Hnd) as Hnd'. rewrite <- Hperm, NoDup_app in Hnd'.
  destruct Hnd' as (_ & Hdisj & _).
  assert (Hnh : m0 ∉ q_handled s').
  { intros Hin. apply (Hdisj m0); [unfold q_pending; set_solver|exact Hlost]. }
  split; [done|]. rewrite Htr, H0. simpl. apply (blocks_silent os); [done|].
  intros x Hx Heq. assert (Hm : x.1 ∈ q_handled s') by (rewrite <- Hos; by apply list_elem_of_fmap_2).
  apply Hnh. enough (x.1 = m0) as <- by done.
  apply (NoDup_fmap_inj_on cmd_key (q_arrived s')); [done| | |done].
  - apply (sublist_subseteq _ _ Hsl). unfold q_pending. set_solver.
  - rewrite <- Hperm. set_solver.
Qed.

End QueueTheorems.
