(* ===== verification/Concurrency.v ===== *)
(** * Concurrency: callbacks of several publisher connections, interleaved

    [rospy.Subscriber] (line 42) serves every publisher connection of the
    dispatch topic with a receive thread of its own, and each thread calls
    [dispatch_callback] on the messages of its connection, one after the
    other ([Transport] models one such thread).  Two connections (two
    dispatchers, or a dispatcher and a [rostopic pub]) therefore run their
    callbacks concurrently, and the specification (section 5) allows it:
    "two different ActionCommands ... may execute concurrently; the core
    provides no cross-command serialization".

    A callback is cut at its observable effects: each publication, remote
    request, log line and knowledge-base request is one atomic action
    ([Act]): a [publish] or a ROS service call is one request to a remote
    party, and the interpreter may switch threads between two of them.
    [ai_steps] lists the atomic actions of an interface's [run],
    [callback_thread] those of one [dispatch_callback]; the interface's
    control flow depends on the replies of the remote parties only ([Env]),
    never on the knowledge base, so these lists are fixed before the run,
    and running them is running the code ([ai_steps_exec],
    [callback_thread_exec]).  The dictionary is read-only once [__init__]
    has returned (specification 5), so every thread reads the same one.

    A scheduler picks, at each step, the thread that performs its next
    action: [interleave] runs a schedule (a list of thread indices) and
    returns the actions in the order they ran, each tagged with its thread.
    The theorems: a complete schedule performs every action of every thread
    once, each thread's in its own order (a lemma of the scheduler);
    whatever the schedule, what the lifecycle observes of each command on
    the shared trace is what it observes when that callback runs alone, so
    each registered command still has a complete lifecycle; the commands
    of one connection stay serialised; and when the store's applications
    for commands of different connections commute, the knowledge base
    after any schedule is each command's outcome ([callback_outcome]:
    start effects, then end effects exactly on success) applied one
    command after another.  Without that contract the knowledge base of
    an interleaving need not be that of any serial order ([Scenarios]). *)

From S2P Require Import Prelude Messages Lifecycle KnowledgeBase World Strategy ServiceAI ActionlibAI FSMAI Interfaces Registry Manager Transport.
From Stdlib Require Import ZArith.

(** ** Atomic actions *)

Inductive Act :=
  | AEmit (ev : Event)
  | AApply (cmd : ActionDispatch) (effect_time : Z).

Section Exec.
Context {K : Type} `{!KnowledgeBase K}.

Definition act_exec (a : Act) : St (World K) unit :=
  match a with
  | AEmit ev => emit ev
  | AApply cmd i => _ ← apply_effects cmd i; mret tt
  end.

Fixpoint run_acts (l : list Act) : St (World K) unit :=
  match l with
  | [] => mret tt
  | a :: l' => act_exec a ;; run_acts l'
  end.

End Exec.

(** ** The atomic actions of the interfaces' runs *)

Definition service_steps (env : Env) (ai : ServiceAI) (cmd : ActionDispatch) : list Act :=
  AEmit (EvRemote (action_id cmd) (plan_id cmd) (ReqCall (srv_service ai))) ::
  match env_service env (srv_service ai) cmd with
  | Some true =>
      [AApply cmd 1; AEmit (EvPublish (srv_topic ai) (feedback_for cmd ACTION_SUCCEEDED_TO_GOAL_STATE))]
  | _ => [AEmit (EvPublish (srv_topic ai) (feedback_for cmd ACTION_FAILED))]
  end.

Section ActionlibSteps.
Context (ai : ActionlibAI) (cmd : ActionDispatch).

Definition al_publish (s : Status) : Act := AEmit (EvPublish (al_topic ai) (feedback_for cmd s)).
Definition al_cancel : Act := AEmit (EvRemote (action_id cmd) (plan_id cmd) (ReqCancel (al_server ai))).

Fixpoint actionlib_steps (ticks : nat) (cancelled : bool) (rs : list RemoteStatus) : list Act :=
  match ticks with
  | 0 => [al_cancel; al_publish ACTION_FAILED]
  | S ticks' =>
      match rs with
      | [] => actionlib_steps ticks' cancelled []
      | r :: rs' =>
          match r with
          | RPending => actionlib_steps ticks' cancelled rs'
          | RActive => al_publish ACTION_ENABLED :: actionlib_steps ticks' cancelled rs'
          | RFeedback l => al_publish (ACTION_PROGRESS l) :: actionlib_steps ticks' cancelled rs'
          | RCancelRequest =>
              if cancelled then actionlib_steps ticks' true rs'
              else al_cancel :: actionlib_steps ticks' true rs'
          | RSucceeded =>
              if cancelled then [al_publish ACTION_FAILED]
              else [AApply cmd 1; al_publish ACTION_SUCCEEDED_TO_GOAL_STATE]
          | RAborted | RRejected | RPreempted => [al_publish ACTION_FAILED]
          end
      end
  end.

End ActionlibSteps.

Section FSMSteps.
Context (ai : FSMAI) (env : Env) (cmd : ActionDispatch).

Definition fsm_publish_act (s : Status) : Act := AEmit (EvPublish (fsm_topic ai) (feedback_for cmd s)).

Fixpoint fsm_steps (fuel : nat) (s : string) : list Act :=
  if decide (s = fsm_success ai) then [AApply cmd 1; fsm_publish_act ACTION_SUCCEEDED_TO_GOAL_STATE]
  else if decide (s = fsm_fail ai) then [fsm_publish_act ACTION_FAILED]
  else
    match fuel with
    | 0 => [fsm_publish_act ACTION_FAILED]
    | S fuel' =>
        match fsm_states ai !! s with
        | None => [fsm_publish_act ACTION_FAILED]
        | Some st =>
            AEmit (EvRemote (action_id cmd) (plan_id cmd) (ReqCall (fs_action st))) ::
            match fs_transitions st !! env_fsm env (fs_action st) cmd with
            | None => [fsm_publish_act ACTION_FAILED]
            | Some s' => fsm_publish_act (ACTION_PROGRESS s') :: fsm_steps fuel' s'
            end
        end
    end.

End FSMSteps.

Definition ai_steps (env : Env) (ai : ActionInterface) (cmd : ActionDispatch) : list Act :=
  match ai with
  | AIActionlib a =>
      AEmit (EvRemote (action_id cmd) (plan_id cmd) (ReqGoal (al_server a))) ::
      actionlib_steps a cmd (al_timeout a) false (env_actionlib env (al_server a) cmd)
  | AIService a => service_steps env a cmd
  | AIFSM a => fsm_steps a env cmd (fsm_timeout a) (fsm_initial a)
  end.

(** ** The atomic actions of one callback (lines 49-67) *)

Definition callback_thread (env : Env) (action_interfaces : gmap string ActionInterface)
    (self : AIM) (pddl_action_msg : ActionDispatch) : list Act :=
  match action_interfaces !! name pddl_action_msg with
  | None => []
  | Some current_interface =>
      match aim_feedback_pub self with
      | None => [AEmit (EvLogErr "AttributeError: _action_feedback_pub")]
      | Some pub =>
          AEmit (EvPublish pub (feedback_for pddl_action_msg ACTION_DISPATCHED_TO_GOAL_STATE)) ::
          AApply pddl_action_msg 0 :: ai_steps env current_interface pddl_action_msg
      end
  end.

(** The receive thread of one connection: the callbacks of its messages,
    in order. *)
Definition connection_thread (env : Env) (action_interfaces : gmap string ActionInterface)
    (self : AIM) (msgs : list ActionDispatch) : list Act :=
  msgs ≫= callback_thread env action_interfaces self.

(** ** Lemmas: running the atomic actions is running the code *)

Section ExecLemmas.
Context {K : Type} `{!KnowledgeBase K}.

Lemma run_acts_cons a l (w : World K) : exec (run_acts (a :: l)) w = exec (run_acts l) (exec (act_exec a) w).
Proof. simpl; by rewrite exec_bind. Qed.

Lemma run_acts_app l1 l2 (w : World K) : exec (run_acts (l1 ++ l2)) w = exec (run_acts l2) (exec (run_acts l1) w).
Proof. revert w. induction l1 as [|a l1 IH]; intros w; [done|]. simpl; by rewrite !exec_bind, IH. Qed.

Lemma act_exec_apply cmd i (w : World K) : exec (act_exec (AApply cmd i)) w = exec (apply_effects cmd i) w.
Proof. simpl; by rewrite exec_bind. Qed.

End ExecLemmas.

#[export] Hint Rewrite @run_acts_cons @act_exec_apply : aim.

(** Unfold both sides of an equation between a run and its atomic actions. *)
Ltac solve_steps :=
  simpl; autorewrite with aim; simpl; try reflexivity.

Section StepsExec.
Context {K : Type} `{!KnowledgeBase K}.

Lemma service_steps_exec env ai cmd (w : World K) :
  exec (service_run env ai cmd) w = exec (run_acts (service_steps env ai cmd)) w.
Proof. unfold service_run, service_steps. destruct (env_service _ _ _) as [[]|]; solve_steps. Qed.

Lemma actionlib_steps_exec ai cmd ticks c rs (w : World K) :
  exec (actionlib_wait ai cmd ticks c rs) w = exec (run_acts (actionlib_steps ai cmd ticks c rs)) w.
Proof.
  revert c rs w. induction ticks as [|ticks IH]; intros c rs w; [solve_steps|].
  destruct rs as [|[] rs]; try destruct c; simpl; rewrite ?IH; solve_steps; by rewrite IH.
Qed.

Lemma fsm_steps_exec ai env cmd fuel s (w : World K) :
  exec (fsm_exec ai env cmd fuel s) w = exec (run_acts (fsm_steps ai env cmd fuel s)) w.
Proof.
  revert s w. induction fuel as [|fuel IH]; intros s w; cbn [fsm_exec fsm_steps];
    repeat case_decide; try solve_steps.
  destruct (fsm_states ai !! s) as [st|]; [|solve_steps].
  destruct (fs_transitions st !! _) as [s'|]; solve_steps. by rewrite IH.
Qed.

Lemma ai_steps_exec env ai cmd (w : World K) :
  exec (ai_run env ai cmd) w = exec (run_acts (ai_steps env ai cmd)) w.
Proof.
  destruct ai as [a|a|a]; simpl.
  - unfold actionlib_run. rewrite exec_bind, actionlib_steps_exec. solve_steps.
  - apply service_steps_exec.
  - apply fsm_steps_exec.
Qed.

End StepsExec.

(** ** The scheduler *)

Section Interleave.
Context {A : Type}.

(** Run the schedule [sched] on the threads [ls]: each index names the
    thread that performs its next action.  The result is the actions in
    the order they ran, tagged with their thread, and what is left of each
    thread; a schedule naming a thread with nothing left is refused. *)
Fixpoint interleave (ls : list (list A)) (sched : list nat) : option (list (nat * A) * list (list A)) :=
  match sched with
  | [] => Some ([], ls)
  | i :: sched' =>
      match ls !! i with
      | Some (a :: l) =>
          '(out, rest) ← interleave (<[i:=l]> ls) sched';
          Some ((i, a) :: out, rest)
      | _ => None
      end
  end.

(** Every thread has run to its end. *)
Definition finished (rest : list (list A)) : bool := forallb (λ l, bool_decide (l = [])) rest.

(** The actions thread [i] performed, in order. *)
Definition thread_proj (i : nat) (out : list (nat * A)) : list A :=
  snd <$> filter (λ x, x.1 = i) out.

Lemma finished_spec rest : finished rest = true ↔ Forall (λ l, l = []) rest.
Proof.
  unfold finished. rewrite forallb_forall, Forall_forall.
  setoid_rewrite bool_decide_eq_true. setoid_rewrite list_elem_of_In. done.
Qed.

Lemma interleave_cons ls i sched out rest :
  interleave ls (i :: sched) = Some (out, rest) →
  ∃ a l out', ls !! i = Some (a :: l) ∧ out = (i, a) :: out' ∧ interleave (<[i:=l]> ls) sched = Some (out', rest).
Proof.
  simpl. destruct (ls !! i) as [[|a l]|]; try done.
  destruct (interleave (<[i:=l]> ls) sched) as [[out' rest']|] eqn:E; simpl; intros H; [|done].
  injection H as <- <-. by exists a, l, out'.
Qed.

Lemma thread_proj_cons_same i a out : thread_proj i ((i, a) :: out) = a :: thread_proj i out.
Proof. unfold thread_proj. by rewrite filter_cons_True. Qed.

Lemma thread_proj_cons_other i j a out : j ≠ i → thread_proj i ((j, a) :: out) = thread_proj i out.
Proof. intros. unfold thread_proj. by rewrite filter_cons_False. Qed.

Lemma thread_proj_app i o1 o2 : thread_proj i (o1 ++ o2) = thread_proj i o1 ++ thread_proj i o2.
Proof. unfold thread_proj. by rewrite filter_app, fmap_app. Qed.

(** What a thread performed followed by what it has left is the thread. *)
Lemma interleave_proj ls sched out rest :
  interleave ls sched = Some (out, rest) →
  length rest = length ls ∧ ∀ i l, ls !! i = Some l → ∃ r, rest !! i = Some r ∧ l = thread_proj i out ++ r.
Proof.
  revert ls out. induction sched as [|i sched IH]; intros ls out Hs.
  { simpl in Hs. simplify_eq. split; [done|]. intros i l Hl. by exists l. }
  destruct (interleave_cons _ _ _ _ _ Hs) as (a & l0 & out' & Hi & -> & Hs').
  destruct (IH _ _ Hs') as [Hlen Hproj]. rewrite length_insert in Hlen. split; [done|].
  intros j l Hj. destruct (decide (j = i)) as [->|Hne].
  - destruct (Hproj i l0) as (r & Hr & ->); [by rewrite list_lookup_insert_eq by (by eapply lookup_lt_Some)|].
    rewrite Hi in Hj. simplify_eq. exists r. by rewrite thread_proj_cons_same.
  - destruct (Hproj j l) as (r & Hr & ->); [by rewrite list_lookup_insert_ne by congruence|].
    exists r. by rewrite thread_proj_cons_other.
Qed.

Lemma interleave_finished_proj ls sched out rest i l :
  interleave ls sched = Some (out, rest) → finished rest = true → ls !! i = Some l → thread_proj i out = l.
Proof.
  intros Hs Hf Hl. apply finished_spec in Hf.
  destruct (proj2 (interleave_proj _ _ _ _ Hs) i l Hl) as (r & Hr & ->).
  rewrite (Forall_lookup_1 _ _ _ _ Hf Hr). by rewrite app_nil_r.
Qed.

(** Every action that ran belongs to the thread it is tagged with. *)
Lemma interleave_elem ls sched out rest j a :
  interleave ls sched = Some (out, rest) → (j, a) ∈ out → ∃ l, ls !! j = Some l ∧ a ∈ l.
Proof.
  intros Hs Hin.
  destruct (lookup_lt_is_Some_2 ls j) as [l Hl].
  { revert ls out Hs Hin. induction sched as [|i sched IH]; intros ls out Hs Hin.
    - simpl in Hs. simplify_eq. by apply elem_of_nil in Hin.
    - destruct (interleave_cons _ _ _ _ _ Hs) as (a' & l0 & out' & Hi & -> & Hs').
      apply elem_of_cons in Hin as [Heq|Hin].
      + simplify_eq. by eapply lookup_lt_Some.
      + rewrite <- (length_insert ls i l0). by eapply IH. }
  exists l. split; [done|].
  destruct (proj2 (interleave_proj _ _ _ _ Hs) j l Hl) as (r & _ & ->).
  apply elem_of_app. left. unfold thread_proj.
  apply (list_elem_of_fmap_2 snd _ (j, a)). apply list_elem_of_filter. done.
Qed.

Lemma omap_cons_app {B} (f : A → option B) a l : omap f (a :: l) = omap f [a] ++ omap f l.
Proof. apply (omap_app f [a] l). Qed.

(** A projection that the other threads' actions leave silent. *)
Lemma omap_thread_proj {B} (f : A → option B) i o :
  (∀ j a, (j, a) ∈ o → j ≠ i → f a = None) → omap f (snd <$> o) = omap f (thread_proj i o).
Proof.
  induction o as [|[j a] o IH]; intros Hsil; [done|]. rewrite fmap_cons.
  assert (omap f (snd <$> o) = omap f (thread_proj i o)) as Ho.
  { apply IH. intros j' a' Hin Hne. apply (Hsil j'); [by right|done]. }
  destruct (decide (j = i)) as [->|Hne].
  - by rewrite thread_proj_cons_same, (omap_cons_app f a (snd <$> o)), (omap_cons_app f a (thread_proj i o)), Ho.
  - rewrite thread_proj_cons_other, (omap_cons_app f a (snd <$> o)), Ho by done. simpl.
    by rewrite (Hsil j a); [|by left|done].
Qed.

(** Where a thread's actions split, the run splits. *)
Lemma thread_proj_split i out l1 l2 :
  thread_proj i out = l1 ++ l2 → ∃ o1 o2, out = o1 ++ o2 ∧ thread_proj i o1 = l1 ∧ thread_proj i o2 = l2.
Proof.
  revert l1. induction out as [|[j a] out IH]; intros l1 Hp.
  { exists [], []. destruct l1; [done|discriminate]. }
  destruct l1 as [|b l1]. { by exists [], ((j, a) :: out). }
  destruct (decide (j = i)) as [->|Hne].
  - rewrite thread_proj_cons_same in Hp. simpl in Hp. injection Hp as -> Hp.
    destruct (IH l1 Hp) as (o1 & o2 & -> & H1 & H2).
    exists ((i, b) :: o1), o2. by rewrite thread_proj_cons_same, H1.
  - rewrite thread_proj_cons_other in Hp by done.
    destruct (IH (b :: l1) Hp) as (o1 & o2 & -> & H1 & H2).
    exists ((j, a) :: o1), o2. by rewrite thread_proj_cons_other.
Qed.

Lemma join_insert_perm (ls : list (list A)) i a l :
  ls !! i = Some (a :: l) → mjoin ls ≡ₚ a :: mjoin (<[i:=l]> ls).
Proof.
  intros Hi. rewrite <- (take_drop_middle ls i _ Hi) at 1.
  rewrite insert_take_drop by (by eapply lookup_lt_Some).
  rewrite !join_app. simpl. solve_Permutation.
Qed.

Lemma interleave_perm ls sched out rest :
  interleave ls sched = Some (out, rest) → mjoin ls ≡ₚ (snd <$> out) ++ mjoin rest.
Proof.
  revert ls out. induction sched as [|i sched IH]; intros ls out Hs.
  { simpl in Hs. by simplify_eq. }
  destruct (interleave_cons _ _ _ _ _ Hs) as (a & l & out' & Hi & -> & Hs').
  rewrite (join_insert_perm _ _ _ _ Hi), (IH _ _ Hs'). done.
Qed.

End Interleave.

(** ** What the lifecycle observes of an action *)

Definition act_key (a : Act) : option (Z * Z) :=
  match a with AEmit ev => event_key ev | AApply cmd _ => Some (cmd_key cmd) end.

Definition act_obs (k : Z * Z) (a : Act) : option Obs :=
  match a with
  | AEmit ev => observe k ev
  | AApply cmd i => if decide (cmd_key cmd = k) then Some (ObEffects i) else None
  end.

Lemma act_obs_foreign k a : act_key a ≠ Some k → act_obs k a = None.
Proof.
  destruct a as [ev|cmd i]; simpl; intros Hk.
  - destruct (observe k ev) eqn:Ho; [apply observe_key in Ho; congruence|done].
  - case_decide; congruence.
Qed.

Lemma omap_act_obs_foreign k l : Forall (λ a, act_key a ≠ Some k) l → omap (act_obs k) l = [].
Proof.
  induction 1 as [|a l Ha _ IH]; [done|].
  rewrite omap_cons_app, IH. simpl. by rewrite act_obs_foreign.
Qed.

Section Trace.
Context {K : Type} `{!KnowledgeBase K}.

(** Running actions appends events on which the lifecycle observes what
    it observes of the actions, whatever the knowledge base answers. *)
Lemma run_acts_trace l (w : World K) :
  ∃ new, w_trace (exec (run_acts l) w) = w_trace w ++ new ∧ ∀ k, observations k new = omap (act_obs k) l.
Proof.
  revert w. induction l as [|a l IH]; intros w.
  { exists []. split; [by rewrite app_nil_r|done]. }
  rewrite run_acts_cons. destruct (IH (exec (act_exec a) w)) as (new & Htr & Hobs).
  destruct a as [ev|cmd i].
  - exists (ev :: new). split; [by rewrite Htr, (emits_emit ev w), <- app_assoc|].
    intros k. unfold observations in *. by rewrite omap_cons_app, Hobs, (omap_cons_app (act_obs k)).
  - rewrite act_exec_apply in Htr |- *.
    eexists (_ :: new). split; [by rewrite Htr, (emits_apply cmd i w), <- app_assoc|].
    intros k. unfold observations in *. by rewrite omap_cons_app, Hobs, (omap_cons_app (act_obs k)).
Qed.

Lemma run_acts_observations l (w : World K) new k :
  w_trace (exec (run_acts l) w) = w_trace w ++ new → observations k new = omap (act_obs k) l.
Proof.
  intros Htr. destruct (run_acts_trace l w) as (new' & Htr' & Hobs).
  rewrite Htr in Htr'. apply app_inv_head in Htr' as ->. apply Hobs.
Qed.

End Trace.

(** ** Every action of a callback is about its command *)

(** [a] is an action of a run for [cmd]: an event about [cmd], or an
    application of [cmd]'s effects. *)
Definition act_for (cmd : ActionDispatch) (a : Act) : Prop :=
  match a with AEmit ev => event_key ev = Some (cmd_key cmd) | AApply c _ => c = cmd end.

Lemma act_for_key cmd a : act_for cmd a → act_key a = Some (cmd_key cmd).
Proof. destruct a; simpl; [done|by intros ->]. Qed.

Lemma actionlib_steps_keys ai cmd ticks c rs :
  Forall (act_for cmd) (actionlib_steps ai cmd ticks c rs).
Proof.
  revert c rs. induction ticks as [|ticks IH]; intros c rs; simpl; [by repeat constructor|].
  destruct rs as [|[] rs]; try destruct c; repeat constructor; apply IH.
Qed.

Lemma fsm_steps_keys ai env cmd fuel s :
  Forall (act_for cmd) (fsm_steps ai env cmd fuel s).
Proof.
  revert s. induction fuel as [|fuel IH]; intros s; cbn [fsm_steps]; repeat case_decide;
    try by repeat constructor.
  destruct (fsm_states ai !! s) as [st|]; [|by repeat constructor].
  destruct (fs_transitions st !! _); repeat constructor. apply IH.
Qed.

Lemma ai_steps_keys env ai cmd : Forall (act_for cmd) (ai_steps env ai cmd).
Proof.
  destruct ai as [a|a|a]; simpl.
  - constructor; [done|apply actionlib_steps_keys].
  - unfold service_steps. destruct (env_service _ _ _) as [[]|]; by repeat constructor.
  - apply fsm_steps_keys.
Qed.

Lemma callback_thread_keys env d self m :
  Forall (λ a, act_key a = None ∨ act_for m a) (callback_thread env d self m).
Proof.
  unfold callback_thread. destruct (d !! name m) as [ai|]; [|done].
  destruct (aim_feedback_pub self); [|by repeat constructor; left].
  constructor; [by right|]. constructor; [by right|].
  eapply Forall_impl; [apply ai_steps_keys|]. by right.
Qed.

Lemma callback_thread_foreign env d self m k :
  cmd_key m ≠ k → omap (act_obs k) (callback_thread env d self m) = [].
Proof.
  intros Hk. apply omap_act_obs_foreign. eapply Forall_impl; [apply callback_thread_keys|].
  intros a [Hn|Hf]; [congruence|]. rewrite (act_for_key _ _ Hf). congruence.
Qed.

Lemma connection_thread_foreign env d self ms k :
  (∀ m, m ∈ ms → cmd_key m ≠ k) → omap (act_obs k) (connection_thread env d self ms) = [].
Proof.
  unfold connection_thread. induction ms as [|m ms IH]; intros Hk; [done|].
  rewrite bind_cons, omap_app, callback_thread_foreign, IH; [done| |by apply Hk; left].
  intros; apply Hk; by right.
Qed.

(** On the thread of a connection whose commands have distinct keys, the
    lifecycle of one of them observes its own callback. *)
Lemma connection_thread_obs env d self ms m :
  NoDup (cmd_key <$> ms) → m ∈ ms →
  omap (act_obs (cmd_key m)) (connection_thread env d self ms) =
    omap (act_obs (cmd_key m)) (callback_thread env d self m).
Proof.
  intros Hnd Hm. apply list_elem_of_split in Hm as (pre & post & ->).
  rewrite fmap_app, fmap_cons, NoDup_app, NoDup_cons in Hnd. destruct Hnd as (_ & Hdis & Hk & _).
  assert (omap (act_obs (cmd_key m)) (connection_thread env d self pre) = []) as Hpre.
  { apply connection_thread_foreign. intros m' Hm' Heq. apply (Hdis (cmd_key m)); [|by left].
    rewrite <- Heq. by apply list_elem_of_fmap_2. }
  assert (omap (act_obs (cmd_key m)) (connection_thread env d self post) = []) as Hpost.
  { apply connection_thread_foreign. intros m' Hm' Heq. apply Hk. rewrite <- Heq. by apply list_elem_of_fmap_2. }
  unfold connection_thread in *. rewrite bind_app, bind_cons, !omap_app, Hpre, Hpost.
  by rewrite app_nil_r.
Qed.

(** ** One receive thread *)

(** rospy's receive loop on one connection: the callback on each message
    read, in order, each to completion. *)
Fixpoint receive_loop {K} `{!KnowledgeBase K} (env : Env) (self : AIM) (msgs : list ActionDispatch) :
    St (Proc ActionInterface K) unit :=
  match msgs with
  | [] => mret tt
  | m :: ms => dispatch_callback env self m ;; receive_loop env self ms
  end.

Section Callback.
Context {K : Type} `{!KnowledgeBase K} (env : Env).

Lemma callback_thread_exec self msg (p : Proc ActionInterface K) :
  exec (dispatch_callback env self msg) p =
    mkProc (p_action_interfaces p) (exec (run_acts (callback_thread env (p_action_interfaces p) self msg)) (p_world p)).
Proof.
  unfold callback_thread. destruct (p_action_interfaces p !! name msg) as [ai|] eqn:Hai.
  - destruct (aim_feedback_pub self) as [pub|] eqn:Hpub.
    + rewrite (dispatch_callback_registered env self msg p ai pub Hai Hpub). f_equal.
      unfold dispatched_world. rewrite !run_acts_cons, act_exec_apply. apply ai_steps_exec.
    + unfold dispatch_callback. rewrite exec_get_bind, Hai, Hpub, exec_on_world. solve_steps.
  - unfold exec at 1. rewrite dispatch_callback_unregistered by done. by destruct p.
Qed.

(** The lifecycle observed of an interface's run, read off its actions. *)
Lemma ai_steps_lifecycle ai cmd (w : World K) :
  ∃ b, lc_run Started (omap (act_obs (cmd_key cmd)) (ai_steps env ai cmd)) = Some (Done b).
Proof.
  destruct (ai_run_contract K env ai cmd w) as (new & b & [Hem _] & (_ & _ & Hlc)).
  unfold emits in Hem. rewrite ai_steps_exec in Hem.
  exists b. by rewrite <- (run_acts_observations _ _ _ _ Hem).
Qed.

End Callback.

Lemma callback_thread_registered env d self m ai pub :
  d !! name m = Some ai → aim_feedback_pub self = Some pub →
  omap (act_obs (cmd_key m)) (callback_thread env d self m) =
    [ObStatus ACTION_DISPATCHED_TO_GOAL_STATE; ObEffects 0] ++ omap (act_obs (cmd_key m)) (ai_steps env ai m).
Proof.
  intros Hai Hpub. unfold callback_thread. rewrite Hai, Hpub.
  rewrite (omap_cons_app _ (AEmit _)), (omap_cons_app _ (AApply _ _)). simpl.
  by rewrite !decide_True.
Qed.

(** ** Keys of the commands of several connections *)

Lemma conns_keys_disjoint (conns : list (list ActionDispatch)) c j msgs msgs' m m' :
  NoDup (cmd_key <$> mjoin conns) → conns !! c = Some msgs → conns !! j = Some msgs' →
  m ∈ msgs → m' ∈ msgs' → cmd_key m = cmd_key m' → c = j.
Proof.
  revert c j. induction conns as [|x conns IH]; intros c j Hnd Hc Hj Hm Hm' Hk; [done|].
  simpl in Hnd. rewrite fmap_app, NoDup_app in Hnd. destruct Hnd as (_ & Hdis & Hnd).
  assert (∀ y ys, conns !! y = Some ys → ∀ z, z ∈ ys → cmd_key z ∈ cmd_key <$> mjoin conns) as Hin.
  { intros y ys Hy z Hz. apply list_elem_of_fmap_2, list_elem_of_join.
    exists ys. split; [done|by eapply list_elem_of_lookup_2]. }
  destruct c as [|c], j as [|j]; simpl in Hc, Hj; try injection Hc as <-; try injection Hj as <-; try done.
  - destruct (Hdis (cmd_key m)); [by apply list_elem_of_fmap_2|]. rewrite Hk. by eapply Hin.
  - destruct (Hdis (cmd_key m')); [by apply list_elem_of_fmap_2|]. rewrite <- Hk. by eapply Hin.
  - f_equal. by eapply IH.
Qed.

Lemma conns_nodup (conns : list (list ActionDispatch)) c msgs :
  NoDup (cmd_key <$> mjoin conns) → conns !! c = Some msgs → NoDup (cmd_key <$> msgs).
Proof.
  intros Hnd Hc. rewrite <- (take_drop_middle conns c msgs Hc), join_app in Hnd. simpl in Hnd.
  rewrite !fmap_app, !NoDup_app in Hnd. naive_solver.
Qed.

(** ** The interleaving of the receive threads *)

Section Interleaving.
Context {K : Type} `{!KnowledgeBase K} (env : Env) (self : AIM) (d : gmap string ActionInterface).

(** The threads of the connections, with the commands each delivers. *)
Definition conn_threads (conns : list (list ActionDispatch)) : list (list Act) :=
  connection_thread env d self <$> conns.

(** What the other threads do is silent for the lifecycle of [m]. *)
Lemma others_silent conns c msgs m sched out rest :
  NoDup (cmd_key <$> mjoin conns) → conns !! c = Some msgs → m ∈ msgs →
  interleave (conn_threads conns) sched = Some (out, rest) →
  ∀ j a, (j, a) ∈ out → j ≠ c → act_obs (cmd_key m) a = None.
Proof.
  intros Hnd Hc Hm Hs j a Hin Hne.
  destruct (interleave_elem _ _ _ _ _ _ Hs Hin) as (l & Hj & Ha).
  unfold conn_threads in Hj. rewrite list_lookup_fmap in Hj.
  destruct (conns !! j) as [msgs'|] eqn:Hj'; simplify_eq/=.
  apply list_elem_of_bind in Ha as (m' & Ha & Hm').
  apply act_obs_foreign.
  pose proof (proj1 (Forall_forall _ _) (callback_thread_keys env d self m') a Ha) as [-> | Hf]; [done|].
  rewrite (act_for_key _ _ Hf).
  intros Hk. apply Hne. apply (conns_keys_disjoint conns j c msgs' msgs m' m); try done. congruence.
Qed.

(** The lifecycle of [m] observes on the interleaving what it observes of
    its own callback. *)
Lemma interleaving_obs conns c msgs m sched out rest :
  NoDup (cmd_key <$> mjoin conns) → conns !! c = Some msgs → m ∈ msgs →
  interleave (conn_threads conns) sched = Some (out, rest) → finished rest = true →
  omap (act_obs (cmd_key m)) (snd <$> out) = omap (act_obs (cmd_key m)) (callback_thread env d self m).
Proof.
  intros Hnd Hc Hm Hs Hf.
  rewrite (omap_thread_proj _ c); [|by eapply others_silent].
  rewrite (interleave_finished_proj _ _ _ _ c (connection_thread env d self msgs) Hs Hf)
    by (unfold conn_threads; by rewrite list_lookup_fmap, Hc).
  apply connection_thread_obs; [by eapply conns_nodup|done].
Qed.

End Interleaving.

Lemma nodup_fmap_app_ne {A B} (f : A → B) l1 l2 x y :
  NoDup (f <$> l1 ++ l2) → x ∈ l1 → y ∈ l2 → f x ≠ f y.
Proof.
  rewrite fmap_app, NoDup_app. intros (_ & Hdis & _) Hx Hy Heq.
  apply (Hdis (f x)); [by apply list_elem_of_fmap_2|]. rewrite Heq. by apply list_elem_of_fmap_2.
Qed.

(** ** Theorems *)

Section Theorems.
Context {K : Type} `{!KnowledgeBase K} (env : Env) (self : AIM).

(** The receive loop of one connection, which calls
    [dispatch_callback] on each message in turn, is the sequential run of
    the atomic actions of its callbacks ([connection_thread]): the
    dictionary is left as it was and the world is the one the actions
    produce, whatever the knowledge base answers. *)
Theorem receive_loop_thread msgs (p : Proc ActionInterface K) :
  exec (receive_loop env self msgs) p =
    mkProc (p_action_interfaces p)
      (exec (run_acts (connection_thread env (p_action_interfaces p) self msgs)) (p_world p)).
Proof.
  revert p. induction msgs as [|m ms IH]; intros p; [by destruct p|].
  cbn [receive_loop]. rewrite exec_bind, IH, callback_thread_exec. simpl.
  unfold connection_thread. by rewrite run_acts_app.
Qed.

(** [C29] Linearisability per command: when the receive threads of
    several connections, whose commands have pairwise distinct
    (action_id, plan_id), are interleaved by any complete schedule, what
    the lifecycle of one command observes on the shared trace (its
    statuses and effect applications, in order) is exactly what it
    observes when its callback runs alone on the same node. *)
Theorem interleaving_observations conns c msgs m sched out rest (p : Proc ActionInterface K) :
  NoDup (cmd_key <$> mjoin conns) → conns !! c = Some msgs → m ∈ msgs →
  interleave (conn_threads env self (p_action_interfaces p) conns) sched = Some (out, rest) →
  finished rest = true →
  ∃ new new1,
    w_trace (exec (run_acts (snd <$> out)) (p_world p)) = w_trace (p_world p) ++ new ∧
    w_trace (p_world (exec (dispatch_callback env self m) p)) = w_trace (p_world p) ++ new1 ∧
    observations (cmd_key m) new = observations (cmd_key m) new1.
Proof.
  intros Hnd Hc Hm Hs Hf.
  destruct (run_acts_trace (snd <$> out) (p_world p)) as (new & Htr & Hobs).
  rewrite callback_thread_exec. simpl.
  destruct (run_acts_trace (callback_thread env (p_action_interfaces p) self m) (p_world p))
    as (new1 & Htr1 & Hobs1).
  exists new, new1. split_and!; [done|done|]. rewrite Hobs, Hobs1. by eapply interleaving_obs.
Qed.

(** [C30] Under any complete interleaving of the receive threads, each
    command with a registered interface has a complete lifecycle on the
    shared trace (DISPATCHED, start effects, intermediate statuses, then
    FAILED, or end effects and SUCCEEDED), and nothing is observed about a
    command that is not registered or that the callback could not
    dispatch. *)
Theorem interleaving_lifecycle conns c msgs m sched out rest (d : gmap string ActionInterface) (w : World K) :
  NoDup (cmd_key <$> mjoin conns) → conns !! c = Some msgs → m ∈ msgs →
  interleave (conn_threads env self d conns) sched = Some (out, rest) → finished rest = true →
  ∃ new, w_trace (exec (run_acts (snd <$> out)) w) = w_trace w ++ new ∧
    match d !! name m, aim_feedback_pub self with
    | Some _, Some _ => ∃ b, lifecycle_shape (observations (cmd_key m) new) b
    | _, _ => observations (cmd_key m) new = []
    end.
Proof.
  intros Hnd Hc Hm Hs Hf.
  destruct (run_acts_trace (snd <$> out) w) as (new & Htr & Hobs).
  exists new. split; [done|]. rewrite Hobs, (interleaving_obs env self d conns c msgs m sched out rest) by done.
  destruct (d !! name m) as [ai|] eqn:Hai; [|by unfold callback_thread; rewrite Hai].
  destruct (aim_feedback_pub self) as [pub|] eqn:Hpub; [|by unfold callback_thread; rewrite Hai, Hpub].
  rewrite (callback_thread_registered env d self m ai pub Hai Hpub).
  destruct (ai_steps_lifecycle env ai m w) as [b Hb]. exists b.
  apply lc_run_Idle_Done. simpl. by rewrite Hb.
Qed.

(** A complete schedule of the receive threads runs every atomic
    action of every callback exactly once (the actions that ran are a
    permutation of all the threads' actions), and each connection's
    actions in the order of its thread. *)
Theorem interleave_complete conns sched out rest (d : gmap string ActionInterface) :
  interleave (conn_threads env self d conns) sched = Some (out, rest) → finished rest = true →
  (snd <$> out) ≡ₚ mjoin (conn_threads env self d conns) ∧
  ∀ c msgs, conns !! c = Some msgs → thread_proj c out = connection_thread env d self msgs.
Proof.
  intros Hs Hf. split.
  - rewrite (interleave_perm _ _ _ _ Hs). apply finished_spec, join_nil_2 in Hf.
    by rewrite Hf, app_nil_r.
  - intros c msgs Hc. apply (interleave_finished_proj _ _ _ _ c _ Hs Hf).
    unfold conn_threads. by rewrite list_lookup_fmap, Hc.
Qed.

(** [C31] Commands of one connection stay serialised under any complete
    interleaving: if [m1] precedes [m2] on a connection, the shared trace
    splits into a part on which nothing of [m2] is observed followed by a
    part on which nothing of [m1] is observed. *)
Theorem interleaving_connection_order conns c pre m1 mid m2 post sched out rest
    (d : gmap string ActionInterface) (w : World K) :
  NoDup (cmd_key <$> mjoin conns) → conns !! c = Some (pre ++ m1 :: mid ++ m2 :: post) →
  interleave (conn_threads env self d conns) sched = Some (out, rest) → finished rest = true →
  ∃ t1 t2, w_trace (exec (run_acts (snd <$> out)) w) = w_trace w ++ t1 ++ t2 ∧
    observations (cmd_key m2) t1 = [] ∧ observations (cmd_key m1) t2 = [].
Proof.
  intros Hnd Hc Hs Hf.
  pose proof (conns_nodup _ _ _ Hnd Hc) as Hnd'.
  replace (pre ++ m1 :: mid ++ m2 :: post) with ((pre ++ [m1]) ++ (mid ++ m2 :: post)) in Hnd', Hc
    by (by rewrite <- app_assoc).
  assert (thread_proj c out = connection_thread env d self (pre ++ [m1]) ++
                              connection_thread env d self (mid ++ m2 :: post)) as Hproj.
  { rewrite (interleave_finished_proj _ _ _ _ c _ Hs Hf) by (unfold conn_threads; by rewrite list_lookup_fmap, Hc).
    unfold connection_thread. by rewrite bind_app. }
  destruct (thread_proj_split _ _ _ _ Hproj) as (o1 & o2 & -> & H1 & H2).
  destruct (run_acts_trace (snd <$> o1) w) as (t1 & Ht1 & Ho1).
  destruct (run_acts_trace (snd <$> o2) (exec (run_acts (snd <$> o1)) w)) as (t2 & Ht2 & Ho2).
  exists t1, t2. split; [by rewrite fmap_app, run_acts_app, Ht2, Ht1, app_assoc|].
  assert (m1 ∈ (pre ++ [m1]) ++ mid ++ m2 :: post) by set_solver.
  assert (m2 ∈ (pre ++ [m1]) ++ mid ++ m2 :: post) by set_solver.
  split.
  - rewrite Ho1, (omap_thread_proj _ c), H1.
    + apply connection_thread_foreign. intros m Hm. eapply nodup_fmap_app_ne; [exact Hnd'|exact Hm|set_solver].
    + intros j a Hin. eapply (others_silent env self d conns c _ m2); eauto. set_solver.
  - rewrite Ho2, (omap_thread_proj _ c), H2.
    + apply connection_thread_foreign. intros m Hm Heq.
      eapply (nodup_fmap_app_ne _ _ _ m1 m); [exact Hnd'|set_solver|exact Hm|done].
    + intros j a Hin. eapply (others_silent env self d conns c _ m1); eauto. set_solver.
Qed.

End Theorems.

(** ** Threads whose actions commute *)

Section Commute.
Context {A S : Type} (f : A → S → S) (P : S → Prop).
Context (HP : ∀ a s, P s → P (f a s)).

(** The state after performing the actions [l] in order. *)
Definition fold_acts (s : S) (l : list A) : S := foldl (λ s a, f a s) s l.

(** Actions of different threads commute on the states satisfying [P]. *)
Definition threads_commute (ls : list (list A)) : Prop :=
  ∀ i j li lj a b, i ≠ j → ls !! i = Some li → ls !! j = Some lj → a ∈ li → b ∈ lj →
    ∀ s, P s → f a (f b s) = f b (f a s).

Lemma fold_acts_P s l : P s → P (fold_acts s l).
Proof. revert s. induction l as [|a l IH]; intros s Hs; [done|]. apply IH, HP, Hs. Qed.

Lemma fold_acts_comm a s l :
  (∀ b, b ∈ l → ∀ s, P s → f a (f b s) = f b (f a s)) → P s →
  fold_acts (f a s) l = f a (fold_acts s l).
Proof.
  revert s. induction l as [|b l IH]; intros s Hc Hs; [done|]. unfold fold_acts. simpl.
  rewrite <- Hc by (by left || done). apply IH; [|by apply HP]. intros; apply Hc; [by right|done].
Qed.

Lemma threads_commute_step ls i a l :
  ls !! i = Some (a :: l) → threads_commute ls → threads_commute (<[i:=l]> ls).
Proof.
  intros Hi Hc i' j' li lj x y Hne Hli Hlj Hx Hy.
  apply list_lookup_insert_Some in Hli, Hlj.
  destruct Hli as [(-> & <- & _)|(_ & Hli)], Hlj as [(-> & <- & _)|(_ & Hlj)]; try done;
    eapply Hc; eauto; by right.
Qed.

(** A complete interleaving of commuting threads ends in the state of
    their serial execution, one thread after the other. *)
Lemma interleave_commute ls sched out rest s :
  threads_commute ls → interleave ls sched = Some (out, rest) → finished rest = true → P s →
  fold_acts s (snd <$> out) = fold_acts s (mjoin ls).
Proof.
  revert ls out s. induction sched as [|i sched IH]; intros ls out s Hc Hs Hf Hps.
  { simpl in Hs. simplify_eq. apply finished_spec, join_nil_2 in Hf. by rewrite Hf. }
  destruct (interleave_cons _ _ _ _ _ Hs) as (a & l & out' & Hi & -> & Hs').
  rewrite fmap_cons. change (fold_acts (f a s) (snd <$> out') = fold_acts s (mjoin ls)).
  rewrite (IH (<[i:=l]> ls) out' (f a s)); [|by eapply threads_commute_step|done|done|by apply HP].
  rewrite <- (take_drop_middle ls i _ Hi) at 2.
  rewrite insert_take_drop by (by eapply lookup_lt_Some). rewrite !join_app. simpl.
  unfold fold_acts. rewrite !foldl_app. simpl. fold (fold_acts (f a s) (mjoin (take i ls))).
  fold (fold_acts s (mjoin (take i ls))). rewrite fold_acts_comm; [by rewrite foldl_app| |done].
  intros b Hb. apply list_elem_of_join in Hb as (lj & Hb & Hlj).
  apply list_elem_of_lookup in Hlj as [j Hj]. apply lookup_take_Some in Hj as [Hj Hji].
  eapply (Hc i j); [lia|exact Hi|exact Hj|by left|exact Hb].
Qed.

End Commute.

(** ** The knowledge base under interleaving *)

Definition act_kb {K} `{!KnowledgeBase K} (a : Act) (kb : K) : K :=
  match a with AEmit _ => kb | AApply cmd i => (kb_apply_action_effects cmd i kb).2 end.

Lemma run_acts_kb {K} `{!KnowledgeBase K} l (w : World K) :
  w_kb (exec (run_acts l) w) = fold_acts act_kb (w_kb w) l.
Proof.
  revert w. induction l as [|a l IH]; intros w; [done|]. rewrite run_acts_cons, IH.
  unfold fold_acts. simpl. f_equal. destruct a as [ev|cmd i]; [done|].
  rewrite act_exec_apply. unfold exec, apply_effects, act_kb. by destruct (kb_apply_action_effects cmd i (w_kb w)).
Qed.

(** The effect applications of a connection's thread are of its commands. *)
Lemma conn_threads_apply env self d conns i li c k :
  conn_threads env self d conns !! i = Some li → AApply c k ∈ li → ∃ msgs, conns !! i = Some msgs ∧ c ∈ msgs.
Proof.
  unfold conn_threads. rewrite list_lookup_fmap. destruct (conns !! i) as [msgs|]; intros Hi Hin; simplify_eq/=.
  exists msgs. split; [done|]. apply list_elem_of_bind in Hin as (m & Hin & Hm).
  pose proof (proj1 (Forall_forall _ _) (callback_thread_keys env d self m) _ Hin) as [Hn|Hf]; [done|].
  simpl in Hf. by subst.
Qed.

(** ** The outcome of a callback *)

(** Whether the run of [ai] on [cmd] ends with SUCCEEDED, as the
    interfaces' outcome functions say. *)
Definition ai_succeeds (env : Env) (ai : ActionInterface) (cmd : ActionDispatch) : bool :=
  match ai with
  | AIActionlib a => actionlib_result (al_timeout a) false (env_actionlib env (al_server a) cmd)
  | AIService a => bool_decide (env_service env (srv_service a) cmd = Some true)
  | AIFSM a => fsm_result a env cmd (fsm_timeout a) (fsm_initial a)
  end.

(** The outcome of the callback on [m]: not dispatched, or dispatched and
    ending with SUCCEEDED or FAILED. *)
Definition callback_outcome (env : Env) (d : gmap string ActionInterface) (self : AIM)
    (m : ActionDispatch) : Outcome :=
  match d !! name m, aim_feedback_pub self with
  | Some ai, Some _ => Some (ai_succeeds env ai m)
  | _, _ => None
  end.

Definition outcomes env d self (ms : list ActionDispatch) : list (ActionDispatch * Outcome) :=
  (λ m, (m, callback_outcome env d self m)) <$> ms.

Section OutcomeKB.
Context {K : Type} `{!KnowledgeBase K}.

Lemma fold_acts_emit ev kb l : fold_acts act_kb kb (AEmit ev :: l) = fold_acts (@act_kb K _) kb l.
Proof. done. Qed.

Lemma fold_acts_apply cmd i kb l :
  fold_acts act_kb kb (AApply cmd i :: l) = fold_acts act_kb (kb_apply_action_effects cmd i kb).2 l.
Proof. done. Qed.

#[local] Hint Rewrite fold_acts_emit fold_acts_apply : aim.

(** The knowledge base after an interface's effects: its end effects
    exactly when it succeeds. *)
Lemma actionlib_steps_kb ai cmd ticks c rs (kb : K) :
  fold_acts act_kb kb (actionlib_steps ai cmd ticks c rs) =
    if actionlib_result ticks c rs then (kb_apply_action_effects cmd 1 kb).2 else kb.
Proof.
  revert c rs. induction ticks as [|ticks IH]; intros c rs; [done|].
  destruct rs as [|[] rs]; try destruct c; simpl; autorewrite with aim; try apply IH; done.
Qed.

Lemma fsm_steps_kb ai env cmd fuel s (kb : K) :
  fold_acts act_kb kb (fsm_steps ai env cmd fuel s) =
    if fsm_result ai env cmd fuel s then (kb_apply_action_effects cmd 1 kb).2 else kb.
Proof.
  revert s. induction fuel as [|fuel IH]; intros s; cbn [fsm_steps fsm_result];
    repeat case_decide; try done.
  destruct (fsm_states ai !! s) as [st|] eqn:Hst.
  - rewrite (fsm_next_nonterminal ai env cmd s st) by done. autorewrite with aim.
    destruct (fs_transitions st !! _); [|done]. autorewrite with aim. apply IH.
  - by rewrite fsm_next_undefined.
Qed.

Lemma ai_steps_kb env ai cmd (kb : K) :
  fold_acts act_kb kb (ai_steps env ai cmd) =
    if ai_succeeds env ai cmd then (kb_apply_action_effects cmd 1 kb).2 else kb.
Proof.
  destruct ai as [a|a|a]; simpl.
  - apply actionlib_steps_kb.
  - unfold service_steps. by destruct (env_service env (srv_service a) cmd) as [[]|].
  - apply fsm_steps_kb.
Qed.

Lemma callback_thread_kb env d self m (kb : K) :
  fold_acts act_kb kb (callback_thread env d self m) = apply_outcome m (callback_outcome env d self m) kb.
Proof.
  unfold callback_thread, callback_outcome, apply_outcome.
  destruct (d !! name m) as [ai|]; [|done]. destruct (aim_feedback_pub self); [|done].
  autorewrite with aim. rewrite ai_steps_kb. by destruct (ai_succeeds env ai m).
Qed.

Lemma conn_threads_kb env self d conns (kb : K) :
  fold_acts act_kb kb (mjoin (conn_threads env self d conns)) =
    apply_outcomes (outcomes env d self (mjoin conns)) kb.
Proof.
  unfold fold_acts, apply_outcomes, outcomes. revert kb.
  induction conns as [|msgs conns IH]; intros kb; [done|]. simpl.
  rewrite foldl_app, fmap_app, foldl_app, IH. f_equal. clear IH. revert kb.
  induction msgs as [|m msgs IH]; intros kb; [done|]. unfold connection_thread. simpl.
  rewrite foldl_app. fold (fold_acts act_kb kb (callback_thread env d self m)).
  rewrite callback_thread_kb. apply IH.
Qed.

End OutcomeKB.

(** [C32] Under the store's contract of section 5, taken as a hypothesis:
    if effect applications of commands of different connections commute
    (on the knowledge bases an invariant of the store describes), then
    whatever the complete schedule of the receive threads, the knowledge
    base ends as the commands' outcomes applied one command after another,
    connection by connection: for each dispatched command its start
    effects, then its end effects exactly when its interface succeeded;
    nothing for a command that was not dispatched. *)
Theorem interleaving_kb_outcomes {K} `{!KnowledgeBase K} (Inv : K → Prop)
    env self d conns sched out rest (w : World K) :
  Inv (w_kb w) → (∀ m i kb, Inv kb → Inv (kb_apply_action_effects m i kb).2) →
  (∀ c j msgs msgs' m m' i i' kb, c ≠ j → conns !! c = Some msgs → conns !! j = Some msgs' →
     m ∈ msgs → m' ∈ msgs' → Inv kb →
     (kb_apply_action_effects m i (kb_apply_action_effects m' i' kb).2).2 =
       (kb_apply_action_effects m' i' (kb_apply_action_effects m i kb).2).2) →
  interleave (conn_threads env self d conns) sched = Some (out, rest) → finished rest = true →
  w_kb (exec (run_acts (snd <$> out)) w) = apply_outcomes (outcomes env d self (mjoin conns)) (w_kb w).
Proof.
  intros H0 HInv Hcomm Hs Hf. rewrite run_acts_kb, <- conn_threads_kb.
  apply (interleave_commute act_kb Inv) with (sched := sched) (rest := rest); [| |done|done|done].
  - intros [ev|cmd i] kb Hkb; [done|]. by apply HInv.
  - intros i j li lj [ev1|c1 i1] [ev2|c2 i2] Hne Hli Hlj Ha Hb kb Hkb; try done. simpl.
    destruct (conn_threads_apply _ _ _ _ _ _ _ _ Hli Ha) as (msgs & Hc1 & Hm1).
    destruct (conn_threads_apply _ _ _ _ _ _ _ _ Hlj Hb) as (msgs' & Hc2 & Hm2).
    eapply Hcomm; eauto.
Qed.
