(* ===== verification/Scenarios.v ===== *)
(** * Scenarios: concrete runs of the node and witnesses of the theorems

    Concrete configurations, knowledge bases and environments, the two
    scenarios of specification section 8 evaluated on the model, and, for
    every theorem with hypotheses, a closed instance where the hypotheses
    are discharged by computation. *)

From S2P Require Import Prelude Messages Lifecycle KnowledgeBase World Strategy ServiceAI ActionlibAI FSMAI Interfaces Registry Manager Transport Concurrency.
From Stdlib Require Import ZArith.



(** ** Fixtures *)

Definition pickup_cfg : ActionConfig :=
  mkActionConfig (Some "pickup") (Some "service") None (Some "pickup_service") None None.

Definition place_cfg : ActionConfig :=
  mkActionConfig (Some "place") (Some "service") None (Some "place_service") None None.

Definition pickup_actionlib_cfg : ActionConfig :=
  mkActionConfig (Some "pickup") (Some "actionlib") (Some "pickup_server") None (Some 3%nat) None.

Definition smach_cfg : ActionConfig :=
  mkActionConfig (Some "inspect") (Some "smach") None None None None.

Definition untyped_cfg : ActionConfig :=
  mkActionConfig (Some "drop") None None (Some "drop_service") None None.

Definition params_pickup : Params := mkParams (Some [pickup_cfg]) None None.
Definition params_none : Params := mkParams None None None.
Definition params_a : Params := mkParams (Some [pickup_cfg]) (Some "feedback_a") (Some "dispatch_a").
Definition params_b : Params := mkParams (Some [place_cfg]) (Some "feedback_b") (Some "dispatch_b").

Definition pickup_op : Operator :=
  mkOperator [] [mkAtom "handempty" []] [mkAtom "holding" ["obj"]] [mkAtom "ontable" ["obj"]].

Definition kb0 : FactKB :=
  mkFactKB {[ ("handempty", []); ("ontable", ["box"]) ]} {[ "pickup" := pickup_op ]}.

Definition kb_empty_domain : FactKB := mkFactKB ∅ ∅.

Definition env_ok : Env := mkEnv (λ _ _, Some true) (λ _ _, [RActive; RSucceeded]) (λ _ _, "done").

Definition proc0 : Proc ActionInterface FactKB := mkProc ∅ (mkWorld kb0 []).

Definition pickup_msg : ActionDispatch := mkActionDispatch 5 1 "pickup" [mkKeyValue "obj" "box"].
Definition unregistered_msg : ActionDispatch := mkActionDispatch 9 1 "unregistered_action" [].
Definition place_msg : ActionDispatch := mkActionDispatch 6 1 "place" [].

Definition pickup_ai : ActionInterface :=
  AIService (mkServiceAI "pickup" "pickup_service" "default_feedback_topic").

(** The node after [__init__] with the pickup configuration. *)
Definition p_ready : Proc ActionInterface FactKB := exec (aim_init params_pickup) proc0.
Definition self_ready : AIM := fst (fst (aim_init params_pickup proc0)).

(** ** Specification section 8, concrete scenarios *)

(** The "pickup" scenario: a service interface whose call succeeds
    gives DISPATCHED(5,1), the start effects, the service call, the end
    effects and SUCCEEDED(5,1), in this order, and the knowledge base
    holds the operator's effects. *)
Example pickup_scenario :
  w_trace (p_world (exec (dispatch_callback env_ok self_ready pickup_msg) p_ready)) =
    [EvPublish "default_feedback_topic" (mkActionFeedback 5 1 ACTION_DISPATCHED_TO_GOAL_STATE);
     EvApplyEffects 5 1 "pickup" 0 true;
     EvRemote 5 1 (ReqCall "pickup_service");
     EvApplyEffects 5 1 "pickup" 1 true;
     EvPublish "default_feedback_topic" (mkActionFeedback 5 1 ACTION_SUCCEEDED_TO_GOAL_STATE)] ∧
  kb_facts (w_kb (p_world (exec (dispatch_callback env_ok self_ready pickup_msg) p_ready))) =
    {[ ("holding", ["box"]) ]}.
Proof. split; vm_compute; reflexivity. Qed.

Definition place_ai : ActionInterface := AIService (mkServiceAI "place" "place_service" "feedback_b").

(** A knowledge base that cannot apply any effect (no operators). *)
Definition p_ready_nodomain : Proc ActionInterface FactKB :=
  exec (aim_init params_pickup) (mkProc ∅ (mkWorld kb_empty_domain [])).

Definition pickup_al : ActionlibAI := mkActionlibAI "pickup" "pickup_server" 2 "t".

Definition pick_states : gmap string FSMState :=
  {[ "approach" := mkFSMState "move_base" {[ "done" := "grasp" ]};
     "grasp" := mkFSMState "gripper" {[ "done" := "succeeded" ]} ]}.
Definition pick_fsm : FSMAI := mkFSMAI "pickup" pick_states "approach" "succeeded" "failed" 5 "t".
Definition env_blocked : Env := mkEnv (λ _ _, None) (λ _ _, []) (λ _ _, "blocked").

Definition pick_rank (s : string) : nat :=
  if decide (s = "approach") then 2 else if decide (s = "grasp") then 1 else 0.

(** The node with its receive queue, ready, nothing received yet. *)
Definition q_ready : QNode FactKB := mkQNode (mkNode p_ready self_ready PReady) [] [] [] [] [].

(** After "pickup" (5,1) and "place" (6,1) arrived, were read together,
    and were handled in this order ("place" is not registered). *)
Definition p_two : Proc ActionInterface FactKB :=
  exec (dispatch_callback env_ok self_ready place_msg) (exec (dispatch_callback env_ok self_ready pickup_msg) p_ready).
Definition q_two : QNode FactKB :=
  mkQNode (mkNode p_two self_ready PReady) [] [] [pickup_msg; place_msg] [pickup_msg; place_msg] [].

(** Eleven "pickup" commands of plan 2, action ids 0 to 10. *)
Definition burst : list ActionDispatch := (λ i : nat, mkActionDispatch (Z.of_nat i) 2 "pickup" []) <$> seq 0 11.

(** An operator whose start effects name a parameter ("robot") the
    dispatch message does not bind: the start effects cannot be grounded
    and fail, the end effects apply. *)
Definition pickup_op_robot : Operator :=
  mkOperator [mkAtom "busy" ["robot"]] [] [mkAtom "holding" ["obj"]] [mkAtom "ontable" ["obj"]].
Definition kb_robot : FactKB :=
  mkFactKB {[ ("handempty", []); ("ontable", ["box"]) ]} {[ "pickup" := pickup_op_robot ]}.
Definition p_ready_robot : Proc ActionInterface FactKB :=
  exec (aim_init params_pickup) (mkProc ∅ (mkWorld kb_robot [])).

(** ** Witnesses *)

Lemma dispatch_callback_refines_witness :
  p_action_interfaces p_ready !! name pickup_msg = Some pickup_ai ∧
  aim_feedback_pub self_ready = Some "default_feedback_topic" ∧
  ∃ new b,
    w_trace (p_world (exec (dispatch_callback env_ok self_ready pickup_msg) p_ready)) =
      w_trace (p_world p_ready) ++ new ∧
    Forall (about (cmd_key pickup_msg)) new ∧
    lifecycle_shape (observations (cmd_key pickup_msg) new) b ∧
    p_action_interfaces (exec (dispatch_callback env_ok self_ready pickup_msg) p_ready) =
      p_action_interfaces p_ready.
Proof.
  assert (H1 : p_action_interfaces p_ready !! name pickup_msg = Some pickup_ai) by (vm_compute; reflexivity).
  assert (H2 : aim_feedback_pub self_ready = Some "default_feedback_topic") by (vm_compute; reflexivity).
  split; [exact H1|]. split; [exact H2|].
  exact (dispatch_callback_refines env_ok self_ready pickup_msg p_ready pickup_ai _ H1 H2).
Defined.

Lemma node_unregistered_ignored_witness :
  callbacks_enabled PReady = true ∧ is_Some (aim_subscription self_ready) ∧
  p_action_interfaces p_ready !! name unregistered_msg = None ∧
  node_step env_ok params_pickup (mkNode p_ready self_ready PReady)
    (mkNode (exec (dispatch_callback env_ok self_ready unregistered_msg) p_ready) self_ready PReady) ∧
  exec (dispatch_callback env_ok self_ready unregistered_msg) p_ready = p_ready.
Proof.
  assert (H1 : callbacks_enabled PReady = true) by reflexivity.
  assert (H2 : is_Some (aim_subscription self_ready)) by (eexists; vm_compute; reflexivity).
  assert (H3 : p_action_interfaces p_ready !! name unregistered_msg = None) by (vm_compute; reflexivity).
  split; [exact H1|]. split; [exact H2|]. split; [exact H3|].
  exact (node_unregistered_ignored env_ok params_pickup (mkNode p_ready self_ready PReady)
           unregistered_msg H1 H2 H3).
Defined.

Lemma dispatch_callback_one_terminal_witness :
  p_action_interfaces p_ready !! name pickup_msg = Some pickup_ai ∧
  aim_feedback_pub self_ready = Some "default_feedback_topic" ∧
  ∃ new s,
    w_trace (p_world (exec (dispatch_callback env_ok self_ready pickup_msg) p_ready)) =
      w_trace (p_world p_ready) ++ new ∧
    terminal_count (observations (cmd_key pickup_msg) new) = 1 ∧
    is_terminal s = true ∧ last (observations (cmd_key pickup_msg) new) = Some (ObStatus s).
Proof.
  assert (H1 : p_action_interfaces p_ready !! name pickup_msg = Some pickup_ai) by (vm_compute; reflexivity).
  assert (H2 : aim_feedback_pub self_ready = Some "default_feedback_topic") by (vm_compute; reflexivity).
  split; [exact H1|]. split; [exact H2|].
  exact (dispatch_callback_one_terminal env_ok self_ready pickup_msg p_ready pickup_ai _ H1 H2).
Defined.

Lemma shared_registry_aliasing_witness :
  prm_actions params_a = Some [pickup_cfg] ∧ prm_actions params_b = Some [place_cfg] ∧
  snd (fst (aim_init params_b (exec (aim_init params_a) proc0))) = None ∧
  last (omap (named (feedback_topic_of params_b) (name place_msg)) [place_cfg]) = Some place_ai ∧
  ∃ new fb,
    w_trace (p_world (exec (dispatch_callback env_ok (fst (fst (aim_init params_a proc0))) place_msg)
                        (exec (aim_init params_b) (exec (aim_init params_a) proc0)))) =
      w_trace (p_world (exec (aim_init params_b) (exec (aim_init params_a) proc0))) ++ new ∧
    EvPublish (feedback_topic_of params_a) (feedback_for place_msg ACTION_DISPATCHED_TO_GOAL_STATE) ∈ new ∧
    EvPublish (feedback_topic_of params_b) fb ∈ new ∧ is_terminal (fb_status fb) = true.
Proof.
  assert (H1 : prm_actions params_a = Some [pickup_cfg]) by reflexivity.
  assert (H2 : prm_actions params_b = Some [place_cfg]) by reflexivity.
  assert (H3 : snd (fst (aim_init params_b (exec (aim_init params_a) proc0))) = None)
    by (vm_compute; reflexivity).
  assert (H4 : last (omap (named (feedback_topic_of params_b) (name place_msg)) [place_cfg]) = Some place_ai)
    by (vm_compute; reflexivity).
  split; [exact H1|]. split; [exact H2|]. split; [exact H3|]. split; [exact H4|].
  exact (shared_registry_aliasing env_ok params_a params_b proc0 _ _ place_msg place_ai H1 H2 H3 H4).
Defined.

Lemma early_command_dropped_witness :
  prm_actions params_pickup = Some [pickup_cfg] ∧
  p_action_interfaces proc0 !! name pickup_msg = None ∧
  fst (parse_config (feedback_topic_of params_pickup) [pickup_cfg] (p_action_interfaces proc0)) = None ∧
  last (omap (named (feedback_topic_of params_pickup) (name pickup_msg)) [pickup_cfg]) = Some pickup_ai ∧
  ∃ s1 s2,
    node_step env_ok params_pickup (node_init proc0) s1 ∧ callbacks_enabled (n_phase s1) = true ∧
    dispatch_callback env_ok (n_self s1) pickup_msg (n_proc s1) = (tt, n_proc s1) ∧
    rtc (node_step env_ok params_pickup) s1 s2 ∧ n_phase s2 = PReady ∧
    p_action_interfaces (n_proc s2) !! name pickup_msg = Some pickup_ai.
Proof.
  assert (H1 : prm_actions params_pickup = Some [pickup_cfg]) by reflexivity.
  assert (H2 : p_action_interfaces proc0 !! name pickup_msg = None) by (vm_compute; reflexivity).
  assert (H3 : fst (parse_config (feedback_topic_of params_pickup) [pickup_cfg] (p_action_interfaces proc0)) = None)
    by (vm_compute; reflexivity).
  assert (H4 : last (omap (named (feedback_topic_of params_pickup) (name pickup_msg)) [pickup_cfg]) = Some pickup_ai)
    by (vm_compute; reflexivity).
  split; [exact H1|]. split; [exact H2|]. split; [exact H3|]. split; [exact H4|].
  exact (early_command_dropped env_ok params_pickup proc0 _ pickup_msg pickup_ai H1 H2 H3 H4).
Defined.

Lemma parse_config_last_wins_witness :
  build "t" pickup_cfg = Some (inr (AIService (mkServiceAI "pickup" "pickup_service" "t"))) ∧
  build "t" pickup_actionlib_cfg = Some (inr (AIActionlib (mkActionlibAI "pickup" "pickup_server" 3 "t"))) ∧
  ai_name (AIService (mkServiceAI "pickup" "pickup_service" "t")) =
    ai_name (AIActionlib (mkActionlibAI "pickup" "pickup_server" 3 "t")) ∧
  parse_config "t" [pickup_cfg; pickup_actionlib_cfg] ∅ =
    (None, <[ai_name (AIActionlib (mkActionlibAI "pickup" "pickup_server" 3 "t")) :=
             AIActionlib (mkActionlibAI "pickup" "pickup_server" 3 "t")]> ∅).
Proof.
  assert (H1 : build "t" pickup_cfg = Some (inr (AIService (mkServiceAI "pickup" "pickup_service" "t"))))
    by (vm_compute; reflexivity).
  assert (H2 : build "t" pickup_actionlib_cfg =
                 Some (inr (AIActionlib (mkActionlibAI "pickup" "pickup_server" 3 "t"))))
    by (vm_compute; reflexivity).
  assert (H3 : ai_name (AIService (mkServiceAI "pickup" "pickup_service" "t")) =
                 ai_name (AIActionlib (mkActionlibAI "pickup" "pickup_server" 3 "t"))) by reflexivity.
  split; [exact H1|]. split; [exact H2|]. split; [exact H3|].
  exact (parse_config_last_wins "t" _ _ _ _ ∅ H1 H2 H3).
Defined.

Lemma parse_entry_unknown_type_witness :
  cfg_interface_type smach_cfg = Some "smach" ∧ "smach" ≠ "actionlib" ∧ "smach" ≠ "service" ∧
  "smach" ≠ "fsm" ∧ parse_entry "t" smach_cfg ∅ = (None, ∅).
Proof.
  assert (H1 : cfg_interface_type smach_cfg = Some "smach") by reflexivity.
  assert (H2 : "smach" ≠ "actionlib") by discriminate.
  assert (H3 : "smach" ≠ "service") by discriminate.
  assert (H4 : "smach" ≠ "fsm") by discriminate.
  split_and!; try assumption.
  exact (parse_entry_unknown_type "t" smach_cfg ∅ "smach" H1 H2 H3 H4).
Defined.

Lemma parse_config_key_error_witness :
  fst (parse_config "t" [pickup_cfg] ∅) = None ∧ cfg_interface_type untyped_cfg = None ∧
  parse_config "t" ([pickup_cfg] ++ untyped_cfg :: [place_cfg]) ∅ =
    (Some (KeyError "interface_type"), snd (parse_config "t" [pickup_cfg] ∅)).
Proof.
  assert (H1 : fst (parse_config "t" [pickup_cfg] ∅) = None) by (vm_compute; reflexivity).
  assert (H2 : cfg_interface_type untyped_cfg = None) by reflexivity.
  split; [exact H1|]. split; [exact H2|].
  exact (parse_config_key_error "t" [pickup_cfg] untyped_cfg [place_cfg] ∅ H1 H2).
Defined.

Definition s_shutdown : Node FactKB := mkNode (exec (on_world config_not_found) proc0) aim_fresh PShutdown.

Lemma node_shutdown_silent_witness :
  rtc (node_step env_ok params_none) (node_init proc0) s_shutdown ∧ n_phase s_shutdown = PShutdown ∧
  (w_trace (p_world (n_proc s_shutdown)) =
     w_trace (p_world proc0) ++ [EvLogErr "KCL: Error: configuration file was not laoded.";
                                 EvShutdown "Config not found"] ∧
   p_action_interfaces (n_proc s_shutdown) = p_action_interfaces proc0 ∧
   ∀ s', ¬ node_step env_ok params_none s_shutdown s').
Proof.
  assert (H1 : rtc (node_step env_ok params_none) (node_init proc0) s_shutdown)
    by (apply rtc_once; by apply step_init, step_no_config).
  assert (H2 : n_phase s_shutdown = PShutdown) by reflexivity.
  split; [exact H1|]. split; [exact H2|].
  exact (node_shutdown_silent env_ok params_none proc0 s_shutdown H1 H2).
Defined.

Definition s_parsed : Node FactKB :=
  mkNode (exec (on_dict (parse_config "default_feedback_topic" [pickup_cfg])) proc0)
    (init_attributes params_pickup [pickup_cfg])
    (init_phase (fst (parse_config "default_feedback_topic" [pickup_cfg] (p_action_interfaces proc0)))).

Lemma node_registry_from_config_witness :
  rtc (node_step env_ok params_pickup) (node_init proc0) s_parsed ∧
  p_action_interfaces (n_proc s_parsed) !! "pickup" = Some pickup_ai ∧
  (p_action_interfaces proc0 !! "pickup" = Some pickup_ai ∨
   ("pickup" = ai_name pickup_ai ∧ ai_topic pickup_ai = feedback_topic_of params_pickup ∧
    ∃ cfgs a, prm_actions params_pickup = Some cfgs ∧ a ∈ cfgs ∧
      build (feedback_topic_of params_pickup) a = Some (inr pickup_ai))).
Proof.
  assert (H1 : rtc (node_step env_ok params_pickup) (node_init proc0) s_parsed).
  { eapply rtc_l; [by apply step_init, step_subscribe|].
    exact (parsing_steps env_ok params_pickup (init_attributes params_pickup [pickup_cfg])
             "default_feedback_topic" [pickup_cfg] proc0 eq_refl). }
  assert (H2 : p_action_interfaces (n_proc s_parsed) !! "pickup" = Some pickup_ai) by (vm_compute; reflexivity).
  split; [exact H1|]. split; [exact H2|].
  exact (node_registry_from_config env_ok params_pickup proc0 s_parsed "pickup" pickup_ai H1 H2).
Defined.

Lemma dispatch_callback_ignores_start_failure_witness :
  p_action_interfaces p_ready_nodomain !! name pickup_msg = Some pickup_ai ∧
  aim_feedback_pub self_ready = Some "default_feedback_topic" ∧
  apply_ok pickup_msg 0 (exec (publish "default_feedback_topic"
    (feedback_for pickup_msg ACTION_DISPATCHED_TO_GOAL_STATE)) (p_world p_ready_nodomain)) = false ∧
  ∃ rest fb,
    w_trace (p_world (exec (dispatch_callback env_ok self_ready pickup_msg) p_ready_nodomain)) =
      w_trace (p_world p_ready_nodomain) ++
        [EvPublish "default_feedback_topic" (feedback_for pickup_msg ACTION_DISPATCHED_TO_GOAL_STATE);
         EvApplyEffects (action_id pickup_msg) (plan_id pickup_msg) (name pickup_msg) 0 false] ++ rest ∧
    EvPublish (feedback_topic pickup_ai) fb ∈ rest ∧ is_terminal (fb_status fb) = true.
Proof.
  assert (H1 : p_action_interfaces p_ready_nodomain !! name pickup_msg = Some pickup_ai)
    by (vm_compute; reflexivity).
  assert (H2 : aim_feedback_pub self_ready = Some "default_feedback_topic") by (vm_compute; reflexivity).
  assert (H3 : apply_ok pickup_msg 0 (exec (publish "default_feedback_topic"
    (feedback_for pickup_msg ACTION_DISPATCHED_TO_GOAL_STATE)) (p_world p_ready_nodomain)) = false)
    by (vm_compute; reflexivity).
  split; [exact H1|]. split; [exact H2|]. split; [exact H3|].
  exact (dispatch_callback_ignores_start_failure env_ok self_ready pickup_msg p_ready_nodomain
           pickup_ai _ H1 H2 H3).
Defined.

Definition w0 : World FactKB := mkWorld kb0 [].

Definition al_statuses : list RemoteStatus := [RActive; RPending; RSucceeded].
Definition al_statuses' : list RemoteStatus := [RActive; RPending; RAborted].
Definition env_al : Env := mkEnv (λ _ _, None) (λ _ _, al_statuses) (λ _ _, "done").
Definition env_al' : Env := mkEnv (λ _ _, None) (λ _ _, al_statuses') (λ _ _, "done").

Definition p_al : Proc ActionInterface FactKB := mkProc {[ "pickup" := AIActionlib pickup_al ]} w0.
Definition p_fsm : Proc ActionInterface FactKB := mkProc {[ "pickup" := AIFSM pick_fsm ]} w0.

Definition approach_state : FSMState := mkFSMState "move_base" {[ "done" := "grasp" ]}.

Lemma pick_rank_decreases x y : fsm_step pick_fsm env_ok pickup_msg x y → pick_rank y < pick_rank x.
Proof.
  intros Hst. inversion Hst as [? ? Hn]; subst. unfold fsm_next in Hn.
  destruct (fsm_terminal pick_fsm x); [done|]. simpl in Hn. unfold pick_states in Hn.
  destruct (decide (x = "approach")) as [->|H1].
  { vm_compute in Hn. injection Hn as <-. vm_compute. lia. }
  destruct (decide (x = "grasp")) as [->|H2].
  { vm_compute in Hn. injection Hn as <-. vm_compute. lia. }
  rewrite lookup_insert_ne, lookup_singleton_ne in Hn by congruence. done.
Qed.

Lemma dispatch_service_outcome_witness :
  p_action_interfaces p_ready !! name pickup_msg = Some (AIService (mkServiceAI "pickup" "pickup_service" "default_feedback_topic")) ∧
  aim_feedback_pub self_ready = Some "default_feedback_topic" ∧
  ∃ ok,
    w_trace (p_world (exec (dispatch_callback env_ok self_ready pickup_msg) p_ready)) =
      w_trace (p_world p_ready) ++ dispatch_prefix "default_feedback_topic" pickup_msg (p_world p_ready) ++
      EvRemote (action_id pickup_msg) (plan_id pickup_msg) (ReqCall "pickup_service") ::
      if bool_decide (env_service env_ok "pickup_service" pickup_msg = Some true)
      then [EvApplyEffects (action_id pickup_msg) (plan_id pickup_msg) (name pickup_msg) 1 ok;
            EvPublish "default_feedback_topic" (feedback_for pickup_msg ACTION_SUCCEEDED_TO_GOAL_STATE)]
      else [EvPublish "default_feedback_topic" (feedback_for pickup_msg ACTION_FAILED)].
Proof.
  assert (H1 : p_action_interfaces p_ready !! name pickup_msg =
                 Some (AIService (mkServiceAI "pickup" "pickup_service" "default_feedback_topic")))
    by (vm_compute; reflexivity).
  assert (H2 : aim_feedback_pub self_ready = Some "default_feedback_topic") by (vm_compute; reflexivity).
  split; [exact H1|]. split; [exact H2|].
  exact (dispatch_service_outcome env_ok self_ready pickup_msg p_ready _ _ H1 H2).
Defined.

Lemma dispatch_actionlib_timeout_witness :
  p_action_interfaces p_al !! name pickup_msg = Some (AIActionlib pickup_al) ∧
  aim_feedback_pub self_ready = Some "default_feedback_topic" ∧
  Forall (λ r, remote_quiet r = true) (take (al_timeout pickup_al) (env_actionlib env_al (al_server pickup_al) pickup_msg)) ∧
  ∃ mids, Forall (progress_event (al_topic pickup_al) pickup_msg) mids ∧
    w_trace (p_world (exec (dispatch_callback env_al self_ready pickup_msg) p_al)) =
      w_trace (p_world p_al) ++ dispatch_prefix "default_feedback_topic" pickup_msg (p_world p_al) ++
      EvRemote (action_id pickup_msg) (plan_id pickup_msg) (ReqGoal (al_server pickup_al)) ::
      mids ++ [EvRemote (action_id pickup_msg) (plan_id pickup_msg) (ReqCancel (al_server pickup_al));
               EvPublish (al_topic pickup_al) (feedback_for pickup_msg ACTION_FAILED)].
Proof.
  assert (H1 : p_action_interfaces p_al !! name pickup_msg = Some (AIActionlib pickup_al))
    by (vm_compute; reflexivity).
  assert (H2 : aim_feedback_pub self_ready = Some "default_feedback_topic") by (vm_compute; reflexivity).
  assert (H3 : Forall (λ r, remote_quiet r = true)
                 (take (al_timeout pickup_al) (env_actionlib env_al (al_server pickup_al) pickup_msg)))
    by (repeat constructor).
  split; [exact H1|]. split; [exact H2|]. split; [exact H3|].
  exact (dispatch_actionlib_timeout env_al self_ready pickup_msg p_al pickup_al _ H1 H2 H3).
Defined.

Lemma dispatch_actionlib_bounded_witness :
  p_action_interfaces p_al !! name pickup_msg = Some (AIActionlib pickup_al) ∧
  take (al_timeout pickup_al) (env_actionlib env_al (al_server pickup_al) pickup_msg) =
    take (al_timeout pickup_al) (env_actionlib env_al' (al_server pickup_al) pickup_msg) ∧
  exec (dispatch_callback env_al self_ready pickup_msg) p_al = exec (dispatch_callback env_al' self_ready pickup_msg) p_al.
Proof.
  assert (H1 : p_action_interfaces p_al !! name pickup_msg = Some (AIActionlib pickup_al))
    by (vm_compute; reflexivity).
  assert (H2 : take (al_timeout pickup_al) (env_actionlib env_al (al_server pickup_al) pickup_msg) =
                 take (al_timeout pickup_al) (env_actionlib env_al' (al_server pickup_al) pickup_msg))
    by reflexivity.
  split; [exact H1|]. split; [exact H2|].
  exact (dispatch_actionlib_bounded env_al env_al' self_ready pickup_msg p_al pickup_al H1 H2).
Defined.

Lemma dispatch_fsm_missing_transition_witness :
  p_action_interfaces p_fsm !! name pickup_msg = Some (AIFSM pick_fsm) ∧
  aim_feedback_pub self_ready = Some "default_feedback_topic" ∧
  fsm_initial pick_fsm ≠ fsm_success pick_fsm ∧ fsm_initial pick_fsm ≠ fsm_fail pick_fsm ∧
  fsm_states pick_fsm !! fsm_initial pick_fsm = Some approach_state ∧
  fs_transitions approach_state !! env_fsm env_blocked (fs_action approach_state) pickup_msg = None ∧
  fsm_timeout pick_fsm = S 4 ∧
  w_trace (p_world (exec (dispatch_callback env_blocked self_ready pickup_msg) p_fsm)) =
    w_trace (p_world p_fsm) ++ dispatch_prefix "default_feedback_topic" pickup_msg (p_world p_fsm) ++
    [EvRemote (action_id pickup_msg) (plan_id pickup_msg) (ReqCall (fs_action approach_state));
     EvPublish (fsm_topic pick_fsm) (feedback_for pickup_msg ACTION_FAILED)].
Proof.
  assert (H1 : p_action_interfaces p_fsm !! name pickup_msg = Some (AIFSM pick_fsm))
    by (vm_compute; reflexivity).
  assert (H2 : aim_feedback_pub self_ready = Some "default_feedback_topic") by (vm_compute; reflexivity).
  assert (H3 : fsm_initial pick_fsm ≠ fsm_success pick_fsm) by discriminate.
  assert (H4 : fsm_initial pick_fsm ≠ fsm_fail pick_fsm) by discriminate.
  assert (H5 : fsm_states pick_fsm !! fsm_initial pick_fsm = Some approach_state) by (vm_compute; reflexivity).
  assert (H6 : fs_transitions approach_state !! env_fsm env_blocked (fs_action approach_state) pickup_msg = None)
    by (vm_compute; reflexivity).
  assert (H7 : fsm_timeout pick_fsm = S 4) by reflexivity.
  split_and!; try assumption.
  exact (dispatch_fsm_missing_transition env_blocked self_ready pickup_msg p_fsm pick_fsm _ approach_state 4
           H1 H2 H3 H4 H5 H6 H7).
Defined.

Lemma dispatch_fsm_succeeds_iff_witness :
  p_action_interfaces p_fsm !! name pickup_msg = Some (AIFSM pick_fsm) ∧
  aim_feedback_pub self_ready = Some "default_feedback_topic" ∧
  ∃ new,
    w_trace (p_world (exec (dispatch_callback env_ok self_ready pickup_msg) p_fsm)) = w_trace (p_world p_fsm) ++ new ∧
    (last (observations (cmd_key pickup_msg) new) = Some (ObStatus ACTION_SUCCEEDED_TO_GOAL_STATE) ↔
     ∃ n, n ≤ fsm_timeout pick_fsm ∧
       nsteps (fsm_step pick_fsm env_ok pickup_msg) n (fsm_initial pick_fsm) (fsm_success pick_fsm)).
Proof.
  assert (H1 : p_action_interfaces p_fsm !! name pickup_msg = Some (AIFSM pick_fsm))
    by (vm_compute; reflexivity).
  assert (H2 : aim_feedback_pub self_ready = Some "default_feedback_topic") by (vm_compute; reflexivity).
  split; [exact H1|]. split; [exact H2|].
  exact (dispatch_fsm_succeeds_iff env_ok self_ready pickup_msg p_fsm pick_fsm _ H1 H2).
Defined.

Lemma dispatch_fsm_timeout_irrelevant_witness :
  p_action_interfaces p_fsm !! name pickup_msg = Some (AIFSM pick_fsm) ∧
  (∀ x y, fsm_step pick_fsm env_ok pickup_msg x y → pick_rank y < pick_rank x) ∧
  pick_rank (fsm_initial pick_fsm) < fsm_timeout pick_fsm ∧ pick_rank (fsm_initial pick_fsm) < 7 ∧
  p_world (exec (dispatch_callback env_ok self_ready pickup_msg) p_fsm) =
  p_world (exec (dispatch_callback env_ok self_ready pickup_msg)
             (mkProc (<[name pickup_msg := AIFSM (mkFSMAI (fsm_action_name pick_fsm) (fsm_states pick_fsm)
                (fsm_initial pick_fsm) (fsm_success pick_fsm) (fsm_fail pick_fsm) 7 (fsm_topic pick_fsm))]>
                (p_action_interfaces p_fsm)) (p_world p_fsm))).
Proof.
  assert (H1 : p_action_interfaces p_fsm !! name pickup_msg = Some (AIFSM pick_fsm))
    by (vm_compute; reflexivity).
  assert (H3 : pick_rank (fsm_initial pick_fsm) < fsm_timeout pick_fsm) by (vm_compute; lia).
  assert (H4 : pick_rank (fsm_initial pick_fsm) < 7) by (vm_compute; lia).
  split; [exact H1|]. split; [exact pick_rank_decreases|]. split; [exact H3|]. split; [exact H4|].
  exact (dispatch_fsm_timeout_irrelevant env_ok self_ready pickup_msg p_fsm pick_fsm 7 pick_rank
           H1 pick_rank_decreases H3 H4).
Defined.

(** ** The receive queue *)

Lemma q_ready_reachable : rtc (qstep env_ok params_pickup) (qnode_init proc0) q_ready.
Proof.
  eapply rtc_l; [apply qstep_init, step_subscribe; reflexivity|].
  eapply rtc_l; [apply qstep_init, (step_parse params_pickup _ _ "default_feedback_topic"); reflexivity|].
  apply rtc_once.
  assert (Hn : mkNode (exec (on_dict (parse_entry "default_feedback_topic" pickup_cfg)) proc0)
                 (init_attributes params_pickup [pickup_cfg])
                 (after_parse (fst (parse_entry "default_feedback_topic" pickup_cfg (p_action_interfaces proc0))) [])
               = mkNode p_ready self_ready (PParsing [])) by (vm_compute; reflexivity).
  rewrite Hn. apply qstep_init, step_ready.
Qed.

Lemma q_two_reachable : rtc (qstep env_ok params_pickup) (qnode_init proc0) q_two.
Proof.
  etrans; [exact q_ready_reachable|].
  eapply rtc_l; [apply (qstep_arrive env_ok params_pickup _ [] [] [] [] [] pickup_msg); [done|by eexists]|].
  eapply rtc_l; [apply (qstep_arrive env_ok params_pickup _ _ [] _ [] [] place_msg); [done|by eexists]|].
  eapply rtc_l; [apply (qstep_read env_ok params_pickup _ [pickup_msg; place_msg] []); [done|done]|].
  eapply rtc_l; [apply (qstep_callback env_ok params_pickup p_ready self_ready PReady pickup_msg); [done|by eexists]|].
  apply rtc_once. apply (qstep_callback env_ok params_pickup _ self_ready PReady place_msg); [done|by eexists].
Qed.

Definition q_arrived_pickup : QNode FactKB :=
  mkQNode (mkNode p_ready self_ready PReady) [pickup_msg] [] [pickup_msg] [] [].

Lemma queue_batch_bound_witness :
  rtc (qstep env_ok params_pickup) (qnode_init proc0) q_two ∧ length (q_batch q_two) ≤ dispatch_queue_size.
Proof.
  split; [exact q_two_reachable|]. exact (queue_batch_bound env_ok params_pickup proc0 q_two q_two_reachable).
Defined.

Lemma queue_sequential_consistency_witness :
  rtc (qstep env_ok params_pickup) (qnode_init proc0) q_two ∧ w_trace (p_world proc0) = [] ∧
  NoDup (cmd_key <$> q_handled q_two) ∧
  ∃ os, fst <$> os = q_handled q_two ∧
    w_kb (p_world (n_proc (q_node q_two))) = apply_outcomes os (w_kb (p_world proc0)) ∧
    ∀ m ob, (m, ob) ∈ os →
      match ob with
      | None => observations (cmd_key m) (w_trace (p_world (n_proc (q_node q_two)))) = []
      | Some b => lifecycle_shape (observations (cmd_key m) (w_trace (p_world (n_proc (q_node q_two))))) b
      end.
Proof.
  assert (H0 : w_trace (p_world proc0) = []) by reflexivity.
  assert (Hnd : NoDup (cmd_key <$> q_handled q_two)) by (apply (bool_decide_unpack _); vm_compute; reflexivity).
  split; [exact q_two_reachable|]. split; [exact H0|]. split; [exact Hnd|].
  exact (queue_sequential_consistency env_ok params_pickup proc0 q_two q_two_reachable H0 Hnd).
Defined.

Lemma queue_commands_serialised_witness :
  rtc (qstep env_ok params_pickup) (qnode_init proc0) q_two ∧ w_trace (p_world proc0) = [] ∧
  NoDup (cmd_key <$> q_handled q_two) ∧ q_handled q_two = [pickup_msg] ++ [place_msg] ∧
  pickup_msg ∈ [pickup_msg] ∧ place_msg ∈ [place_msg] ∧
  ∃ t1 t2, w_trace (p_world (n_proc (q_node q_two))) = t1 ++ t2 ∧
    observations (cmd_key place_msg) t1 = [] ∧ observations (cmd_key pickup_msg) t2 = [].
Proof.
  assert (H0 : w_trace (p_world proc0) = []) by reflexivity.
  assert (Hnd : NoDup (cmd_key <$> q_handled q_two)) by (apply (bool_decide_unpack _); vm_compute; reflexivity).
  assert (Hs : q_handled q_two = [pickup_msg] ++ [place_msg]) by reflexivity.
  assert (H1 : pickup_msg ∈ [pickup_msg]) by (apply (bool_decide_unpack _); vm_compute; reflexivity).
  assert (H2 : place_msg ∈ [place_msg]) by (apply (bool_decide_unpack _); vm_compute; reflexivity).
  split; [exact q_two_reachable|]. split; [exact H0|]. split; [exact Hnd|]. split; [exact Hs|].
  split; [exact H1|]. split; [exact H2|].
  exact (queue_commands_serialised env_ok params_pickup proc0 q_two [pickup_msg] [place_msg] pickup_msg place_msg
           q_two_reachable H0 Hnd Hs H1 H2).
Defined.

Lemma queue_overflow_loses_command_witness :
  rtc (qstep env_ok params_pickup) (qnode_init proc0) q_ready ∧ w_trace (p_world proc0) = [] ∧
  callbacks_enabled (n_phase (q_node q_ready)) = true ∧ q_unread q_ready = [] ∧ q_batch q_ready = [] ∧
  length burst = S dispatch_queue_size ∧ head burst = Some (mkActionDispatch 0 2 "pickup" []) ∧
  ∃ s1, rtc (qstep env_ok params_pickup) q_ready s1 ∧ mkActionDispatch 0 2 "pickup" [] ∈ q_lost s1 ∧
    ∀ s', rtc (qstep env_ok params_pickup) s1 s' → NoDup (cmd_key <$> q_arrived s') →
      (mkActionDispatch 0 2 "pickup" [] ∉ q_handled s') ∧
      observations (cmd_key (mkActionDispatch 0 2 "pickup" [])) (w_trace (p_world (n_proc (q_node s')))) = [].
Proof.
  assert (H0 : w_trace (p_world proc0) = []) by reflexivity.
  assert (Hen : callbacks_enabled (n_phase (q_node q_ready)) = true) by reflexivity.
  assert (Hub : q_unread q_ready = []) by reflexivity.
  assert (Hba : q_batch q_ready = []) by reflexivity.
  assert (Hlen : length burst = S dispatch_queue_size) by reflexivity.
  assert (Hhd : head burst = Some (mkActionDispatch 0 2 "pickup" [])) by reflexivity.
  split; [exact q_ready_reachable|]. split; [exact H0|]. split; [exact Hen|]. split; [exact Hub|].
  split; [exact Hba|]. split; [exact Hlen|]. split; [exact Hhd|].
  exact (queue_overflow_loses_command env_ok params_pickup proc0 q_ready burst _
           q_ready_reachable H0 Hen Hub Hba Hlen Hhd).
Defined.

(** ** External cancellation of an actionlib goal *)

(** The server reports ACTIVE, a cancel request arrives, and the server
    then reports SUCCEEDED. *)
Definition env_cancel : Env :=
  mkEnv (λ _ _, None) (λ _ _, [RActive; RCancelRequest; RSucceeded]) (λ _ _, "done").

Lemma dispatch_actionlib_cancelled_witness :
  p_action_interfaces p_al !! name pickup_msg = Some (AIActionlib pickup_al) ∧
  aim_feedback_pub self_ready = Some "default_feedback_topic" ∧
  env_actionlib env_cancel (al_server pickup_al) pickup_msg = [RActive] ++ RCancelRequest :: [RSucceeded] ∧
  Forall (λ r, remote_quiet r = true) [RActive] ∧ length [RActive] < al_timeout pickup_al ∧
  ∃ new,
    w_trace (p_world (exec (dispatch_callback env_cancel self_ready pickup_msg) p_al)) =
      w_trace (p_world p_al) ++ dispatch_prefix "default_feedback_topic" pickup_msg (p_world p_al) ++
      EvRemote (action_id pickup_msg) (plan_id pickup_msg) (ReqGoal (al_server pickup_al)) :: new ∧
    EvRemote (action_id pickup_msg) (plan_id pickup_msg) (ReqCancel (al_server pickup_al)) ∈ new ∧
    last (observations (cmd_key pickup_msg) new) = Some (ObStatus ACTION_FAILED) ∧
    ObEffects 1 ∉ observations (cmd_key pickup_msg) new.
Proof.
  assert (H1 : p_action_interfaces p_al !! name pickup_msg = Some (AIActionlib pickup_al))
    by (vm_compute; reflexivity).
  assert (H2 : aim_feedback_pub self_ready = Some "default_feedback_topic") by (vm_compute; reflexivity).
  assert (H3 : env_actionlib env_cancel (al_server pickup_al) pickup_msg = [RActive] ++ RCancelRequest :: [RSucceeded])
    by reflexivity.
  assert (H4 : Forall (λ r, remote_quiet r = true) [RActive]) by (repeat constructor).
  assert (H5 : length [RActive] < al_timeout pickup_al) by (simpl; lia).
  split; [exact H1|]. split; [exact H2|]. split; [exact H3|]. split; [exact H4|]. split; [exact H5|].
  exact (dispatch_actionlib_cancelled env_cancel self_ready pickup_msg p_al pickup_al _ [RActive] [RSucceeded]
           H1 H2 H3 H4 H5).
Defined.

(** ** Effects on the knowledge base *)

Lemma dispatch_callback_effects_witness :
  p_action_interfaces p_ready !! name pickup_msg = Some pickup_ai ∧
  aim_feedback_pub self_ready = Some "default_feedback_topic" ∧
  ∃ new b,
    w_trace (p_world (exec (dispatch_callback env_ok self_ready pickup_msg) p_ready)) =
      w_trace (p_world p_ready) ++ new ∧
    lifecycle_shape (observations (cmd_key pickup_msg) new) b ∧
    w_kb (p_world (exec (dispatch_callback env_ok self_ready pickup_msg) p_ready)) =
      (if b then λ kb, (kb_apply_action_effects pickup_msg 1 kb).2 else id)
        (kb_apply_action_effects pickup_msg 0 (w_kb (p_world p_ready))).2.
Proof.
  assert (H1 : p_action_interfaces p_ready !! name pickup_msg = Some pickup_ai) by (vm_compute; reflexivity).
  assert (H2 : aim_feedback_pub self_ready = Some "default_feedback_topic") by (vm_compute; reflexivity).
  split; [exact H1|]. split; [exact H2|].
  exact (dispatch_callback_effects env_ok self_ready pickup_msg p_ready pickup_ai _ H1 H2).
Defined.

Lemma dispatch_end_effects_without_start_witness :
  p_action_interfaces p_ready_robot !! name pickup_msg = Some pickup_ai ∧
  aim_feedback_pub self_ready = Some "default_feedback_topic" ∧
  apply_ok pickup_msg 0 (exec (publish "default_feedback_topic"
    (feedback_for pickup_msg ACTION_DISPATCHED_TO_GOAL_STATE)) (p_world p_ready_robot)) = false ∧
  ∃ new b,
    w_trace (p_world (exec (dispatch_callback env_ok self_ready pickup_msg) p_ready_robot)) =
      w_trace (p_world p_ready_robot) ++ new ∧
    lifecycle_shape (observations (cmd_key pickup_msg) new) b ∧
    w_kb (p_world (exec (dispatch_callback env_ok self_ready pickup_msg) p_ready_robot)) =
      if b then (kb_apply_action_effects pickup_msg 1 (w_kb (p_world p_ready_robot))).2
      else w_kb (p_world p_ready_robot).
Proof.
  assert (H1 : p_action_interfaces p_ready_robot !! name pickup_msg = Some pickup_ai) by (vm_compute; reflexivity).
  assert (H2 : aim_feedback_pub self_ready = Some "default_feedback_topic") by (vm_compute; reflexivity).
  assert (H3 : apply_ok pickup_msg 0 (exec (publish "default_feedback_topic"
    (feedback_for pickup_msg ACTION_DISPATCHED_TO_GOAL_STATE)) (p_world p_ready_robot)) = false)
    by (vm_compute; reflexivity).
  split; [exact H1|]. split; [exact H2|]. split; [exact H3|].
  exact (dispatch_end_effects_without_start env_ok self_ready pickup_msg p_ready_robot pickup_ai _ H1 H2 H3).
Defined.

(** On that knowledge base the pickup command succeeds and its end effects
    are applied while its start effects never were. *)
Example pickup_end_without_start :
  kb_facts (w_kb (p_world (exec (dispatch_callback env_ok self_ready pickup_msg) p_ready_robot))) =
    {[ ("handempty", []); ("holding", ["box"]) ]} ∧
  last (w_trace (p_world (exec (dispatch_callback env_ok self_ready pickup_msg) p_ready_robot))) =
    Some (EvPublish "default_feedback_topic" (mkActionFeedback 5 1 ACTION_SUCCEEDED_TO_GOAL_STATE)).
Proof. split; vm_compute; reflexivity. Qed.

Lemma queue_trace_wellformed_witness :
  rtc (qstep env_ok params_pickup) (qnode_init proc0) q_two ∧ w_trace (p_world proc0) = [] ∧
  EvPublish "default_feedback_topic" (mkActionFeedback 5 1 ACTION_DISPATCHED_TO_GOAL_STATE)
    ∈ w_trace (p_world (n_proc (q_node q_two))) ∧
  (event_key (EvPublish "default_feedback_topic" (mkActionFeedback 5 1 ACTION_DISPATCHED_TO_GOAL_STATE)) = None ∨
   ∃ m, m ∈ q_handled q_two ∧
     event_key (EvPublish "default_feedback_topic" (mkActionFeedback 5 1 ACTION_DISPATCHED_TO_GOAL_STATE)) =
       Some (cmd_key m)).
Proof.
  assert (H0 : w_trace (p_world proc0) = []) by reflexivity.
  assert (He : EvPublish "default_feedback_topic" (mkActionFeedback 5 1 ACTION_DISPATCHED_TO_GOAL_STATE)
                 ∈ w_trace (p_world (n_proc (q_node q_two))))
    by (apply (bool_decide_unpack _); vm_compute; reflexivity).
  split; [exact q_two_reachable|]. split; [exact H0|]. split; [exact He|].
  exact (queue_trace_wellformed env_ok params_pickup proc0 q_two _ q_two_reachable H0 He).
Defined.

(** Two commands waiting on the connection, none read yet. *)
Definition q_waiting : QNode FactKB :=
  mkQNode (mkNode p_ready self_ready PReady) [pickup_msg; place_msg] [] [pickup_msg; place_msg] [] [].

Lemma q_waiting_reachable : rtc (qstep env_ok params_pickup) (qnode_init proc0) q_waiting.
Proof.
  etrans; [exact q_ready_reachable|].
  eapply rtc_l; [apply (qstep_arrive env_ok params_pickup _ [] [] [] [] [] pickup_msg); [done|by eexists]|].
  apply rtc_once. apply (qstep_arrive env_ok params_pickup _ [pickup_msg] [] [pickup_msg] [] [] place_msg);
    [done|by eexists].
Qed.

(** ** Start-up without a dispatch topic *)

Lemma node_dispatch_topic_defaults_witness :
  prm_actions params_pickup = Some [pickup_cfg] ∧ prm_action_dispatch_topic params_pickup = None ∧
  fst (parse_config (feedback_topic_of params_pickup) [pickup_cfg] (p_action_interfaces proc0)) = None ∧
  ∃ s, rtc (node_step env_ok params_pickup) (node_init proc0) s ∧ n_phase s = PReady ∧
    aim_subscription (n_self s) = Some "default_dispatch_topic" ∧ callbacks_enabled (n_phase s) = true.
Proof.
  assert (H1 : prm_actions params_pickup = Some [pickup_cfg]) by reflexivity.
  assert (H2 : prm_action_dispatch_topic params_pickup = None) by reflexivity.
  assert (H3 : fst (parse_config (feedback_topic_of params_pickup) [pickup_cfg] (p_action_interfaces proc0)) = None)
    by (vm_compute; reflexivity).
  split; [exact H1|]. split; [exact H2|]. split; [exact H3|].
  exact (node_dispatch_topic_defaults env_ok params_pickup proc0 [pickup_cfg] H1 H2 H3).
Defined.

(** ** Receive threads of several connections *)

(** A node with "pickup" and "place" registered, two connections each
    delivering one of them, and the schedule that alternates the two
    receive threads action by action. *)
Definition params_both : Params := mkParams (Some [pickup_cfg; place_cfg]) None None.
Definition p_both : Proc ActionInterface FactKB := exec (aim_init params_both) proc0.
Definition self_both : AIM := fst (fst (aim_init params_both proc0)).
Definition conns_two : list (list ActionDispatch) := [[pickup_msg]; [place_msg]].
Definition sched_alt : list nat := [0; 1; 0; 1; 0; 1; 0; 1; 0; 1]%nat.
Definition threads_two : list (list Act) := conn_threads env_ok self_both (p_action_interfaces p_both) conns_two.
Definition run_alt : list (nat * Act) * list (list Act) := from_option id ([], []) (interleave threads_two sched_alt).

(** A second "pickup" command, and a connection delivering "pickup" then
    "place" interleaved with one delivering it. *)
Definition pickup_msg2 : ActionDispatch := mkActionDispatch 7 1 "pickup" [mkKeyValue "obj" "box"].
Definition conns_order : list (list ActionDispatch) := [[pickup_msg; place_msg]; [pickup_msg2]].
Definition sched_order : list nat := [0; 1; 0; 1; 0; 1; 0; 1; 0; 1; 0; 0; 0; 0; 0]%nat.
Definition run_order : list (nat * Act) * list (list Act) :=
  from_option id ([], []) (interleave (conn_threads env_ok self_both (p_action_interfaces p_both) conns_order) sched_order).

Lemma receive_threads_hyps :
  NoDup (cmd_key <$> mjoin conns_two) ∧ conns_two !! 1%nat = Some [place_msg] ∧ place_msg ∈ [place_msg] ∧
  interleave threads_two sched_alt = Some (run_alt.1, run_alt.2) ∧ finished run_alt.2 = true.
Proof.
  split; [apply (bool_decide_unpack _); vm_compute; reflexivity|].
  split; [reflexivity|]. split; [left|]. split; vm_compute; reflexivity.
Qed.

Lemma interleaving_observations_witness :
  NoDup (cmd_key <$> mjoin conns_two) ∧ conns_two !! 1%nat = Some [place_msg] ∧ place_msg ∈ [place_msg] ∧
  interleave threads_two sched_alt = Some (run_alt.1, run_alt.2) ∧ finished run_alt.2 = true ∧
  ∃ new new1,
    w_trace (exec (run_acts (snd <$> run_alt.1)) (p_world p_both)) = w_trace (p_world p_both) ++ new ∧
    w_trace (p_world (exec (dispatch_callback env_ok self_both place_msg) p_both)) = w_trace (p_world p_both) ++ new1 ∧
    observations (cmd_key place_msg) new = observations (cmd_key place_msg) new1.
Proof.
  destruct receive_threads_hyps as (H1 & H2 & H3 & H4 & H5).
  split; [exact H1|]. split; [exact H2|]. split; [exact H3|]. split; [exact H4|]. split; [exact H5|].
  exact (interleaving_observations env_ok self_both conns_two 1 [place_msg] place_msg sched_alt
           run_alt.1 run_alt.2 p_both H1 H2 H3 H4 H5).
Defined.

Lemma interleaving_lifecycle_witness :
  NoDup (cmd_key <$> mjoin conns_two) ∧ conns_two !! 1%nat = Some [place_msg] ∧ place_msg ∈ [place_msg] ∧
  interleave threads_two sched_alt = Some (run_alt.1, run_alt.2) ∧ finished run_alt.2 = true ∧
  ∃ new, w_trace (exec (run_acts (snd <$> run_alt.1)) (p_world p_both)) = w_trace (p_world p_both) ++ new ∧
    match p_action_interfaces p_both !! name place_msg, aim_feedback_pub self_both with
    | Some _, Some _ => ∃ b, lifecycle_shape (observations (cmd_key place_msg) new) b
    | _, _ => observations (cmd_key place_msg) new = []
    end.
Proof.
  destruct receive_threads_hyps as (H1 & H2 & H3 & H4 & H5).
  split; [exact H1|]. split; [exact H2|]. split; [exact H3|]. split; [exact H4|]. split; [exact H5|].
  exact (interleaving_lifecycle env_ok self_both conns_two 1 [place_msg] place_msg sched_alt
           run_alt.1 run_alt.2 (p_action_interfaces p_both) (p_world p_both) H1 H2 H3 H4 H5).
Defined.

Lemma interleaving_connection_order_witness :
  NoDup (cmd_key <$> mjoin conns_order) ∧
  conns_order !! 0%nat = Some ([] ++ pickup_msg :: [] ++ place_msg :: []) ∧
  interleave (conn_threads env_ok self_both (p_action_interfaces p_both) conns_order) sched_order =
    Some (run_order.1, run_order.2) ∧
  finished run_order.2 = true ∧
  ∃ t1 t2, w_trace (exec (run_acts (snd <$> run_order.1)) (p_world p_both)) = w_trace (p_world p_both) ++ t1 ++ t2 ∧
    observations (cmd_key place_msg) t1 = [] ∧ observations (cmd_key pickup_msg) t2 = [].
Proof.
  assert (H1 : NoDup (cmd_key <$> mjoin conns_order)) by (apply (bool_decide_unpack _); vm_compute; reflexivity).
  assert (H2 : conns_order !! 0%nat = Some ([] ++ pickup_msg :: [] ++ place_msg :: [])) by reflexivity.
  assert (H3 : interleave (conn_threads env_ok self_both (p_action_interfaces p_both) conns_order) sched_order =
                 Some (run_order.1, run_order.2)) by (vm_compute; reflexivity).
  assert (H4 : finished run_order.2 = true) by (vm_compute; reflexivity).
  split; [exact H1|]. split; [exact H2|]. split; [exact H3|]. split; [exact H4|].
  exact (interleaving_connection_order env_ok self_both conns_order 0 [] pickup_msg [] place_msg []
           sched_order run_order.1 run_order.2 (p_action_interfaces p_both) (p_world p_both) H1 H2 H3 H4).
Defined.

(** Two actions whose effects cross: "a" adds p at its start and deletes q
    at its end, "b" adds q at its start and deletes p at its end. *)
Definition op_a : Operator := mkOperator [mkAtom "p" []] [] [] [mkAtom "q" []].
Definition op_b : Operator := mkOperator [mkAtom "q" []] [] [] [mkAtom "p" []].
Definition kb_ab : FactKB := mkFactKB ∅ {[ "a" := op_a; "b" := op_b ]}.
Definition a_cfg : ActionConfig := mkActionConfig (Some "a") (Some "service") None (Some "a_service") None None.
Definition b_cfg : ActionConfig := mkActionConfig (Some "b") (Some "service") None (Some "b_service") None None.
Definition params_ab : Params := mkParams (Some [a_cfg; b_cfg]) None None.
Definition proc_ab : Proc ActionInterface FactKB := mkProc ∅ (mkWorld kb_ab []).
Definition p_ab : Proc ActionInterface FactKB := exec (aim_init params_ab) proc_ab.
Definition self_ab : AIM := fst (fst (aim_init params_ab proc_ab)).
Definition a_msg : ActionDispatch := mkActionDispatch 1 3 "a" [].
Definition b_msg : ActionDispatch := mkActionDispatch 2 3 "b" [].

(** The knowledge base of an interleaving need not be that of any
    serial order: with "a" and "b" delivered on two connections, the
    schedule that runs both starts before both ends leaves neither p nor
    q, while running the callbacks one after the other, in either order,
    leaves one of them. *)
Example interleaving_not_serialisable :
  ∃ sched out rest,
    interleave (conn_threads env_ok self_ab (p_action_interfaces p_ab) [[a_msg]; [b_msg]]) sched = Some (out, rest) ∧
    finished rest = true ∧
    kb_facts (w_kb (exec (run_acts (snd <$> out)) (p_world p_ab))) = ∅ ∧
    kb_facts (w_kb (p_world (exec (receive_loop env_ok self_ab [a_msg; b_msg]) p_ab))) = {[ ("q", []) ]} ∧
    kb_facts (w_kb (p_world (exec (receive_loop env_ok self_ab [b_msg; a_msg]) p_ab))) = {[ ("p", []) ]}.
Proof.
  exists [0; 0; 1; 1; 0; 0; 0; 1; 1; 1]%nat.
  destruct (interleave _ _) as [[out rest]|] eqn:E; [|vm_compute in E; discriminate].
  exists out, rest. split; [reflexivity|].
  vm_compute in E. injection E as <- <-. split; [reflexivity|]. split_and!; apply (bool_decide_unpack _); vm_compute; reflexivity.
Qed.

(** Two actions on disjoint facts: "a" as above (p and q), "c" adds r at
    its start and deletes it at its end. *)
Definition op_c : Operator := mkOperator [mkAtom "r" []] [] [] [mkAtom "r" []].
Definition kb_ac : FactKB := mkFactKB ∅ {[ "a" := op_a; "c" := op_c ]}.
Definition c_cfg : ActionConfig := mkActionConfig (Some "c") (Some "service") None (Some "c_service") None None.
Definition params_ac : Params := mkParams (Some [a_cfg; c_cfg]) None None.
Definition proc_ac : Proc ActionInterface FactKB := mkProc ∅ (mkWorld kb_ac []).
Definition p_ac : Proc ActionInterface FactKB := exec (aim_init params_ac) proc_ac.
Definition self_ac : AIM := fst (fst (aim_init params_ac proc_ac)).
Definition c_msg : ActionDispatch := mkActionDispatch 4 3 "c" [].
Definition conns_ac : list (list ActionDispatch) := [[a_msg]; [c_msg]].
Definition sched_ac : list nat := [0; 0; 1; 1; 0; 0; 0; 1; 1; 1]%nat.
Definition run_ac : list (nat * Act) * list (list Act) :=
  from_option id ([], []) (interleave (conn_threads env_ok self_ac (p_action_interfaces p_ac) conns_ac) sched_ac).

Lemma conns_ac_disjoint :
  ∀ c j msgs msgs' m m', c ≠ j → conns_ac !! c = Some msgs → conns_ac !! j = Some msgs' → m ∈ msgs → m' ∈ msgs' →
    touched (kb_domain (w_kb (p_world p_ac))) m ## touched (kb_domain (w_kb (p_world p_ac))) m'.
Proof.
  intros [|[|c]] [|[|j]] msgs msgs' m m' Hne Hc Hj Hm Hm'; unfold conns_ac in Hc, Hj; simpl in Hc, Hj; rewrite ?lookup_nil in Hc; rewrite ?lookup_nil in Hj; try congruence;
    injection Hc as <-; injection Hj as <-; apply list_elem_of_singleton in Hm as ->, Hm' as ->;
    apply (bool_decide_unpack _); vm_compute; reflexivity.
Qed.


(** The store's contract for "a" and "c": applications keep the domain,
    and on that domain the two commands' applications commute. *)
Definition ac_inv (kb : FactKB) : Prop := kb_domain kb = kb_domain (w_kb (p_world p_ac)).

Lemma ac_inv_apply m i kb : ac_inv kb → ac_inv (kb_apply_action_effects m i kb).2.
Proof. unfold ac_inv. intros Hkb. exact (eq_trans (fact_apply_domain m i kb) Hkb). Qed.

Lemma ac_commute :
  ∀ c j msgs msgs' m m' i i' kb, c ≠ j → conns_ac !! c = Some msgs → conns_ac !! j = Some msgs' →
    m ∈ msgs → m' ∈ msgs' → ac_inv kb →
    (kb_apply_action_effects m i (kb_apply_action_effects m' i' kb).2).2 =
      (kb_apply_action_effects m' i' (kb_apply_action_effects m i kb).2).2.
Proof.
  intros c j msgs msgs' m m' i i' kb Hne Hc Hj Hm Hm' Hkb.
  pose proof (conns_ac_disjoint c j msgs msgs' m m' Hne Hc Hj Hm Hm') as Hdis.
  apply (fact_apply_commute m i m' i' kb). intros a1 d1 a2 d2 H1 H2.
  apply fact_delta_touched in H1, H2. unfold ac_inv in Hkb. rewrite Hkb in H1, H2. set_solver.
Qed.

Lemma interleaving_kb_outcomes_witness :
  ac_inv (w_kb (p_world p_ac)) ∧
  interleave (conn_threads env_ok self_ac (p_action_interfaces p_ac) conns_ac) sched_ac = Some (run_ac.1, run_ac.2) ∧
  finished run_ac.2 = true ∧
  w_kb (exec (run_acts (snd <$> run_ac.1)) (p_world p_ac)) =
    apply_outcomes (outcomes env_ok (p_action_interfaces p_ac) self_ac (mjoin conns_ac)) (w_kb (p_world p_ac)).
Proof.
  assert (H0 : ac_inv (w_kb (p_world p_ac))) by reflexivity.
  assert (H2 : interleave (conn_threads env_ok self_ac (p_action_interfaces p_ac) conns_ac) sched_ac =
                 Some (run_ac.1, run_ac.2)) by (vm_compute; reflexivity).
  assert (H3 : finished run_ac.2 = true) by (vm_compute; reflexivity).
  split; [exact H0|]. split; [exact H2|]. split; [exact H3|].
  exact (interleaving_kb_outcomes ac_inv env_ok self_ac (p_action_interfaces p_ac) conns_ac sched_ac
           run_ac.1 run_ac.2 (p_world p_ac) H0 ac_inv_apply ac_commute H2 H3).
Defined.

(** ** The registry against the specification's *)

Lemma parse_config_spec_build_witness :
  Forall (λ a, recognised_type a = true) [pickup_cfg; place_cfg; untyped_cfg] ∧
  match spec_build "fb" [pickup_cfg; place_cfg; untyped_cfg] ∅ with
  | inl _ => is_Some (fst (parse_config "fb" [pickup_cfg; place_cfg; untyped_cfg] ∅))
  | inr d' => parse_config "fb" [pickup_cfg; place_cfg; untyped_cfg] ∅ = (None, d')
  end.
Proof.
  assert (H : Forall (λ a, recognised_type a = true) [pickup_cfg; place_cfg; untyped_cfg])
    by (apply (bool_decide_unpack _); vm_compute; reflexivity).
  split; [exact H|]. exact (parse_config_spec_build "fb" [pickup_cfg; place_cfg; untyped_cfg] ∅ H).
Defined.
